(** * The SSH mocking harness of [tests/_util.py]

    A shallow embedding of [Command], [MockChannel], [Session],
    [MockRemote] and the [mock_remote] decorator, together with the parts
    of [mock], [io.BytesIO] and [itertools] they rely on.

    Python objects that are shared between the harness and the code under
    test (the mocked channels and clients) live in a store and are
    referred to by their index; every operation is a computation in a
    state-and-exception monad over that store. *)

From stdpp Require Import gmap strings list fin_maps.
From Stdlib Require Import ZArith.
From Stdlib Require Strings.Byte.

#[global] Instance byte_eq_dec : EqDecision Byte.byte := Byte.byte_eq_dec.

Abbreviation bytes := (list Byte.byte).

(** ** Python values, truthiness and exceptions *)

Module Py.

(** The values the harness compares: [None], integers, text and byte
    strings. *)
Inductive val :=
| PNone
| Int (n : Z)
| Str (s : string)
| Bytes (b : bytes).

#[global] Instance val_eq_dec : EqDecision val.
Proof. solve_decision. Defined.

(** [bool(v)]. *)
Definition truthy (v : val) : bool :=
  match v with
  | PNone => false
  | Int n => negb (n =? 0)%Z
  | Str s => negb (bool_decide (s = EmptyString))
  | Bytes b => negb (bool_decide (b = []))
  end.

(** [a or b]: the first operand when it is truthy, else the second. *)
Definition or_ (a b : val) : val := if truthy a then a else b.

Definition of_str (o : option string) : val := from_option Str PNone o.
Definition of_bytes (o : option bytes) : val := from_option Bytes PNone o.
Definition of_int (o : option Z) : val := from_option Int PNone o.

Inductive exn :=
| ValueError (msg : string)
| AssertionError (msg : string)
| AttributeError (msg : string)
| RuntimeError (msg : string)
| OverflowError (msg : string)
| TypeError (msg : string)
| KeyError (key : string)
| StopIteration
| Exception (msg : string).

#[global] Instance exn_eq_dec : EqDecision exn.
Proof. solve_decision. Defined.

(** Outcome of a call: a returned value or a raised exception. *)
Inductive res (A : Type) :=
| Ok (a : A)
| Raise (e : exn).
#[global] Arguments Ok {A} a.
#[global] Arguments Raise {A} e.

Definition is_ok {A} (r : res A) : bool :=
  match r with Ok _ => true | Raise _ => false end.

Definition is_AssertionError {A} (r : res A) : bool :=
  match r with Raise (AssertionError _) => true | _ => false end.

(** The range of a C [ssize_t] on a 64-bit build: an integer argument
    that is converted to one raises [OverflowError] outside of it. *)
Definition PY_SSIZE_T_MAX : Z := 2 ^ 63 - 1.
Definition PY_SSIZE_T_MIN : Z := - 2 ^ 63.

Definition fits_ssize_t (n : Z) : bool :=
  (PY_SSIZE_T_MIN <=? n)%Z && (n <=? PY_SSIZE_T_MAX)%Z.

End Py.
Export Py.

(** ** [io.BytesIO] *)

Module BytesIO.

Record t := mk { buf : bytes; pos : nat }.

(** [BytesIO(initial)]: the cursor starts at 0. *)
Definition new (initial : bytes) : t := mk initial 0.

(** [read(size)]: a size that does not fit a C [ssize_t] raises
    [OverflowError]; a negative size reads everything that is left; the
    cursor advances by the length of what is returned. *)
Definition read (size : Z) (b : t) : res bytes * t :=
  if fits_ssize_t size then
    let rest := drop (pos b) (buf b) in
    let chunk := if (size <? 0)%Z then rest else take (Z.to_nat size) rest in
    (Ok chunk, mk (buf b) (pos b + length chunk))
  else (Raise (OverflowError "cannot fit 'int' into an index-sized integer"), b).

(** [write(data)]: overwrite at the cursor, growing the buffer (zero
    filled when the cursor is past the end); returns [len(data)]. *)
Definition write (data : bytes) (b : t) : Z * t :=
  let padded := buf b ++ replicate (pos b - length (buf b)) Byte.x00 in
  (Z.of_nat (length data),
   mk (take (pos b) padded ++ data ++ drop (pos b + length data) padded)
      (pos b + length data)).

Definition getvalue (b : t) : bytes := buf b.

(** Bytes not yet read. *)
Definition unread (b : t) : bytes := drop (pos b) (buf b).

End BytesIO.

(** ** [itertools] and list iterators *)

Module itertools.

#[warnings="-register-all"]
Inductive iter (A : Type) :=
| repeat (x : A) (times : option Z)
| of_list (l : list A)
| chain (its : list (iter A)).
#[global] Arguments repeat {A} x times.
#[global] Arguments of_list {A} l.
#[global] Arguments chain {A} its.

(** [repeat(x, times)]: the number of times is converted to a C
    [ssize_t]; a negative one gives an iterator that is exhausted at
    once. *)
Definition repeat_ {A} (x : A) (times : Z) : res (iter A) :=
  if fits_ssize_t times then Ok (repeat x (Some times))
  else Raise (OverflowError "Python int too large to convert to C ssize_t").

(** [next(it)]: [None] stands for [StopIteration]. *)
Fixpoint next {A} (it : iter A) : option (A * iter A) :=
  match it with
  | repeat x None => Some (x, repeat x None)
  | repeat x (Some n) =>
      if (0 <? n)%Z then Some (x, repeat x (Some (n - 1)%Z)) else None
  | of_list [] => None
  | of_list (x :: l) => Some (x, of_list l)
  | chain its =>
      (fix go (l : list (iter A)) : option (A * iter A) :=
         match l with
         | [] => None
         | i :: l' =>
             match next i with
             | Some (x, i') => Some (x, chain (i' :: l'))
             | None => go l'
             end
         end) its
  end.

(** [chain.from_iterable] over a list of lists. *)
Definition chain_from_iterable {A} (ls : list (list A)) : iter A :=
  chain (of_list <$> ls).

(** Up to [n] successive [next] calls: the items obtained and the
    iterator left. *)
Fixpoint take_next {A} (n : nat) (it : iter A) : list A * iter A :=
  match n with
  | O => ([], it)
  | S n' =>
      match next it with
      | Some (x, it') => let '(xs, it'') := take_next n' it' in (x :: xs, it'')
      | None => ([], it)
      end
  end.

(** The items of a finite iterator, as [list(it)] or [l.extend(it)]
    collect them; [None] when the iterator never ends. *)
Fixpoint to_list {A} (it : iter A) : option (list A) :=
  match it with
  | repeat x None => None
  | repeat x (Some n) => Some (replicate (Z.to_nat n) x)
  | of_list l => Some l
  | chain its =>
      (fix go (l : list (iter A)) : option (list A) :=
         match l with
         | [] => Some []
         | i :: l' =>
             match to_list i, go l' with
             | Some xs, Some ys => Some (xs ++ ys)
             | _, _ => None
             end
         end) its
  end.

End itertools.

(** ** [mock]: recorded calls, [ANY], return values and side effects *)

Module mock.

(** A recorded call: positional and keyword arguments. *)
Record call := Call { args : list val; kwargs : gmap string val }.

#[global] Instance call_eq_dec : EqDecision call.
Proof. solve_decision. Defined.

(** [call()] *)
Definition call_ : call := Call [] ∅.

(** What an assertion expects of an argument: [ANY] compares equal to
    everything. *)
Inductive matcher :=
| ANY
| Exactly (v : val).

Definition matches (m : matcher) (v : val) : bool :=
  match m with
  | ANY => true
  | Exactly e => bool_decide (e = v)
  end.

(** [x or ANY] *)
Definition or_ANY (x : val) : matcher :=
  if truthy x then Exactly x else ANY.

Record expected := Expected { e_args : list matcher; e_kwargs : gmap string matcher }.

(** Tuple equality of the positional arguments. *)
Fixpoint args_match (es : list matcher) (vs : list val) : bool :=
  match es, vs with
  | [], [] => true
  | e :: es', v :: vs' => matches e v && args_match es' vs'
  | _, _ => false
  end.

(** Dict equality of the keyword arguments: the same keys, with equal
    values. *)
Definition kwargs_match (es : gmap string matcher) (vs : gmap string val) : bool :=
  bool_decide (map_relation (λ _ e v, matches e v = true) (λ _ _, False) (λ _ _, False) es vs).

(** [expected == actual] on call objects. *)
Definition call_matches (e : expected) (c : call) : bool :=
  args_match (e_args e) (args c) && kwargs_match (e_kwargs e) (kwargs c).

(** What a call to a mock hands back: a configured value, or the child
    mock that [return_value] is by default. *)
Inductive ret (R : Type) :=
| Value (r : R)
| Child.
#[global] Arguments Value {R} r.
#[global] Arguments Child {R}.

#[global] Instance ret_eq_dec {R} `{EqDecision R} : EqDecision (ret R).
Proof. solve_decision. Defined.

Record Mock (R : Type) := mkMock {
  return_value : ret R;
  side_effect : option (itertools.iter R);
  call_args_list : list call
}.
#[global] Arguments mkMock {R}.
#[global] Arguments return_value {R}.
#[global] Arguments side_effect {R}.
#[global] Arguments call_args_list {R}.

(** [Mock()] *)
Definition new {R} : Mock R := mkMock Child None [].

Definition set_return_value {R} (r : R) (m : Mock R) : Mock R :=
  mkMock (Value r) (side_effect m) (call_args_list m).

Definition set_side_effect {R} (it : itertools.iter R) (m : Mock R) : Mock R :=
  mkMock (return_value m) (Some it) (call_args_list m).

(** Calling the mock: the call is recorded first; an iterator side
    effect then yields its next item or lets [StopIteration] escape. *)
Definition __call__ {R} (c : call) (m : Mock R) : res (ret R) * Mock R :=
  let log := call_args_list m ++ [c] in
  match side_effect m with
  | Some it =>
      match itertools.next it with
      | Some (x, it') => (Ok (Value x), mkMock (return_value m) (Some it') log)
      | None => (Raise StopIteration, mkMock (return_value m) (Some it) log)
      end
  | None => (Ok (return_value m), mkMock (return_value m) None log)
  end.

Definition call_count {R} (m : Mock R) : nat := length (call_args_list m).

(** [call_args]: the most recent call. *)
Definition call_args {R} (m : Mock R) : option call := last (call_args_list m).

(** [m.assert_called_with(...)] *)
Definition assert_called_with {R} (e : expected) (m : Mock R) : res unit :=
  match call_args m with
  | None => Raise (AssertionError "Expected call not made")
  | Some c =>
      if call_matches e c then Ok tt
      else Raise (AssertionError "Expected call does not match actual call")
  end.

(** [m.assert_called_once_with(...)] *)
Definition assert_called_once_with {R} (e : expected) (m : Mock R) : res unit :=
  if bool_decide (call_count m = 1) then assert_called_with e m
  else Raise (AssertionError "Expected to be called once").

End mock.

Import mock.

(** ** [Command] *)

Module Command.

Record t := mk {
  cmd : option string;
  out : bytes;
  err : bytes;
  in_ : option bytes;
  exit : Z;
  waits : Z
}.

(** [Command(...)]: a keyword that is not given takes its default,
    [cmd=None, out=b'', err=b'', in_=None, exit=0, waits=0]. *)
Definition __init__ (cmd : option string) (out err in_ : option bytes)
    (exit waits : option Z) : t :=
  mk cmd (default [] out) (default [] err) in_ (default 0%Z exit) (default 0%Z waits).

End Command.

(** ** [MockChannel] *)

Module MockChannel.

Record t := mk {
  __stdout : BytesIO.t;
  __stderr : BytesIO.t;
  _stdin : BytesIO.t;
  exec_command : Mock unit;
  exit_status_ready : Mock bool;
  recv_exit_status : Mock Z
}.

(** [MockChannel(stdout=..., stderr=...)] *)
Definition __init__ (stdout stderr : BytesIO.t) : t :=
  mk stdout stderr (BytesIO.new []) mock.new mock.new mock.new.

Definition recv (count : Z) (self : t) : res bytes * t :=
  let '(data, io) := BytesIO.read count (__stdout self) in
  (data, mk io (__stderr self) (_stdin self) (exec_command self)
            (exit_status_ready self) (recv_exit_status self)).

Definition recv_stderr (count : Z) (self : t) : res bytes * t :=
  let '(data, io) := BytesIO.read count (__stderr self) in
  (data, mk (__stdout self) io (_stdin self) (exec_command self)
            (exit_status_ready self) (recv_exit_status self)).

Definition sendall (data : bytes) (self : t) : Z * t :=
  let '(n, io) := BytesIO.write data (_stdin self) in
  (n, mk (__stdout self) (__stderr self) io (exec_command self)
         (exit_status_ready self) (recv_exit_status self)).

(** Calls of the three attributes that stay plain [Mock]s. *)
Definition call_exec_command (c : call) (self : t) : res (ret unit) * t :=
  let '(r, m) := mock.__call__ c (exec_command self) in
  (r, mk (__stdout self) (__stderr self) (_stdin self) m
         (exit_status_ready self) (recv_exit_status self)).

Definition call_exit_status_ready (c : call) (self : t) : res (ret bool) * t :=
  let '(r, m) := mock.__call__ c (exit_status_ready self) in
  (r, mk (__stdout self) (__stderr self) (_stdin self) (exec_command self)
         m (recv_exit_status self)).

Definition call_recv_exit_status (c : call) (self : t) : res (ret Z) * t :=
  let '(r, m) := mock.__call__ c (recv_exit_status self) in
  (r, mk (__stdout self) (__stderr self) (_stdin self) (exec_command self)
         (exit_status_ready self) m).

End MockChannel.

(** ** The store: mocked objects and the patched name *)

Abbreviation chan_ref := nat.
Abbreviation client_ref := nat.

(** The mocked [SSHClient] instance of one session. [open_session] and
    [active] belong to its transport, [get_transport.return_value]. *)
Module MockClient.

Record t := mk {
  get_transport : Mock unit;
  connect : Mock unit;
  active : Mock bool;
  open_session : Mock chan_ref
}.

(** [Mock()] *)
Definition new : t := mk mock.new mock.new mock.new mock.new.

End MockClient.

(** What the name [fabric.connection.SSHClient] is bound to: the real
    class, or the mock a patcher put there. *)
Inductive binding :=
| Real
| Patched (m : Mock client_ref).

Inductive event :=
| ev_patcher_start
| ev_patcher_stop
| ev_generate_mocks (client : client_ref)
| ev_sanity_check (client : option client_ref).

#[global] Instance event_eq_dec : EqDecision event.
Proof. solve_decision. Defined.

Record World := mkWorld {
  SSHClient : binding;
  channels : list MockChannel.t;
  clients : list MockClient.t;
  trace : list event
}.

(** ** State and exceptions *)

Definition M (A : Type) : Type := World → res A * World.

Definition ret_ {A} (a : A) : M A := λ w, (Ok a, w).

Definition raise {A} (e : exn) : M A := λ w, (Raise e, w).

Definition bind {A B} (m : M A) (k : A → M B) : M B :=
  λ w, match m w with
       | (Ok a, w') => k a w'
       | (Raise e, w') => (Raise e, w')
       end.

Notation "'let*' x := m 'in' k" := (bind m (λ x, k))
  (at level 10, x pattern, m at level 100, k at level 200).
Notation "m ;;; k" := (bind m (λ _, k))
  (at level 100, k at level 200, right associativity).

Definition lift {A} (r : res A) : M A := λ w, (r, w).

Definition log (e : event) : M unit :=
  λ w, (Ok tt, mkWorld (SSHClient w) (channels w) (clients w) (trace w ++ [e])).

(** [try: body finally: fin]: an exception of [fin] replaces the outcome
    of [body]. *)
Definition try_finally {A} (body : M A) (fin : M unit) : M A :=
  λ w, let '(r, w1) := body w in
       match fin w1 with
       | (Ok _, w2) => (r, w2)
       | (Raise e, w2) => (Raise e, w2)
       end.

(** [for x in l: f(x)], collecting the results. *)
Fixpoint for_each {A B} (f : A → M B) (l : list A) : M (list B) :=
  match l with
  | [] => ret_ []
  | x :: l' => let* y := f x in let* ys := for_each f l' in ret_ (y :: ys)
  end.

(** [n] calls in a row of a method [f] on one object, stopping at the
    first exception. *)
Fixpoint repeat_call {S A} (n : nat) (f : S → res A * S) (s : S) : res (list A) * S :=
  match n with
  | O => (Ok [], s)
  | S n' =>
      match f s with
      | (Ok x, s') =>
          match repeat_call n' f s' with
          | (Ok xs, s'') => (Ok (x :: xs), s'')
          | (Raise e, s'') => (Raise e, s'')
          end
      | (Raise e, s') => (Raise e, s')
      end
  end.

(** The store with [es] appended to its trace. *)
Definition logged (es : list event) (w : World) : World :=
  mkWorld (SSHClient w) (channels w) (clients w) (trace w ++ es).

(** [assert a == b], as [eq_] does. *)
Definition eq_ {A} `{EqDecision A} (a b : A) : res unit :=
  if bool_decide (a = b) then Ok tt else Raise (AssertionError "eq_").

(** *** Access to the store *)

Definition alloc_channel (c : MockChannel.t) : M chan_ref :=
  λ w, (Ok (length (channels w)),
        mkWorld (SSHClient w) (channels w ++ [c]) (clients w) (trace w)).

Definition alloc_client (c : MockClient.t) : M client_ref :=
  λ w, (Ok (length (clients w)),
        mkWorld (SSHClient w) (channels w) (clients w ++ [c]) (trace w)).

(** A method of the channel [r]: it runs on the stored object and writes
    the object back. A reference that was never allocated cannot occur in
    Python; the model reports it as an exception. *)
Definition on_channel {A} (r : chan_ref) (f : MockChannel.t → res A * MockChannel.t) : M A :=
  λ w, match channels w !! r with
       | Some c =>
           let '(a, c') := f c in
           (a, mkWorld (SSHClient w) (<[r := c']> (channels w)) (clients w) (trace w))
       | None => (Raise (Exception "no such channel"), w)
       end.

Definition on_client {A} (r : client_ref) (f : MockClient.t → res A * MockClient.t) : M A :=
  λ w, match clients w !! r with
       | Some c =>
           let '(a, c') := f c in
           (a, mkWorld (SSHClient w) (channels w) (<[r := c']> (clients w)) (trace w))
       | None => (Raise (Exception "no such client"), w)
       end.

Definition read_channel (r : chan_ref) : M MockChannel.t :=
  on_channel r (λ c, (Ok c, c)).

Definition read_client (r : client_ref) : M MockClient.t :=
  on_client r (λ c, (Ok c, c)).

Definition get_SSHClient : M binding := λ w, (Ok (SSHClient w), w).

Definition set_SSHClient (b : binding) : M unit :=
  λ w, (Ok tt, mkWorld b (channels w) (clients w) (trace w)).

(** ** What the code under test does with the fakes *)

Module Remote.

(** [fabric.connection.SSHClient(...)]: with the name patched, the call
    goes to the mock, which records it and yields its next side
    effect. Constructing the real class opens no fake and is outside
    this model. *)
Definition SSHClient_ (c : call) : M (ret client_ref) :=
  λ w, match SSHClient w with
       | Patched m =>
           let '(r, m') := mock.__call__ c m in
           (r, mkWorld (Patched m') (channels w) (clients w) (trace w))
       | Real => (Raise (Exception "the real SSHClient"), w)
       end.

Definition get_transport (cl : client_ref) : M (ret unit) :=
  on_client cl (λ c,
    let '(r, m) := mock.__call__ call_ (MockClient.get_transport c) in
    (r, MockClient.mk m (MockClient.connect c) (MockClient.active c)
                      (MockClient.open_session c))).

Definition connect (cl : client_ref) (a : call) : M (ret unit) :=
  on_client cl (λ c,
    let '(r, m) := mock.__call__ a (MockClient.connect c) in
    (r, MockClient.mk (MockClient.get_transport c) m (MockClient.active c)
                      (MockClient.open_session c))).

(** [transport.active] *)
Definition active (cl : client_ref) : M (ret bool) :=
  on_client cl (λ c,
    let '(r, m) := mock.__call__ call_ (MockClient.active c) in
    (r, MockClient.mk (MockClient.get_transport c) (MockClient.connect c) m
                      (MockClient.open_session c))).

(** [transport.open_session(...)] *)
Definition open_session (cl : client_ref) (a : call) : M (ret chan_ref) :=
  on_client cl (λ c,
    let '(r, m) := mock.__call__ a (MockClient.open_session c) in
    (r, MockClient.mk (MockClient.get_transport c) (MockClient.connect c)
                      (MockClient.active c) m)).

Definition exec_command (ch : chan_ref) (a : call) : M (ret unit) :=
  on_channel ch (MockChannel.call_exec_command a).

Definition exit_status_ready (ch : chan_ref) : M (ret bool) :=
  on_channel ch (MockChannel.call_exit_status_ready call_).

Definition recv_exit_status (ch : chan_ref) : M (ret Z) :=
  on_channel ch (MockChannel.call_recv_exit_status call_).

Definition recv (ch : chan_ref) (count : Z) : M bytes :=
  on_channel ch (MockChannel.recv count).

Definition recv_stderr (ch : chan_ref) (count : Z) : M bytes :=
  on_channel ch (MockChannel.recv_stderr count).

Definition sendall (ch : chan_ref) (data : bytes) : M Z :=
  on_channel ch (λ c, let '(n, c') := MockChannel.sendall data c in (Ok n, c')).

(** [n] calls of [m] in a row, collecting the results. *)
Fixpoint times {A} (n : nat) (m : M A) : M (list A) :=
  match n with
  | O => ret_ []
  | S n' => let* x := m in let* xs := times n' m in ret_ (x :: xs)
  end.

End Remote.

(** ** [Session] *)

Module Session.

(** [client] and [channels] are the attributes [generate_mocks] sets;
    [client = None] is a session whose mocks were not generated yet. *)
Record t := mk {
  host : option string;
  user : option string;
  port : option Z;
  commands : list Command.t;
  client : option client_ref;
  channels : list chan_ref
}.

(** Whether one of [cmd], [out], [err], [exit], [waits] is truthy. *)
Definition params_truthy (cmd : option string) (out err : option bytes)
    (exit waits : option Z) : bool :=
  truthy (of_str cmd) || truthy (of_bytes out) || truthy (of_bytes err)
  || truthy (of_int exit) || truthy (of_int waits).

(** [Session(host, user, port, commands, cmd, out, in_, err, exit,
    waits)]; every parameter defaults to [None]. *)
Definition __init__ (host user : option string) (port : option Z)
    (commands : option (list Command.t))
    (cmd : option string) (out in_ err : option bytes) (exit waits : option Z)
    : M t :=
  (* cmd or out or err or exit or waits *)
  let params :=
    or_ (of_str cmd) (or_ (of_bytes out) (or_ (of_bytes err)
      (or_ (of_int exit) (of_int waits)))) in
  let commands_truthy := negb (bool_decide (default [] commands = [])) in
  if commands_truthy && truthy params then
    raise (ValueError
      "You can't give both 'commands' and individual Command parameters!")
  else
    let commands1 :=
      if truthy params
      then [Command.__init__ cmd out err in_ exit waits]
      else default [] commands in
    let commands2 :=
      if bool_decide (commands1 = [])
      then [Command.__init__ None None None None None None]
      else commands1 in
    ret_ (mk host user port commands2 None []).

(** [self.client] *)
Definition get_client (self : t) : M client_ref :=
  match client self with
  | Some cl => ret_ cl
  | None => raise (AttributeError "'Session' object has no attribute 'client'")
  end.

(** The channel the loop of [generate_mocks] has made for a command, once
    [repeat(False, command.waits)] was accepted. *)
Definition channel_of (command : Command.t) : MockChannel.t :=
  MockChannel.mk (BytesIO.new (Command.out command)) (BytesIO.new (Command.err command))
    (BytesIO.new []) mock.new
    (mkMock Child
       (Some (itertools.chain [itertools.repeat false (Some (Command.waits command));
                               itertools.repeat true None])) [])
    (mkMock (Value (Command.exit command)) None []).

(** The channel made for one command in the loop of [generate_mocks]:
    [repeat(False, command.waits)] raises [OverflowError] when [waits]
    does not fit a C [ssize_t], and no channel is made then. *)
Definition new_channel (command : Command.t) : res MockChannel.t :=
  let channel :=
    MockChannel.__init__ (BytesIO.new (Command.out command))
                         (BytesIO.new (Command.err command)) in
  match itertools.repeat_ false (Command.waits command) with
  | Raise e => Raise e
  | Ok falses =>
      let readies := itertools.chain [falses; itertools.repeat true None] in
      Ok (MockChannel.mk (MockChannel.__stdout channel) (MockChannel.__stderr channel)
            (MockChannel._stdin channel) (MockChannel.exec_command channel)
            (mock.set_side_effect readies (MockChannel.exit_status_ready channel))
            (mock.set_return_value (Command.exit command)
                                   (MockChannel.recv_exit_status channel)))
  end.

Definition generate_mocks (self : t) : M t :=
  let* client := alloc_client
    (MockClient.mk mock.new mock.new
       (mock.set_side_effect (itertools.repeat true None) mock.new) mock.new) in
  log (ev_generate_mocks client) ;;;
  let* channels := for_each (λ command, let* channel := lift (new_channel command) in
                                        alloc_channel channel)
                            (commands self) in
  on_client client (λ c,
    (Ok tt, MockClient.mk (MockClient.get_transport c) (MockClient.connect c)
              (MockClient.active c)
              (mock.set_side_effect (itertools.of_list channels)
                                    (MockClient.open_session c)))) ;;;
  ret_ (mk (host self) (user self) (port self) (commands self) (Some client) channels).

(** Every command's [waits] fits a C [ssize_t], so that [generate_mocks]
    can build the iterators of the channels. *)
Definition waits_fit (self : t) : Prop :=
  Forall (λ command, fits_ssize_t (Command.waits command) = true) (commands self).

(** [call(username=self.user or ANY, hostname=self.host or ANY,
    port=self.port or ANY)] *)
Definition connect_expected (self : t) : expected :=
  Expected [] (<["username" := or_ANY (of_str (user self))]>
              (<["hostname" := or_ANY (of_str (host self))]>
              (<["port" := or_ANY (of_int (port self))]> ∅))).

(** [call(command.cmd or ANY)] *)
Definition exec_expected (command : Command.t) : expected :=
  Expected [or_ANY (of_str (Command.cmd command))] ∅.

(** The client as [generate_mocks] leaves it, its transport yielding
    [channels]. *)
Definition new_client (channels : list chan_ref) : MockClient.t :=
  MockClient.mk mock.new mock.new
    (mock.set_side_effect (itertools.repeat true None) mock.new)
    (mock.set_side_effect (itertools.of_list channels) mock.new).

(** The checks of one [(channel, command)] pair in the loop of
    [sanity_check]. *)
Definition check_pair (p : chan_ref * Command.t) : M call :=
  let '(channel, command) := p in
  let* ch := read_channel channel in
  lift (mock.assert_called_with (exec_expected command)
                                (MockChannel.exec_command ch)) ;;;
  (if truthy (of_bytes (Command.in_ command))
   then lift (eq_ (Bytes (BytesIO.getvalue (MockChannel._stdin ch)))
                  (of_bytes (Command.in_ command)))
   else ret_ tt) ;;;
  ret_ call_.

Definition sanity_check (self : t) : M unit :=
  log (ev_sanity_check (client self)) ;;;
  let* cl := get_client self in
  let* c := read_client cl in
  lift (mock.assert_called_once_with (Expected [] ∅) (MockClient.get_transport c)) ;;;
  lift (mock.assert_called_once_with (connect_expected self)
                                     (MockClient.connect c)) ;;;
  let* session_opens := for_each check_pair (zip (channels self) (commands self)) in
  let* c' := read_client cl in
  lift (eq_ (mock.call_args_list (MockClient.open_session c')) session_opens).

End Session.

(** ** [mock.patch('fabric.connection.SSHClient')] *)

Module patch.

(** A patcher remembers the binding it replaced while it is started. *)
Record t := mk { temp_original : option binding }.

Definition new : t := mk None.

(** [patcher.start()]: bind the name to a fresh mock. *)
Definition start (self : t) : M t :=
  log ev_patcher_start ;;;
  let* original := get_SSHClient in
  set_SSHClient (Patched mock.new) ;;;
  ret_ (mk (Some original)).

(** [patcher.stop()]: bind the name to what it was before [start]. *)
Definition stop (self : t) : M t :=
  match temp_original self with
  | None => raise (RuntimeError "stop called on unstarted patcher")
  | Some original =>
      log ev_patcher_stop ;;;
      set_SSHClient original ;;;
      ret_ (mk None)
  end.

End patch.

(** ** [MockRemote] *)

Module MockRemote.

Record t := mk {
  sessions : list Session.t;
  patcher : option patch.t
}.

(** [SSHClient.side_effect = clients], on the mock that [patcher.start()]
    returned, which is the one bound to the name. *)
Definition set_SSHClient_side_effect (clients : list client_ref) : M unit :=
  let* b := get_SSHClient in
  match b with
  | Patched m => set_SSHClient (Patched (mock.set_side_effect (itertools.of_list clients) m))
  | Real => ret_ tt
  end.

Definition start (self : t) : M (t * itertools.iter chan_ref) :=
  let* patcher := patch.start patch.new in
  let* sessions := for_each Session.generate_mocks (sessions self) in
  let* clients := for_each Session.get_client sessions in
  set_SSHClient_side_effect clients ;;;
  ret_ (mk sessions (Some patcher),
        itertools.chain_from_iterable (Session.channels <$> sessions)).

Definition stop (self : t) : M t :=
  let* p := match patcher self with
            | Some p => ret_ p
            | None => raise (AttributeError "'MockRemote' object has no attribute 'patcher'")
            end in
  let* p' := patch.stop p in
  for_each Session.sanity_check (sessions self) ;;;
  ret_ (mk (sessions self) (Some p')).

(** [MockRemote(cmd, out, err, in_, exit, commands, sessions,
    autostart)] *)
Definition __init__ (cmd : option string) (out err in_ : option bytes)
    (exit : option Z) (commands : option (list Command.t))
    (sessions : option (list Session.t)) (autostart : bool) : M t :=
  let* sessions' :=
    if negb (bool_decide (default [] commands = [])) then
      let* s := Session.__init__ None None None commands None None None None None None in
      ret_ [s]
    else if bool_decide (default [] sessions = []) then
      let* session :=
        if truthy (or_ (of_str cmd) (or_ (of_bytes out) (or_ (of_bytes err) (of_int exit))))
        then Session.__init__ None None None None cmd out in_ err exit None
        else Session.__init__ None None None None None None None None None None in
      ret_ [session]
    else ret_ (default [] sessions) in
  let self := mk sessions' None in
  if autostart then let* r := start self in ret_ (fst r) else ret_ self.

End MockRemote.

(** ** The [mock_remote] decorator *)

(** A positional argument of a test: a plain value or a channel mock. *)
Inductive arg :=
| Val (v : val)
| Chan (r : chan_ref).

(** A test function, its keyword arguments applied. *)
Definition test_fn : Type := list arg → M unit.

Definition wrapper (sessions : list Session.t) (f : test_fn) : test_fn :=
  λ args,
    let* remote := MockRemote.__init__ None None None None None None (Some sessions) false in
    let* started := MockRemote.start remote in
    let '(remote, chans) := started in
    (* args.extend(remote.start()) *)
    let* extra := match itertools.to_list chans with
                  | Some l => ret_ l
                  | None => raise (Exception "unbounded iterator")
                  end in
    let args := args ++ (Chan <$> extra) in
    try_finally (f args) (MockRemote.stop remote ;;; ret_ tt).

Definition decorator (sessions : list Session.t) (f : test_fn) : test_fn :=
  wrapper sessions f.

(** [@mock_remote] used bare receives the test function itself; used with
    arguments it receives sessions. *)
Inductive mock_remote_args :=
| Bare (func : test_fn)
| Sessions (sessions : list Session.t).

Definition mock_remote (a : mock_remote_args) : test_fn + (test_fn → test_fn) :=
  match a with
  | Bare func => inl (decorator [] func)
  | Sessions sessions => inr (decorator sessions)
  end.

(** A store in which nothing was mocked yet. *)
Definition empty_world : World := mkWorld Real [] [] [].

(** The trace entry of a session's verification. *)
Definition verified (s : Session.t) : event := ev_sanity_check (Session.client s).

(** The session passes verification in the store [w]. *)
Definition passes (w : World) (s : Session.t) : Prop :=
  (Session.sanity_check s w).1 = Ok tt.

(** ** Code under test, for the examples *)

(** A well-behaved user of one session's client: one [connect], one
    [get_transport], then for each command an [open_session], an
    [exec_command] with the given text and the given bytes sent as
    stdin. *)
Definition use_client (cl : client_ref) (target : gmap string val)
    (execs : list (val * bytes)) : M unit :=
  Remote.connect cl (Call [] target) ;;;
  Remote.get_transport cl ;;;
  for_each (λ e : val * bytes,
              let* ch := Remote.open_session cl call_ in
              match ch with
              | Value ch =>
                  Remote.exec_command ch (Call [e.1] ∅) ;;; Remote.sendall ch e.2
              | Child => raise (Exception "not a channel")
              end) execs ;;;
  ret_ tt.

(** [username=u, hostname=h, port=p] *)
Definition target (u h : string) (p : Z) : gmap string val :=
  <["username" := Str u]> (<["hostname" := Str h]> (<["port" := Int p]> ∅)).

(** The session with its mocks generated in the empty store, and the
    store after [k] has used them. *)
Definition session_used (s : Session.t) (k : client_ref → M unit) : Session.t * World :=
  match Session.generate_mocks s empty_world with
  | (Ok s', w) => (s', ((let* cl := Session.get_client s' in k cl) w).2)
  | (Raise _, w) => (s, w)
  end.

(** [Session(commands=[Command('cat', in_=b'')])], whose command gets an
    [a] on stdin. *)
Definition cat_session : Session.t * World :=
  session_used
    (Session.mk None None None
       [Command.__init__ (Some "cat") None None (Some []) None None] None [])
    (λ cl, use_client cl (target "u" "h" 22) [(Str "cat", [Byte.x61])]).

(** [Session(host='x', user='y', cmd='ls', in_=b'y')], used as
    declared. *)
Definition ls_session : Session.t * World :=
  session_used
    (Session.mk (Some "x") (Some "y") None
       [Command.__init__ (Some "ls") None None (Some [Byte.x79]) None None] None [])
    (λ cl, use_client cl (target "y" "x" 22) [(Str "ls", [Byte.x79])]).

(** [Session(port=0)], with a connection made to port 22. *)
Definition port_zero_session : Session.t * World :=
  session_used
    (Session.mk None None (Some 0%Z)
       [Command.__init__ None None None None None None] None [])
    (λ cl, use_client cl (target "u" "h" 22) [(Str "ls", [])]).

(** [Session()] *)
Definition default_session : Session.t :=
  Session.mk None None None [Command.__init__ None None None None None None] None [].

(** A harness over [ss] started in the empty store, and that store. *)
Definition started (ss : list Session.t) : MockRemote.t * World :=
  match MockRemote.start (MockRemote.mk ss None) empty_world with
  | (Ok (remote, _), w) => (remote, w)
  | (Raise _, w) => (MockRemote.mk ss None, w)
  end.

(** A test body that raises at once. *)
Definition boom : test_fn := λ _, raise (Exception "boom").

(** A test that makes one connection and runs one command on it. *)
Definition one_command_test : test_fn :=
  λ _, let* cl := Remote.SSHClient_ call_ in
       match cl with
       | Value cl => use_client cl (target "u" "h" 22) [(Str "ls", [])]
       | Child => raise (Exception "not a client")
       end.

(** The generated channel [ch] after one [exec_command(text)] and one
    [sendall(data)]. *)
Definition used_channel (ch : MockChannel.t) (e : val * bytes) : MockChannel.t :=
  MockChannel.mk (MockChannel.__stdout ch) (MockChannel.__stderr ch)
    (BytesIO.mk e.2 (length e.2))
    (mkMock Child None [Call [e.1] ∅])
    (MockChannel.exit_status_ready ch)
    (MockChannel.recv_exit_status ch).

(** What the code under test does as the session declares: the text of
    a command when it is given and not empty, the stdin it expects when
    that is given and not empty. *)
Definition as_declared (e : val * bytes) (command : Command.t) : Prop :=
  (∀ text, Command.cmd command = Some text → text ≠ EmptyString → e.1 = Str text) ∧
  (∀ data, Command.in_ command = Some data → data ≠ [] → e.2 = data).

(** ** What verification expects, in words *)

(** The most recent [exec_command] call on the channel had one positional
    argument and nothing else; when the command's text is given and not
    empty, that argument is the text. *)
Definition exec_as_expected (command : Command.t) (ch : MockChannel.t) : Prop :=
  ∃ a, mock.call_args (MockChannel.exec_command ch) = Some (Call [a] ∅) ∧
       ∀ text, Command.cmd command = Some text → text ≠ EmptyString → a = Str text.

(** When the command's expected stdin is given and not empty, it is what
    the channel recorded. *)
Definition stdin_as_expected (command : Command.t) (ch : MockChannel.t) : Prop :=
  ∀ data, Command.in_ command = Some data → data ≠ [] →
          BytesIO.getvalue (MockChannel._stdin ch) = data.

(** [connect] was called once, with exactly the keywords [username],
    [hostname] and [port]; each of them equals the session's value when
    that value is given and truthy. *)
Definition connected_as_expected (s : Session.t) (c : MockClient.t) : Prop :=
  ∃ u h p,
    mock.call_args_list (MockClient.connect c) =
      [Call [] (<["username" := u]> (<["hostname" := h]> (<["port" := p]> ∅)))] ∧
    (∀ user, Session.user s = Some user → user ≠ EmptyString → u = Str user) ∧
    (∀ host, Session.host s = Some host → host ≠ EmptyString → h = Str host) ∧
    (∀ port, Session.port s = Some port → port ≠ 0%Z → p = Int port).

(** A computation that only looks at the mocked objects: it leaves the
    store as it is, and its outcome depends on the channels and clients
    alone. *)
Definition observes {A} (m : M A) : Prop :=
  (∀ w, (m w).2 = w) ∧
  (∀ w1 w2, channels w1 = channels w2 → clients w1 = clients w2 → (m w1).1 = (m w2).1).

(** ** [IntegrationSpec] *)

Module IntegrationSpec.

(** The [__file__] of a module object as [teardown] reads it: missing
    (a built-in module), [None] (a namespace package), or a path. *)
Inductive file_attr :=
| NoFile
| FileNone
| File (path : string).

Record module_ := mkModule { __file__ : file_attr }.

(** The state of the process that [setup] and [teardown] work on:
    [os.environ] and [sys.modules]. [sys.modules] is a dict whose items
    are listed in the order in which a loop over it visits them; an
    entry may be [None]. *)
Record Process := mkProcess {
  environ : gmap string string;
  modules : list (string * option module_)
}.

(** [old_environ] is the attribute [setup] sets. *)
Record t := mk { old_environ : option (gmap string string) }.

(** [sub in text] on strings. *)
Fixpoint contains (sub text : string) : bool :=
  String.prefix sub text ||
  match text with
  | EmptyString => false
  | String _ rest => contains sub rest
  end.

(** [d.update(new)] *)
Definition update (new d : gmap string string) : gmap string string := new ∪ d.

(** [self.old_environ = os.environ.copy()] *)
Definition setup (self : t) (p : Process) : t * Process :=
  (mk (Some (environ p)), p).

(** [module and support in getattr(module, '__file__', '')]: with a
    [__file__] that is [None], [support in None] raises [TypeError]. *)
Definition in_support (support : string) (module : option module_) : res bool :=
  match module with
  | None => Ok false
  | Some m =>
      match __file__ m with
      | NoFile => Ok (contains support EmptyString)
      | FileNone => Raise (TypeError "argument of type 'NoneType' is not iterable")
      | File path => Ok (contains support path)
      end
  end.

(** [del d[name]] *)
Definition del (name : string) (d : list (string * option module_))
    : res (list (string * option module_)) :=
  if bool_decide (name ∈ d.*1) then Ok (filter (λ item, item.1 ≠ name) d)
  else Raise (KeyError name).

(** The loop over the items of a copy of [sys.modules], deleting from
    the original; an exception ends it. *)
Fixpoint strip (support : string) (items mods : list (string * option module_))
    : res unit * list (string * option module_) :=
  match items with
  | [] => (Ok tt, mods)
  | (name, module) :: rest =>
      match in_support support module with
      | Raise e => (Raise e, mods)
      | Ok true =>
          match del name mods with
          | Raise e => (Raise e, mods)
          | Ok mods' => strip support rest mods'
          end
      | Ok false => strip support rest mods
      end
  end.

(** [teardown]: the environment is cleared before [self.old_environ] is
    looked up, and restored before the modules are gone through. *)
Definition teardown (support : string) (self : t) (p : Process) : res unit * Process :=
  let cleared := mkProcess ∅ (modules p) in
  match old_environ self with
  | None =>
      (Raise (AttributeError "'IntegrationSpec' object has no attribute 'old_environ'"),
       cleared)
  | Some old =>
      let '(r, mods) := strip support (modules cleared) (modules cleared) in
      (r, mkProcess (update old (environ cleared)) mods)
  end.

(** No module has a [__file__] that is [None]. *)
Definition files_readable (mods : list (string * option module_)) : Prop :=
  Forall (λ item, ∀ m, item.2 = Some m → __file__ m ≠ FileNone) mods.

(** The entries the loop deletes: modules whose [__file__] contains
    [support]. *)
Definition stripped (support : string) (item : string * option module_) : bool :=
  match in_support support item.2 with
  | Ok true => true
  | _ => false
  end.

End IntegrationSpec.

(** ** [posixpath.basename] *)

Module posixpath.

(** [sep] *)
Definition sep : Ascii.ascii := Ascii.ascii_of_nat 47.

(** [s.rfind(c)]: the highest index of [c] in [s], or -1. *)
Fixpoint rfind (c : Ascii.ascii) (s : string) : Z :=
  match s with
  | EmptyString => -1
  | String a rest =>
      let i := rfind c rest in
      if (0 <=? i)%Z then (i + 1)%Z
      else if Ascii.eqb a c then 0%Z else (-1)%Z
  end.

(** [s[i:]] for [i >= 0]. *)
Fixpoint slice_from (i : nat) (s : string) : string :=
  match i, s with
  | O, _ => s
  | S i', String _ rest => slice_from i' rest
  | S _, EmptyString => EmptyString
  end.

(** [i = p.rfind(sep) + 1; return p[i:]] *)
Definition basename (p : string) : string :=
  slice_from (Z.to_nat (rfind sep p + 1)) p.

(** [s[:i]] for [i >= 0]. *)
Fixpoint slice_to (i : nat) (s : string) : string :=
  match i, s with
  | S i', String a rest => String a (slice_to i' rest)
  | _, _ => EmptyString
  end.

(** [s.startswith(sep)] *)
Definition startswith_sep (s : string) : bool :=
  match s with
  | String a _ => Ascii.eqb a sep
  | EmptyString => false
  end.

(** [s.endswith(sep)] *)
Fixpoint endswith_sep (s : string) : bool :=
  match s with
  | EmptyString => false
  | String a EmptyString => Ascii.eqb a sep
  | String _ rest => endswith_sep rest
  end.

(** [s == sep*len(s)] *)
Fixpoint all_sep (s : string) : bool :=
  match s with
  | EmptyString => true
  | String a rest => Ascii.eqb a sep && all_sep rest
  end.

(** [s.rstrip(sep)] *)
Fixpoint rstrip_sep (s : string) : string :=
  match s with
  | EmptyString => EmptyString
  | String a rest =>
      match rstrip_sep rest with
      | EmptyString => if Ascii.eqb a sep then EmptyString else String a EmptyString
      | r => String a r
      end
  end.

(** [bool(s)] of a string. *)
Definition nonempty (s : string) : bool :=
  match s with
  | EmptyString => false
  | String _ _ => true
  end.

(** [i = p.rfind(sep) + 1; head = p[:i]], stripped of trailing
    separators unless it consists of separators only. *)
Definition dirname (p : string) : string :=
  let head := slice_to (Z.to_nat (rfind sep p + 1)) p in
  if nonempty head && negb (all_sep head) then rstrip_sep head else head.

(** [join(a, *p)]: a component that starts with the separator resets the
    path; otherwise it is appended, after a separator unless the path is
    empty or ends with one. *)
Fixpoint join (a : string) (p : list string) : string :=
  match p with
  | [] => a
  | b :: rest =>
      let path :=
        if startswith_sep b then b
        else if negb (nonempty a) || endswith_sep a then (a +:+ b)%string
        else (a +:+ String sep b)%string in
      join path rest
  end.

End posixpath.

(** ** The Sphinx settings of [sites/shared_conf.py] that depend on the
    environment *)

Module shared_conf.

(** The value of [os.environ.get('TRAVIS', False)]: the variable's text,
    or [False]. *)
Inductive flag :=
| FBool (b : bool)
| FStr (s : string).

Definition flag_truthy (v : flag) : bool :=
  match v with
  | FBool b => b
  | FStr s => posixpath.nonempty s
  end.

Section Settings.

(** [os.environ] and the module's [__file__]. *)
Context (environ : gmap string string) (__file__ : string).

Definition on_rtd : bool := bool_decide (environ !! "READTHEDOCS"%string = Some "True"%string).

Definition on_travis : flag :=
  match environ !! "TRAVIS"%string with
  | Some s => FStr s
  | None => FBool false
  end.

(** [not (on_rtd or on_travis)] *)
Definition on_dev : bool :=
  negb (flag_truthy (if on_rtd then FBool on_rtd else on_travis)).

Definition inv_target : string :=
  let inv_target :=
    posixpath.join (posixpath.dirname __file__)
      [".."; ".."; "invoke"; "sites"; "docs"; "_build"]%string in
  if negb on_dev then "http://docs.pyinvoke.org/en/latest/"%string else inv_target.

Definition inv_www_target : string :=
  let inv_www_target :=
    posixpath.join (posixpath.dirname __file__)
      [".."; ".."; "invoke"; "sites"; "www"; "_build"]%string in
  if negb on_dev then "http://pyinvoke.org/"%string else inv_www_target.

Definition para_target : string :=
  let para_target :=
    posixpath.join (posixpath.dirname __file__)
      [".."; ".."; "paramiko"; "sites"; "docs"; "_build"]%string in
  if negb on_dev then "http://docs.paramiko.org/en/latest/"%string else para_target.

(** Every value is a pair of a target and [None]. *)
Definition intersphinx_mapping : gmap string (string * val) :=
  <["python"%string := ("http://docs.python.org/2.6"%string, PNone)]>
    (<["invoke"%string := (inv_target, PNone)]>
       (<["invoke_www"%string := (inv_www_target, PNone)]>
          (<["paramiko"%string := (para_target, PNone)]> ∅))).

End Settings.

End shared_conf.

(** ** [MockSFTP] and [mock_sftp] *)

Module MockSFTP.

(** A mock whose side effect is a function of the path it is called
    with: [mock_os.path.abspath] and [mock_os.path.basename]. *)
Record FnMock := mkFn {
  fn_side_effect : option (string → string);
  fn_calls : list string
}.

Definition fn_new : FnMock := mkFn None [].

Definition fn_call (path : string) (m : FnMock) : ret string * FnMock :=
  (match fn_side_effect m with
   | Some f => Value (f path)
   | None => Child
   end, mkFn (fn_side_effect m) (fn_calls m ++ [path])).

(** The mock put in place of [fabric.transfer.os]: [path.abspath],
    [path.basename] and [stat], whose result has the field [st_mode]. *)
Record OsMock := mkOs {
  abspath : FnMock;
  basename : FnMock;
  os_stat : Mock Z
}.

(** The SFTP client of the mocked [SSHClient],
    [Client.return_value.open_sftp.return_value]: [getcwd] and [stat],
    whose result has the field [st_mode]. *)
Record SFTPMock := mkSftp {
  getcwd : Mock string;
  stat : Mock Z
}.

(** What a patched name is bound to. *)
Inductive name :=
| Unpatched
| Mocked (ref : nat).

(** The two names [MockSFTP] patches, and the mocks made so far. *)
Record Store := mkStore {
  transfer_os : name;
  connection_SSHClient : name;
  os_mocks : list OsMock;
  sftp_mocks : list SFTPMock
}.

Definition S (A : Type) : Type := Store → res A * Store.

(** [os_patcher] and [client_patcher] are set by [start]; a started
    patcher remembers the binding it replaced. *)
Record t := mk {
  os_patcher : option (option name);
  client_patcher : option (option name)
}.

Definition fake_abspath (path : string) : string := ("/local/" +:+ path)%string.

(** [0o644] *)
Definition fake_mode : Z := 420.

Definition start (self : t) (st : Store) : res (t * (nat * nat)) * Store :=
  let mock_os_ref := length (os_mocks st) in
  let sftp_ref := length (sftp_mocks st) in
  let mock_os :=
    mkOs (mkFn (Some fake_abspath) []) (mkFn (Some posixpath.basename) [])
         (mock.set_return_value fake_mode mock.new) in
  let sftp :=
    mkSftp (mock.set_return_value "/remote"%string mock.new)
           (mock.set_return_value fake_mode mock.new) in
  (Ok (mk (Some (Some (transfer_os st))) (Some (Some (connection_SSHClient st))),
       (sftp_ref, mock_os_ref)),
   mkStore (Mocked mock_os_ref) (Mocked sftp_ref)
           (os_mocks st ++ [mock_os]) (sftp_mocks st ++ [sftp])).

Definition stop (self : t) (st : Store) : res t * Store :=
  match os_patcher self with
  | None => (Raise (AttributeError "'MockSFTP' object has no attribute 'os_patcher'"), st)
  | Some None => (Raise (RuntimeError "stop called on unstarted patcher"), st)
  | Some (Some original_os) =>
      let st1 := mkStore original_os (connection_SSHClient st)
                         (os_mocks st) (sftp_mocks st) in
      match client_patcher self with
      | None =>
          (Raise (AttributeError "'MockSFTP' object has no attribute 'client_patcher'"), st1)
      | Some None => (Raise (RuntimeError "stop called on unstarted patcher"), st1)
      | Some (Some original_client) =>
          (Ok (mk (Some None) (Some None)),
           mkStore original_os original_client (os_mocks st) (sftp_mocks st))
      end
  end.

(** [MockSFTP(autostart)] *)
Definition __init__ (autostart : bool) (st : Store) : res t * Store :=
  let self := mk None None in
  if autostart then
    match start self st with
    | (Ok (self', _), st') => (Ok self', st')
    | (Raise e, st') => (Raise e, st')
    end
  else (Ok self, st).

(** *** What the code under test calls *)

Definition on_os {A} (r : nat) (f : OsMock → A * OsMock) : S A :=
  λ st, match os_mocks st !! r with
        | Some m =>
            let '(a, m') := f m in
            (Ok a, mkStore (transfer_os st) (connection_SSHClient st)
                           (<[r := m']> (os_mocks st)) (sftp_mocks st))
        | None => (Raise (Exception "no such mock"), st)
        end.

Definition on_sftp {A} (r : nat) (f : SFTPMock → res A * SFTPMock) : S A :=
  λ st, match sftp_mocks st !! r with
        | Some m =>
            let '(a, m') := f m in
            (a, mkStore (transfer_os st) (connection_SSHClient st)
                        (os_mocks st) (<[r := m']> (sftp_mocks st)))
        | None => (Raise (Exception "no such mock"), st)
        end.

(** [mock_os.path.abspath(path)] *)
Definition call_abspath (r : nat) (path : string) : S (ret string) :=
  on_os r (λ m, let '(x, f) := fn_call path (abspath m) in
                (x, mkOs f (basename m) (os_stat m))).

(** [mock_os.path.basename(path)] *)
Definition call_basename (r : nat) (path : string) : S (ret string) :=
  on_os r (λ m, let '(x, f) := fn_call path (basename m) in
                (x, mkOs (abspath m) f (os_stat m))).

(** [sftp.getcwd()] *)
Definition call_getcwd (r : nat) : S (ret string) :=
  on_sftp r (λ m, let '(x, g) := mock.__call__ call_ (getcwd m) in
                  (x, mkSftp g (stat m))).

(** [sftp.stat(path).st_mode] *)
Definition call_stat_st_mode (r : nat) (path : string) : S (ret Z) :=
  on_sftp r (λ m, let '(x, g) := mock.__call__ (Call [Str path] ∅) (stat m) in
                  (x, mkSftp (getcwd m) g)).

(** [mock_os.stat(path).st_mode] *)
Definition call_os_stat_st_mode (r : nat) (path : string) : S (ret Z) :=
  λ st, match os_mocks st !! r with
        | Some m =>
            let '(x, g) := mock.__call__ (Call [Str path] ∅) (os_stat m) in
            (x, mkStore (transfer_os st) (connection_SSHClient st)
                        (<[r := mkOs (abspath m) (basename m) g]> (os_mocks st))
                        (sftp_mocks st))
        | None => (Raise (Exception "no such mock"), st)
        end.

(** The mocks behind the two handles are configured as [start] leaves
    them. *)
Definition stubbed (sftp mock_os : nat) (st : Store) : Prop :=
  ∃ mo ms,
    os_mocks st !! mock_os = Some mo ∧ sftp_mocks st !! sftp = Some ms ∧
    fn_side_effect (abspath mo) = Some fake_abspath ∧
    fn_side_effect (basename mo) = Some posixpath.basename ∧
    return_value (os_stat mo) = Value fake_mode ∧ side_effect (os_stat mo) = None ∧
    return_value (getcwd ms) = Value "/remote"%string ∧ side_effect (getcwd ms) = None ∧
    return_value (stat ms) = Value fake_mode ∧ side_effect (stat ms) = None.

(** A computation that leaves both patched names as they are. *)
Definition keeps_names {A} (m : S A) : Prop :=
  ∀ st, transfer_os (m st).2 = transfer_os st ∧
        connection_SSHClient (m st).2 = connection_SSHClient st.

(** *** The decorator *)

(** A positional argument of a decorated test. *)
Inductive sarg (T : Type) :=
| Self (v : val)
| Sftp (ref : nat)
| Transfer (t : T)
| Os (ref : nat).
#[global] Arguments Self {T} v.
#[global] Arguments Sftp {T} ref.
#[global] Arguments Transfer {T} t.
#[global] Arguments Os {T} ref.

Section Decorator.

(** [Transfer(Connection('host'))] belongs to the library under test. *)
Context {T R : Type} (make_transfer : S T).

Definition wrapper (expose_os : bool) (f : list (sarg T) → S R) (self : val) : S R :=
  λ st,
    match __init__ false st with
    | (Raise e, st') => (Raise e, st')
    | (Ok mock_, st0) =>
        match start mock_ st0 with
        | (Raise e, st') => (Raise e, st')
        | (Ok (_, (sftp, mock_os)), st1) =>
            match make_transfer st1 with
            | (Raise e, st') => (Raise e, st')
            | (Ok transfer, st2) =>
                let passed_args := [Self self; Sftp sftp; Transfer transfer] in
                let passed_args :=
                  if expose_os then passed_args ++ [Os mock_os] else passed_args in
                f passed_args st2
            end
        end
    end.

Definition mock_sftp (expose_os : bool) (f : list (sarg T) → S R) : val → S R :=
  wrapper expose_os f.

End Decorator.

End MockSFTP.

(** * Properties *)

(** ** Truthiness *)

Lemma truthy_or_ (a b : val) : truthy (or_ a b) = truthy a || truthy b.
Proof. unfold or_. destruct (truthy a) eqn:E; simpl; [exact E | reflexivity]. Qed.

Lemma or_ANY_truthy (x : val) : truthy x = true → or_ANY x = Exactly x.
Proof. unfold or_ANY. intros ->. reflexivity. Qed.

Lemma or_ANY_falsy (x : val) : truthy x = false → or_ANY x = ANY.
Proof. unfold or_ANY. intros ->. reflexivity. Qed.

(** ** [Session.__init__] *)

Section SessionInit.

Variables (host user : option string) (port : option Z).
Variables (cmd : option string) (out in_ err : option bytes) (exit waits : option Z).

Let params_truthy := Session.params_truthy cmd out err exit waits.

Lemma params_truthy_eq :
  truthy (or_ (of_str cmd) (or_ (of_bytes out) (or_ (of_bytes err)
            (or_ (of_int exit) (of_int waits))))) = params_truthy.
Proof.
  unfold params_truthy, Session.params_truthy. rewrite !truthy_or_.
  destruct (truthy (of_str cmd)), (truthy (of_bytes out)),
    (truthy (of_bytes err)), (truthy (of_int exit)); reflexivity.
Qed.

(** Without truthy shorthand the given commands are kept, and an empty
    or missing list becomes one default [Command]. *)
Lemma Session_init_no_params (commands : option (list Command.t)) (w : World) :
  params_truthy = false →
  Session.__init__ host user port commands cmd out in_ err exit waits w =
    (Ok (Session.mk host user port
           (match default [] commands with
            | [] => [Command.__init__ None None None None None None]
            | cs => cs
            end) None []), w).
Proof.
  intros F. unfold Session.__init__. rewrite params_truthy_eq, F, andb_false_r.
  destruct (default [] commands); reflexivity.
Qed.

End SessionInit.

(** C1 (as amended). Constructing a Session with a non-empty [commands]
    list together with at least one truthy value among the shorthand
    fields [cmd], [out], [err], [exit], [waits] raises [ValueError] at
    construction time; the store is left as it was, so no fake has been
    generated. *)
Theorem Session_init_rejects_commands_with_truthy_shorthand :
  ∀ host user port (cs : list Command.t) cmd out in_ err exit waits (w : World),
    cs ≠ [] →
    Session.params_truthy cmd out err exit waits = true →
    Session.__init__ host user port (Some cs) cmd out in_ err exit waits w =
      (Raise (ValueError
         "You can't give both 'commands' and individual Command parameters!"), w).
Proof.
  intros host user port cs cmd out in_ err exit waits w Hcs Hp.
  unfold Session.__init__. rewrite params_truthy_eq, Hp. simpl.
  destruct cs as [|c cs]; [congruence | reflexivity].
Qed.

Lemma Session_init_rejects_commands_with_cmd_ls :
  [Command.__init__ None None None None None None] ≠ [] ∧
  Session.params_truthy (Some "ls") None None None None = true ∧
  Session.__init__ None None None
    (Some [Command.__init__ None None None None None None])
    (Some "ls") None None None None None empty_world =
    (Raise (ValueError
       "You can't give both 'commands' and individual Command parameters!"),
     empty_world).
Proof.
  split; [discriminate |]. split; [reflexivity |].
  apply Session_init_rejects_commands_with_truthy_shorthand;
    [discriminate | reflexivity].
Defined.

(** C1 (as stated) fails: an explicit [commands] list together with the
    shorthand [exit=0] is accepted, and the shorthand is dropped. *)
Lemma Session_init_accepts_commands_with_exit_zero :
  Session.__init__ None None None
    (Some [Command.__init__ (Some "ls") None None None None None])
    None None None None (Some 0%Z) None empty_world =
    (Ok (Session.mk None None None
           [Command.__init__ (Some "ls") None None None None None] None []),
     empty_world).
Proof. reflexivity. Qed.

(** ** [BytesIO] and the [recv] methods *)

Lemma fits_ssize_t_spec (n : Z) :
  fits_ssize_t n = true ↔ (PY_SSIZE_T_MIN ≤ n ≤ PY_SSIZE_T_MAX)%Z.
Proof. unfold fits_ssize_t. rewrite andb_true_iff, !Z.leb_le. reflexivity. Qed.

Lemma PY_SSIZE_T_MIN_neg : (PY_SSIZE_T_MIN < 0)%Z.
Proof. reflexivity. Qed.

Lemma PY_SSIZE_T_MAX_pos : (0 < PY_SSIZE_T_MAX)%Z.
Proof. reflexivity. Qed.

Lemma fits_ssize_t_nonneg (n : Z) :
  (0 ≤ n ≤ PY_SSIZE_T_MAX)%Z → fits_ssize_t n = true.
Proof. intros H. apply fits_ssize_t_spec. pose proof PY_SSIZE_T_MIN_neg. lia. Qed.

Lemma BytesIO_unread_advance (b : BytesIO.t) (k : nat) :
  BytesIO.unread (BytesIO.mk (BytesIO.buf b) (BytesIO.pos b + k)) =
    drop k (BytesIO.unread b).
Proof. unfold BytesIO.unread. cbn [BytesIO.buf BytesIO.pos]. rewrite drop_drop. reflexivity. Qed.

(** A size that fits and is not negative reads the first [size] unread
    bytes. *)
Lemma BytesIO_read_spec (size : Z) (b : BytesIO.t) :
  (0 ≤ size ≤ PY_SSIZE_T_MAX)%Z →
  BytesIO.read size b =
    (Ok (take (Z.to_nat size) (BytesIO.unread b)),
     BytesIO.mk (BytesIO.buf b)
       (BytesIO.pos b + length (take (Z.to_nat size) (BytesIO.unread b)))).
Proof.
  intros Hsize. unfold BytesIO.read, BytesIO.unread.
  rewrite (fits_ssize_t_nonneg size Hsize).
  destruct (Z.ltb_spec size 0) as [Hlt | _]; [lia | reflexivity].
Qed.

Lemma BytesIO_read_exhausted (size : Z) (b : BytesIO.t) :
  fits_ssize_t size = true →
  BytesIO.unread b = [] →
  (BytesIO.read size b).1 = Ok [] ∧ BytesIO.unread (BytesIO.read size b).2 = [].
Proof.
  unfold BytesIO.read, BytesIO.unread. intros Hfit E. rewrite Hfit, E.
  destruct (size <? 0)%Z; simpl; rewrite ?take_nil; simpl;
    rewrite Nat.add_0_r; auto.
Qed.

(** A negative size is no size: [read(-1)] hands back all that is left. *)
Lemma BytesIO_read_negative (size : Z) (b : BytesIO.t) :
  (PY_SSIZE_T_MIN ≤ size < 0)%Z → (BytesIO.read size b).1 = Ok (BytesIO.unread b).
Proof.
  intros H. unfold BytesIO.read, BytesIO.unread.
  rewrite (proj2 (fits_ssize_t_spec size)) by (pose proof PY_SSIZE_T_MAX_pos; lia).
  destruct (Z.ltb_spec size 0); [reflexivity | lia].
Qed.

(** A size that does not fit a C [ssize_t] raises [OverflowError] and
    reads nothing. *)
Lemma BytesIO_read_overflow (size : Z) (b : BytesIO.t) :
  fits_ssize_t size = false →
  ∃ msg, BytesIO.read size b = (Raise (OverflowError msg), b).
Proof. intros H. unfold BytesIO.read. rewrite H. eexists. reflexivity. Qed.

Lemma take_length_le_Z {A} (n : Z) (l : list A) :
  (0 ≤ n)%Z → (Z.of_nat (length (take (Z.to_nat n) l)) ≤ n)%Z.
Proof. intros H. rewrite length_take. lia. Qed.

(** C7. For a request size [n] with [0 ≤ n ≤ PY_SSIZE_T_MAX], the sizes
    a C [ssize_t] can hold, [recv(n)] and [recv_stderr(n)] return the
    first [n] unread bytes of their buffer, so at most [n] bytes and
    never more than remain; the cursor advances by the number of bytes
    returned and the other attributes are untouched; a request at least
    as large as what remains returns exactly the rest; and once nothing
    is unread the result is empty and stays so. *)
Theorem recv_returns_at_most_the_unread_bytes :
  ∀ (ch : MockChannel.t) (n : Z),
    (0 ≤ n ≤ PY_SSIZE_T_MAX)%Z →
    let out := BytesIO.unread (MockChannel.__stdout ch) in
    let err := BytesIO.unread (MockChannel.__stderr ch) in
    ∃ r e,
      (MockChannel.recv n ch = (Ok r.1, r.2) ∧
       MockChannel.recv_stderr n ch = (Ok e.1, e.2)) ∧
      (r.1 = take (Z.to_nat n) out ∧ e.1 = take (Z.to_nat n) err) ∧
      ((Z.of_nat (length r.1) ≤ n)%Z ∧ (Z.of_nat (length e.1) ≤ n)%Z) ∧
      (length r.1 ≤ length out ∧ length e.1 ≤ length err) ∧
      (BytesIO.pos (MockChannel.__stdout r.2) =
         BytesIO.pos (MockChannel.__stdout ch) + length r.1 ∧
       BytesIO.pos (MockChannel.__stderr e.2) =
         BytesIO.pos (MockChannel.__stderr ch) + length e.1) ∧
      (BytesIO.unread (MockChannel.__stdout r.2) = drop (length r.1) out ∧
       BytesIO.unread (MockChannel.__stderr e.2) = drop (length e.1) err) ∧
      (MockChannel.__stderr r.2 = MockChannel.__stderr ch ∧
       MockChannel.__stdout e.2 = MockChannel.__stdout ch) ∧
      ((length out ≤ Z.to_nat n →
          r.1 = out ∧ BytesIO.unread (MockChannel.__stdout r.2) = []) ∧
       (length err ≤ Z.to_nat n →
          e.1 = err ∧ BytesIO.unread (MockChannel.__stderr e.2) = [])) ∧
      ((out = [] → r.1 = [] ∧ BytesIO.unread (MockChannel.__stdout r.2) = []) ∧
       (err = [] → e.1 = [] ∧ BytesIO.unread (MockChannel.__stderr e.2) = [])).
Proof.
  intros ch n Hn out err.
  exists (take (Z.to_nat n) out,
          MockChannel.mk
            (BytesIO.mk (BytesIO.buf (MockChannel.__stdout ch))
               (BytesIO.pos (MockChannel.__stdout ch) + length (take (Z.to_nat n) out)))
            (MockChannel.__stderr ch) (MockChannel._stdin ch)
            (MockChannel.exec_command ch) (MockChannel.exit_status_ready ch)
            (MockChannel.recv_exit_status ch)),
         (take (Z.to_nat n) err,
          MockChannel.mk (MockChannel.__stdout ch)
            (BytesIO.mk (BytesIO.buf (MockChannel.__stderr ch))
               (BytesIO.pos (MockChannel.__stderr ch) + length (take (Z.to_nat n) err)))
            (MockChannel._stdin ch)
            (MockChannel.exec_command ch) (MockChannel.exit_status_ready ch)
            (MockChannel.recv_exit_status ch)).
  cbn [fst snd MockChannel.__stdout MockChannel.__stderr BytesIO.pos].
  rewrite !BytesIO_unread_advance. fold out err.
  split.
  { unfold MockChannel.recv, MockChannel.recv_stderr.
    rewrite !BytesIO_read_spec by exact Hn. split; reflexivity. }
  rewrite !length_take.
  repeat split; try reflexivity; try lia.
  - apply take_ge. assumption.
  - apply drop_ge. lia.
  - apply take_ge. assumption.
  - apply drop_ge. lia.
  - rewrite H. apply take_nil.
  - rewrite H. apply drop_nil.
  - rewrite H. apply take_nil.
  - rewrite H. apply drop_nil.
Qed.

Lemma recv_two_of_three_bytes :
  (0 ≤ 2 ≤ PY_SSIZE_T_MAX)%Z ∧
  (MockChannel.recv 2
     (MockChannel.__init__ (BytesIO.new [Byte.x61; Byte.x62; Byte.x63])
                           (BytesIO.new []))).1
  = Ok [Byte.x61; Byte.x62].
Proof.
  assert (H : (0 ≤ 2 ≤ PY_SSIZE_T_MAX)%Z)
    by (split; [lia | apply Z.leb_le; reflexivity]).
  split; [exact H |].
  destruct (recv_returns_at_most_the_unread_bytes
              (MockChannel.__init__ (BytesIO.new [Byte.x61; Byte.x62; Byte.x63])
                                    (BytesIO.new [])) 2 H)
    as (r & e & (H1 & _) & (H2 & _) & _).
  rewrite H1, H2. reflexivity.
Defined.

(** ** Repeated calls *)

Section Lens.

Context {S T A : Type} (get : S → T) (set : T → S → S) (f : T → res A * T).
Hypothesis get_set : ∀ t s, get (set t s) = t.
Hypothesis set_set : ∀ t t' s, set t (set t' s) = set t s.
Hypothesis set_get : ∀ s, set (get s) s = s.

(** Calling a method of an attribute [n] times is calling it on the
    attribute and storing the attribute back. *)
Lemma repeat_call_lens (n : nat) (s : S) :
  repeat_call n (λ s, let '(r, t) := f (get s) in (r, set t s)) s =
  let '(r, t) := repeat_call n f (get s) in (r, set t s).
Proof using get_set set_set set_get.
  revert s. induction n as [|n IH]; intros s; simpl.
  - rewrite set_get. reflexivity.
  - destruct (f (get s)) as [[x|e] t] eqn:E; [| reflexivity].
    rewrite IH, get_set.
    destruct (repeat_call n f t) as [[xs|e] t']; rewrite set_set; reflexivity.
Qed.

End Lens.

(** The store with channel [r] replaced. *)
Lemma set_same_channel (w : World) (r : chan_ref) (ch : MockChannel.t) :
  channels w !! r = Some ch →
  mkWorld (SSHClient w) (<[r := ch]> (channels w)) (clients w) (trace w) = w.
Proof. intros H. rewrite list_insert_id by exact H. destruct w; reflexivity. Qed.

Lemma set_same_client (w : World) (r : client_ref) (c : MockClient.t) :
  clients w !! r = Some c →
  mkWorld (SSHClient w) (channels w) (<[r := c]> (clients w)) (trace w) = w.
Proof. intros H. rewrite list_insert_id by exact H. destruct w; reflexivity. Qed.

Lemma times_on_channel {A} (f : MockChannel.t → res A * MockChannel.t)
    (n : nat) (r : chan_ref) (ch : MockChannel.t) (w : World) :
  channels w !! r = Some ch →
  Remote.times n (on_channel r f) w =
    ((repeat_call n f ch).1,
     mkWorld (SSHClient w) (<[r := (repeat_call n f ch).2]> (channels w))
             (clients w) (trace w)).
Proof.
  revert ch w. induction n as [|n IH]; intros ch w Hr; simpl.
  - unfold ret_. rewrite set_same_channel by exact Hr. reflexivity.
  - unfold bind at 1. unfold on_channel at 1. rewrite Hr.
    destruct (f ch) as [[x|e] ch'] eqn:E; [| reflexivity].
    unfold bind at 1.
    rewrite (IH ch') by (apply list_lookup_insert_eq; eapply lookup_lt_Some, Hr).
    simpl. rewrite list_insert_insert_eq.
    destruct (repeat_call n f ch') as [[xs|e] ch'']; reflexivity.
Qed.

Lemma times_on_client {A} (f : MockClient.t → res A * MockClient.t)
    (n : nat) (r : client_ref) (c : MockClient.t) (w : World) :
  clients w !! r = Some c →
  Remote.times n (on_client r f) w =
    ((repeat_call n f c).1,
     mkWorld (SSHClient w) (channels w)
             (<[r := (repeat_call n f c).2]> (clients w)) (trace w)).
Proof.
  revert c w. induction n as [|n IH]; intros c w Hr; simpl.
  - unfold ret_. rewrite set_same_client by exact Hr. reflexivity.
  - unfold bind at 1. unfold on_client at 1. rewrite Hr.
    destruct (f c) as [[x|e] c'] eqn:E; [| reflexivity].
    unfold bind at 1.
    rewrite (IH c') by (apply list_lookup_insert_eq; eapply lookup_lt_Some, Hr).
    simpl. rewrite list_insert_insert_eq.
    destruct (repeat_call n f c') as [[xs|e] c'']; reflexivity.
Qed.

(** *** Mocks with an iterator side effect or a return value *)

Lemma mock_calls_side_effect {R} (c : call) (n : nat) (m : Mock R)
    (it it' : itertools.iter R) (xs : list R) :
  side_effect m = Some it →
  itertools.take_next n it = (xs, it') →
  length xs = n →
  repeat_call n (mock.__call__ c) m =
    (Ok (Value <$> xs),
     mkMock (return_value m) (Some it') (call_args_list m ++ replicate n c)).
Proof.
  revert m it xs. induction n as [|n IH]; intros m it xs Hm Ht Hl; simpl in *.
  - destruct xs; [| discriminate]. injection Ht as <-.
    rewrite app_nil_r, <- Hm. destruct m; reflexivity.
  - unfold mock.__call__ at 1. rewrite Hm.
    destruct (itertools.next it) as [[x it1]|] eqn:E.
    + destruct (itertools.take_next n it1) as [xs1 it2] eqn:E1.
      injection Ht as <- <-. simpl in Hl.
      erewrite IH; [| reflexivity | exact E1 | lia]. simpl.
      rewrite <- app_assoc. reflexivity.
    + injection Ht as <- <-. discriminate.
Qed.

Lemma mock_calls_return_value {R} (c : call) (n : nat) (m : Mock R) :
  side_effect m = None →
  repeat_call n (mock.__call__ c) m =
    (Ok (replicate n (return_value m)),
     mkMock (return_value m) None (call_args_list m ++ replicate n c)).
Proof.
  revert m. induction n as [|n IH]; intros m Hm; simpl.
  - rewrite app_nil_r, <- Hm. destruct m; reflexivity.
  - unfold mock.__call__ at 1. rewrite Hm.
    rewrite IH by reflexivity. simpl. rewrite <- app_assoc. reflexivity.
Qed.

(** *** The iterators of [generate_mocks] *)

Lemma take_next_repeat_forever {A} (x : A) (n : nat) :
  itertools.take_next n (itertools.chain [itertools.repeat x None]) =
    (replicate n x, itertools.chain [itertools.repeat x None]).
Proof. induction n as [|n IH]; simpl; [| rewrite IH]; reflexivity. Qed.

(** [chain(repeat(False, k), repeat(True))] yields [False] [k] times (no
    time for a negative [k]) and [True] ever after. *)
Lemma take_next_readies (k : Z) (n : nat) :
  ∃ it', itertools.take_next n
           (itertools.chain [itertools.repeat false (Some k); itertools.repeat true None]) =
         (replicate (n `min` Z.to_nat k) false ++ replicate (n - Z.to_nat k) true, it').
Proof.
  revert k. induction n as [|n IH]; intros k.
  - eexists. reflexivity.
  - cbn [itertools.take_next itertools.next].
    destruct (Z.ltb_spec 0 k) as [Hk | Hk].
    + destruct (IH (k - 1)%Z) as [it' E]. rewrite E. eexists.
      replace (Z.to_nat k) with (S (Z.to_nat (k - 1))) by lia.
      reflexivity.
    + rewrite take_next_repeat_forever. eexists.
      replace (Z.to_nat k) with 0 by lia.
      rewrite Nat.min_0_r, Nat.sub_0_r. reflexivity.
Qed.

Lemma take_next_of_list {A} (l : list A) :
  itertools.take_next (length l) (itertools.of_list l) = (l, itertools.of_list []).
Proof. induction l as [|x l IH]; simpl; [| rewrite IH]; reflexivity. Qed.

(** *** Repeated calls of the mocked attributes *)

Lemma repeat_call_exit_status_ready (c : call) (n : nat) (ch : MockChannel.t) :
  repeat_call n (MockChannel.call_exit_status_ready c) ch =
    let '(r, m) := repeat_call n (mock.__call__ c) (MockChannel.exit_status_ready ch) in
    (r, MockChannel.mk (MockChannel.__stdout ch) (MockChannel.__stderr ch)
          (MockChannel._stdin ch) (MockChannel.exec_command ch) m
          (MockChannel.recv_exit_status ch)).
Proof.
  apply (repeat_call_lens MockChannel.exit_status_ready
           (λ m s, MockChannel.mk (MockChannel.__stdout s) (MockChannel.__stderr s)
                     (MockChannel._stdin s) (MockChannel.exec_command s) m
                     (MockChannel.recv_exit_status s))
           (mock.__call__ c)); try reflexivity.
  intros []; reflexivity.
Qed.

Lemma repeat_call_recv_exit_status (c : call) (n : nat) (ch : MockChannel.t) :
  repeat_call n (MockChannel.call_recv_exit_status c) ch =
    let '(r, m) := repeat_call n (mock.__call__ c) (MockChannel.recv_exit_status ch) in
    (r, MockChannel.mk (MockChannel.__stdout ch) (MockChannel.__stderr ch)
          (MockChannel._stdin ch) (MockChannel.exec_command ch)
          (MockChannel.exit_status_ready ch) m).
Proof.
  apply (repeat_call_lens MockChannel.recv_exit_status
           (λ m s, MockChannel.mk (MockChannel.__stdout s) (MockChannel.__stderr s)
                     (MockChannel._stdin s) (MockChannel.exec_command s)
                     (MockChannel.exit_status_ready s) m)
           (mock.__call__ c)); try reflexivity.
  intros []; reflexivity.
Qed.

Lemma repeat_call_open_session (a : call) (n : nat) (c : MockClient.t) :
  repeat_call n (λ c, let '(r, m) := mock.__call__ a (MockClient.open_session c) in
                      (r, MockClient.mk (MockClient.get_transport c) (MockClient.connect c)
                            (MockClient.active c) m)) c =
    let '(r, m) := repeat_call n (mock.__call__ a) (MockClient.open_session c) in
    (r, MockClient.mk (MockClient.get_transport c) (MockClient.connect c)
          (MockClient.active c) m).
Proof.
  apply (repeat_call_lens MockClient.open_session
           (λ m s, MockClient.mk (MockClient.get_transport s) (MockClient.connect s)
                     (MockClient.active s) m)
           (mock.__call__ a)); try reflexivity.
  intros []; reflexivity.
Qed.

(** *** The channel of a command *)

Lemma new_channel_eq (c : Command.t) :
  Session.new_channel c =
    if fits_ssize_t (Command.waits c) then Ok (Session.channel_of c)
    else Raise (OverflowError "Python int too large to convert to C ssize_t").
Proof.
  unfold Session.new_channel, itertools.repeat_.
  destruct (fits_ssize_t (Command.waits c)); reflexivity.
Qed.

Lemma new_channel_fits (c : Command.t) :
  fits_ssize_t (Command.waits c) = true →
  Session.new_channel c = Ok (Session.channel_of c).
Proof. intros H. rewrite new_channel_eq, H. reflexivity. Qed.

Lemma new_channel_ok_inv (c : Command.t) (ch : MockChannel.t) :
  Session.new_channel c = Ok ch →
  fits_ssize_t (Command.waits c) = true ∧ ch = Session.channel_of c.
Proof.
  rewrite new_channel_eq. destruct (fits_ssize_t (Command.waits c)); [| discriminate].
  intros [= <-]. split; reflexivity.
Qed.

Lemma new_channel_overflow (c : Command.t) :
  fits_ssize_t (Command.waits c) = false →
  ∃ msg, Session.new_channel c = Raise (OverflowError msg).
Proof. intros H. rewrite new_channel_eq, H. eexists. reflexivity. Qed.

(** C2. For a Command with [waits = k], where [k] fits a C [ssize_t]
    (beyond that no channel can be generated), the loop of
    [generate_mocks] makes a channel on which [n] successive calls of
    [exit_status_ready()] return [False] for the first [k] of them and
    [True] for all later ones; and after these [n] polls, whatever [n]
    is, every one of [j] calls of [recv_exit_status()] returns the
    Command's [exit]. *)
Theorem exit_status_ready_false_for_waits_polls_then_true :
  ∀ (c : Command.t) (k : nat),
    Command.waits c = Z.of_nat k →
    (Z.of_nat k ≤ PY_SSIZE_T_MAX)%Z →
    ∃ ch,
      Session.new_channel c = Ok ch ∧
      ∀ (w : World) (r : chan_ref) (n j : nat),
        channels w !! r = Some ch →
        ∃ w' w'',
          Remote.times n (Remote.exit_status_ready r) w =
            (Ok (replicate (n `min` k) (Value false) ++ replicate (n - k) (Value true)),
             w') ∧
          Remote.times j (Remote.recv_exit_status r) w' =
            (Ok (replicate j (Value (Command.exit c))), w'').
Proof.
  intros c k Hk Hmax. exists (Session.channel_of c). split.
  { apply new_channel_fits, fits_ssize_t_nonneg. lia. }
  intros w r n j Hr.
  destruct (take_next_readies (Command.waits c) n) as [it' Hit].
  replace (Z.to_nat (Command.waits c)) with k in Hit by lia.
  unfold Remote.exit_status_ready, Remote.recv_exit_status.
  rewrite (times_on_channel _ n r _ w Hr), repeat_call_exit_status_ready.
  erewrite mock_calls_side_effect; [| reflexivity | exact Hit |].
  2:{ rewrite length_app, !length_replicate. lia. }
  cbn [fst snd]. do 2 eexists. split.
  - rewrite fmap_app, !fmap_replicate. reflexivity.
  - erewrite times_on_channel.
    2:{ cbn [channels]. apply list_lookup_insert_eq. eapply lookup_lt_Some, Hr. }
    rewrite repeat_call_recv_exit_status.
    rewrite mock_calls_return_value by reflexivity.
    reflexivity.
Qed.

Lemma exit_status_ready_two_waits_four_polls :
  ∃ ch w' w'',
    Session.new_channel (Command.__init__ None None None None (Some 7%Z) (Some 2%Z))
      = Ok ch ∧
    Remote.times 4 (Remote.exit_status_ready 0) (mkWorld Real [ch] [] []) =
      (Ok [Value false; Value false; Value true; Value true], w') ∧
    Remote.times 3 (Remote.recv_exit_status 0) w' =
      (Ok [Value 7%Z; Value 7%Z; Value 7%Z], w'').
Proof.
  destruct (exit_status_ready_false_for_waits_polls_then_true
              (Command.__init__ None None None None (Some 7%Z) (Some 2%Z)) 2
              eq_refl ltac:(apply Z.leb_le; reflexivity))
    as (ch & Hch & Hpolls).
  destruct (Hpolls (mkWorld Real [ch] [] []) 0 4 3 eq_refl) as (w' & w'' & H1 & H2).
  exists ch, w', w''. split; [exact Hch |]. split; [exact H1 | exact H2].
Defined.

(** With a negative [waits] no poll returns [False]. *)
Lemma exit_status_ready_negative_waits (c : Command.t) (ch : MockChannel.t) (w : World)
    (r : chan_ref) (n : nat) :
  (Command.waits c < 0)%Z →
  Session.new_channel c = Ok ch →
  channels w !! r = Some ch →
  (Remote.times n (Remote.exit_status_ready r) w).1 = Ok (replicate n (Value true)).
Proof.
  intros Hk Hch Hr. apply new_channel_ok_inv in Hch as [_ ->].
  destruct (take_next_readies (Command.waits c) n) as [it' Hit].
  unfold Remote.exit_status_ready.
  rewrite (times_on_channel _ n r _ w Hr), repeat_call_exit_status_ready.
  erewrite mock_calls_side_effect; [| reflexivity | exact Hit |].
  2:{ rewrite length_app, !length_replicate. lia. }
  cbn [fst snd]. replace (Z.to_nat (Command.waits c)) with 0 by lia.
  rewrite Nat.min_0_r, Nat.sub_0_r, fmap_app, !fmap_replicate. reflexivity.
Qed.

(** ** [generate_mocks] *)

Lemma for_each_alloc_channel (cs : list Command.t) (w : World) :
  Forall (λ c, fits_ssize_t (Command.waits c) = true) cs →
  for_each (λ command, let* channel := lift (Session.new_channel command) in
                       alloc_channel channel) cs w =
    (Ok (seq (length (channels w)) (length cs)),
     mkWorld (SSHClient w) (channels w ++ (Session.channel_of <$> cs))
             (clients w) (trace w)).
Proof.
  revert w. induction cs as [|c cs IH]; intros w Hfit; simpl.
  - unfold ret_. rewrite app_nil_r. destruct w; reflexivity.
  - apply Forall_cons in Hfit as [Hc Hcs].
    unfold bind at 1. unfold bind at 1. unfold lift at 1.
    rewrite (new_channel_fits c Hc).
    unfold alloc_channel at 1. unfold bind at 1.
    rewrite IH by exact Hcs. cbn [channels SSHClient clients trace]. unfold ret_.
    rewrite length_app, <- app_assoc. simpl.
    rewrite Nat.add_1_r. reflexivity.
Qed.

(** The loop stops at the first command whose [waits] does not fit. *)
Lemma for_each_alloc_channel_overflow (pre post : list Command.t) (c : Command.t)
    (w : World) :
  Forall (λ c, fits_ssize_t (Command.waits c) = true) pre →
  fits_ssize_t (Command.waits c) = false →
  ∃ msg,
    for_each (λ command, let* channel := lift (Session.new_channel command) in
                         alloc_channel channel) (pre ++ c :: post) w =
      (Raise (OverflowError msg),
       mkWorld (SSHClient w) (channels w ++ (Session.channel_of <$> pre))
               (clients w) (trace w)).
Proof.
  revert w. induction pre as [|p pre IH]; intros w Hfit Hc; simpl.
  - destruct (new_channel_overflow c Hc) as [msg E]. exists msg.
    unfold bind at 1. unfold bind at 1. unfold lift at 1. rewrite E.
    rewrite app_nil_r. destruct w; reflexivity.
  - apply Forall_cons in Hfit as [Hp Hpre].
    destruct (IH (mkWorld (SSHClient w) (channels w ++ [Session.channel_of p])
                    (clients w) (trace w)) Hpre Hc) as [msg E].
    exists msg.
    unfold bind at 1. unfold bind at 1. unfold lift at 1.
    rewrite (new_channel_fits p Hp).
    unfold alloc_channel at 1. unfold bind at 1.
    rewrite E. cbn [channels SSHClient clients trace].
    rewrite <- app_assoc. reflexivity.
Qed.

(** What [generate_mocks] does to the session and to the store: one new
    client, one new channel per command, all appended. *)
Lemma generate_mocks_eq (s : Session.t) (w : World) :
  Session.waits_fit s →
  Session.generate_mocks s w =
    (Ok (Session.mk (Session.host s) (Session.user s) (Session.port s)
           (Session.commands s) (Some (length (clients w)))
           (seq (length (channels w)) (length (Session.commands s)))),
     mkWorld (SSHClient w)
       (channels w ++ (Session.channel_of <$> Session.commands s))
       (clients w ++
          [Session.new_client (seq (length (channels w)) (length (Session.commands s)))])
       (trace w ++ [ev_generate_mocks (length (clients w))])).
Proof.
  intros Hfit. unfold Session.generate_mocks.
  unfold bind at 1. unfold alloc_client at 1.
  unfold bind at 1. unfold log at 1. cbn [channels SSHClient clients trace].
  unfold bind at 1. rewrite for_each_alloc_channel by exact Hfit.
  cbn [channels SSHClient clients trace].
  unfold bind at 1. unfold on_client. cbn [channels SSHClient clients trace].
  rewrite list_lookup_middle by reflexivity.
  unfold ret_. cbn [channels SSHClient clients trace].
  rewrite insert_app_r_alt by lia. rewrite Nat.sub_diag. reflexivity.
Qed.

(** [generate_mocks] raises [OverflowError] at the first command whose
    [waits] does not fit: the session keeps no client and no channel. *)
Lemma generate_mocks_overflow (s : Session.t) (w : World) :
  ¬ Session.waits_fit s →
  ∃ msg w',
    Session.generate_mocks s w = (Raise (OverflowError msg), w') ∧
    SSHClient w' = SSHClient w ∧
    channels w `prefix_of` channels w' ∧
    clients w `prefix_of` clients w'.
Proof.
  intros Hno. unfold Session.waits_fit in Hno.
  apply not_Forall_Exists in Hno; [| intros c; apply _].
  assert (Hsplit : ∃ pre c post,
            Session.commands s = pre ++ c :: post ∧
            Forall (λ c, fits_ssize_t (Command.waits c) = true) pre ∧
            fits_ssize_t (Command.waits c) = false).
  { clear w. induction (Session.commands s) as [|c cs IH]; [inversion Hno |].
    destruct (fits_ssize_t (Command.waits c)) eqn:Ec.
    - inversion Hno as [? ? H | ? ? H]; subst; [congruence |].
      destruct (IH H) as (pre & c' & post & -> & Hpre & Hc').
      exists (c :: pre), c', post. split; [reflexivity |].
      split; [constructor; assumption | exact Hc'].
    - exists [], c, cs. split; [reflexivity |]. split; [constructor | exact Ec]. }
  destruct Hsplit as (pre & c & post & Hcs & Hpre & Hc).
  unfold Session.generate_mocks. rewrite Hcs.
  unfold bind at 1. unfold alloc_client at 1.
  unfold bind at 1. unfold log at 1. cbn [channels SSHClient clients trace].
  unfold bind at 1.
  destruct (for_each_alloc_channel_overflow pre post c
              (mkWorld (SSHClient w) (channels w)
                 (clients w ++
                    [MockClient.mk mock.new mock.new
                       (mock.set_side_effect (itertools.repeat true None) mock.new)
                       mock.new])
                 (trace w ++ [ev_generate_mocks (length (clients w))])) Hpre Hc)
    as [msg E].
  rewrite E. cbn [channels SSHClient clients trace].
  eexists msg, _. split; [reflexivity |]. cbn [channels SSHClient clients trace].
  split; [reflexivity |]. split; apply prefix_app_r; reflexivity.
Qed.

(** ** Computations that only observe the store *)

Lemma observes_ret {A} (a : A) : observes (ret_ a).
Proof. split; intros; reflexivity. Qed.

Lemma observes_raise {A} (e : exn) : observes (@raise A e).
Proof. split; intros; reflexivity. Qed.

Lemma observes_lift {A} (r : res A) : observes (lift r).
Proof. split; intros; reflexivity. Qed.

Lemma observes_bind {A B} (m : M A) (k : A → M B) :
  observes m → (∀ a, observes (k a)) → observes (bind m k).
Proof.
  intros [Hm1 Hm2] Hk. split.
  - intros w. unfold bind. specialize (Hm1 w).
    destruct (m w) as [[a|e] w']; simpl in *; subst; [apply Hk | reflexivity].
  - intros w1 w2 Hc Hl. unfold bind.
    pose proof (Hm1 w1) as E1. pose proof (Hm1 w2) as E2.
    pose proof (Hm2 w1 w2 Hc Hl) as E.
    destruct (m w1) as [[a1|e1] w1'], (m w2) as [[a2|e2] w2'];
      simpl in *; subst; try congruence.
    injection E as ->. apply Hk; assumption.
Qed.

Lemma observes_read_channel (r : chan_ref) : observes (read_channel r).
Proof.
  split.
  - intros w. unfold read_channel, on_channel.
    destruct (channels w !! r) eqn:E; [| reflexivity].
    simpl. apply set_same_channel, E.
  - intros w1 w2 Hc _. unfold read_channel, on_channel. rewrite Hc.
    destruct (channels w2 !! r); reflexivity.
Qed.

Lemma observes_read_client (r : client_ref) : observes (read_client r).
Proof.
  split.
  - intros w. unfold read_client, on_client.
    destruct (clients w !! r) eqn:E; [| reflexivity].
    simpl. apply set_same_client, E.
  - intros w1 w2 _ Hl. unfold read_client, on_client. rewrite Hl.
    destruct (clients w2 !! r); reflexivity.
Qed.

Lemma observes_for_each {A B} (f : A → M B) (l : list A) :
  (∀ x, observes (f x)) → observes (for_each f l).
Proof.
  intros Hf. induction l as [|x l IH]; simpl.
  - apply observes_ret.
  - apply observes_bind; [apply Hf |]. intros y.
    apply observes_bind; [apply IH |]. intros ys. apply observes_ret.
Qed.

Lemma observes_get_client (s : Session.t) : observes (Session.get_client s).
Proof.
  unfold Session.get_client.
  destruct (Session.client s); [apply observes_ret | apply observes_raise].
Qed.

Lemma observes_check_pair (p : chan_ref * Command.t) : observes (Session.check_pair p).
Proof.
  destruct p as [r c]. unfold Session.check_pair.
  apply observes_bind; [apply observes_read_channel |]. intros ch.
  apply observes_bind; [apply observes_lift |]. intros _.
  apply observes_bind; [| intros _; apply observes_ret].
  destruct (truthy _); [apply observes_lift | apply observes_ret].
Qed.

Create HintDb observes.
#[local] Hint Resolve observes_ret observes_raise observes_lift observes_read_channel
  observes_read_client observes_get_client observes_check_pair : observes.

(** A computation that observes the store returns the store it got. *)
Lemma observes_run {A} (m : M A) (w : World) : observes m → m w = ((m w).1, w).
Proof. intros [H _]. specialize (H w). destruct (m w); simpl in *; congruence. Qed.

(** ** [sanity_check] *)

(** The checks of [sanity_check] once [self.client] is known to be the
    client [c]: the two call assertions, the pairs, the count of opened
    sessions. *)
Lemma sanity_check_with_client (s : Session.t) (w : World) (cl : client_ref) (c : MockClient.t) :
  Session.client s = Some cl →
  clients w !! cl = Some c →
  Session.sanity_check s w =
    (match mock.assert_called_once_with (Expected [] ∅) (MockClient.get_transport c) with
     | Raise e => Raise e
     | Ok _ =>
         match mock.assert_called_once_with (Session.connect_expected s)
                 (MockClient.connect c) with
         | Raise e => Raise e
         | Ok _ =>
             match (for_each Session.check_pair
                      (zip (Session.channels s) (Session.commands s)) w).1 with
             | Raise e => Raise e
             | Ok session_opens =>
                 eq_ (mock.call_args_list (MockClient.open_session c)) session_opens
             end
         end
     end,
     logged [ev_sanity_check (Some cl)] w).
Proof.
  intros Hcl Hc. unfold Session.sanity_check.
  unfold bind at 1. unfold log at 1. rewrite Hcl.
  fold (logged [ev_sanity_check (Some cl)] w).
  set (w1 := logged [ev_sanity_check (Some cl)] w).
  assert (Hc1 : clients w1 !! cl = Some c) by exact Hc.
  unfold bind at 1. unfold Session.get_client at 1. rewrite Hcl. unfold ret_ at 1.
  unfold bind at 1. rewrite (observes_run (read_client cl) w1) by auto with observes.
  unfold read_client at 1, on_client at 1. rewrite Hc1. cbn [fst].
  unfold bind at 1, lift at 1.
  destruct (assert_called_once_with _ (MockClient.get_transport c)) as [[]|e];
    [| reflexivity].
  unfold bind at 1, lift at 1.
  destruct (assert_called_once_with _ (MockClient.connect c)) as [[]|e];
    [| reflexivity].
  unfold bind at 1.
  pose proof (observes_for_each Session.check_pair
                (zip (Session.channels s) (Session.commands s))
                observes_check_pair) as Hobs.
  rewrite (observes_run _ w1 Hobs).
  destruct Hobs as [_ Hobs]. rewrite (Hobs w1 w) by reflexivity.
  destruct ((for_each Session.check_pair _ w).1) as [opens|e]; [| reflexivity].
  unfold bind at 1. rewrite (observes_run (read_client cl) w1) by auto with observes.
  unfold read_client at 1, on_client at 1. rewrite Hc1. cbn [fst].
  reflexivity.
Qed.

(** The verdict of [sanity_check] depends on the mocked objects alone,
    and all it changes is the trace. *)
Lemma sanity_check_frame (s : Session.t) (w w0 : World) :
  channels w = channels w0 →
  clients w = clients w0 →
  Session.sanity_check s w =
    ((Session.sanity_check s w0).1, logged [ev_sanity_check (Session.client s)] w).
Proof.
  intros Hc Hl.
  destruct (Session.client s) as [cl|] eqn:Ecl.
  - destruct (clients w !! cl) as [c|] eqn:Ec.
    + rewrite (sanity_check_with_client s w cl c Ecl Ec).
      rewrite Hl in Ec. rewrite (sanity_check_with_client s w0 cl c Ecl Ec).
      cbn [fst].
      destruct (observes_for_each Session.check_pair
                  (zip (Session.channels s) (Session.commands s))
                  observes_check_pair) as [_ Hobs].
      rewrite (Hobs w w0 Hc Hl). reflexivity.
    + unfold Session.sanity_check, bind, log, Session.get_client, ret_,
        read_client, on_client. rewrite Ecl. cbn [clients].
      rewrite <- Hl, Ec. reflexivity.
  - unfold Session.sanity_check, bind, log, Session.get_client, raise.
    rewrite Ecl. reflexivity.
Qed.

(** ** Matching recorded calls *)

Lemma matches_or_ANY (x a : val) :
  matches (or_ANY x) a = true ↔ (truthy x = true → a = x).
Proof.
  unfold or_ANY. destruct (truthy x); simpl.
  - rewrite bool_decide_eq_true. split; [intros -> _; reflexivity | intros H; symmetry; auto].
  - split; [discriminate | reflexivity].
Qed.

Lemma kwargs_match_empty (kw : gmap string val) :
  kwargs_match ∅ kw = true ↔ kw = ∅.
Proof.
  unfold kwargs_match. rewrite bool_decide_eq_true. split.
  - intros H. apply map_eq. intros i. specialize (H i).
    rewrite !lookup_empty in *. destruct (kw !! i); [contradiction | reflexivity].
  - intros -> i. rewrite !lookup_empty. exact I.
Qed.

Lemma args_match_nil (vs : list val) : args_match [] vs = true ↔ vs = [].
Proof. destruct vs; simpl; split; congruence. Qed.

Lemma args_match_one (e : matcher) (vs : list val) :
  args_match [e] vs = true ↔ ∃ a, vs = [a] ∧ matches e a = true.
Proof.
  destruct vs as [|a [|b vs]]; simpl.
  - split; [discriminate | intros (a & H & _); discriminate].
  - rewrite andb_true_r. split; [eauto | intros (b & [= ->] & H); exact H].
  - rewrite andb_false_r. split; [discriminate | intros (a' & H & _); discriminate].
Qed.

(** [call()] is matched by a call without arguments only. *)
Lemma call_matches_no_arguments (c : call) :
  call_matches (Expected [] ∅) c = true ↔ c = call_.
Proof.
  unfold call_matches. cbn [e_args e_kwargs].
  rewrite andb_true_iff, args_match_nil, kwargs_match_empty.
  destruct c as [a k]; simpl. split; [intros [-> ->]; reflexivity | intros [= -> ->]; auto].
Qed.

(** [call(command.cmd or ANY)] is matched by a call with one positional
    argument, which is the command text when that text is truthy. *)
Lemma call_matches_exec_expected (command : Command.t) (c : call) :
  call_matches (Session.exec_expected command) c = true ↔
  ∃ a, c = Call [a] ∅ ∧
       (truthy (of_str (Command.cmd command)) = true → a = of_str (Command.cmd command)).
Proof.
  unfold call_matches, Session.exec_expected. cbn [e_args e_kwargs].
  rewrite andb_true_iff, args_match_one, kwargs_match_empty.
  destruct c as [vs k]; simpl. split.
  - intros [(a & -> & H) ->]. exists a. split; [reflexivity | apply matches_or_ANY, H].
  - intros (a & [= -> ->] & H). split; [| reflexivity].
    exists a. split; [reflexivity | apply matches_or_ANY, H].
Qed.

(** The keyword arguments [connect] is expected with are matched by
    exactly the three keywords, each free when the session's value is
    falsy. *)
Lemma kwargs_match_connect_expected (s : Session.t) (kw : gmap string val) :
  kwargs_match (e_kwargs (Session.connect_expected s)) kw = true ↔
  ∃ u h p,
    kw = <["username" := u]> (<["hostname" := h]> (<["port" := p]> ∅)) ∧
    (truthy (of_str (Session.user s)) = true → u = of_str (Session.user s)) ∧
    (truthy (of_str (Session.host s)) = true → h = of_str (Session.host s)) ∧
    (truthy (of_int (Session.port s)) = true → p = of_int (Session.port s)).
Proof.
  unfold kwargs_match, Session.connect_expected. cbn [e_kwargs].
  rewrite bool_decide_eq_true. split.
  - intros H.
    pose proof (H "username") as Hu. pose proof (H "hostname") as Hh.
    pose proof (H "port") as Hp.
    rewrite lookup_insert_eq in Hu.
    rewrite lookup_insert_ne, lookup_insert_eq in Hh by discriminate.
    rewrite !lookup_insert_ne, lookup_insert_eq in Hp by discriminate.
    destruct (kw !! "username") as [u|] eqn:Eu; [| contradiction].
    destruct (kw !! "hostname") as [h|] eqn:Eh; [| contradiction].
    destruct (kw !! "port") as [p|] eqn:Ep; [| contradiction].
    simpl in Hu, Hh, Hp.
    exists u, h, p. rewrite <- !matches_or_ANY. split; [| auto].
    apply map_eq. intros i. specialize (H i).
    destruct (decide (i = "username")) as [-> | Nu];
      [rewrite lookup_insert_eq; exact Eu |].
    destruct (decide (i = "hostname")) as [-> | Nh];
      [rewrite lookup_insert_ne, lookup_insert_eq by discriminate; exact Eh |].
    destruct (decide (i = "port")) as [-> | Np];
      [rewrite !lookup_insert_ne, lookup_insert_eq by discriminate; exact Ep |].
    rewrite !lookup_insert_ne, lookup_empty in H by (intros E; auto).
    rewrite !lookup_insert_ne, lookup_empty by (intros E; auto).
    destruct (kw !! i); [contradiction | reflexivity].
  - intros (u & h & p & -> & Hu & Hh & Hp) i.
    apply matches_or_ANY in Hu, Hh, Hp.
    destruct (decide (i = "username")) as [-> | Nu];
      [rewrite !lookup_insert_eq; exact Hu |].
    destruct (decide (i = "hostname")) as [-> | Nh];
      [rewrite !(lookup_insert_ne _ "username"), !lookup_insert_eq by discriminate;
       exact Hh |].
    destruct (decide (i = "port")) as [-> | Np];
      [rewrite !(lookup_insert_ne _ "username"), !(lookup_insert_ne _ "hostname"),
         !lookup_insert_eq by discriminate; exact Hp |].
    rewrite !lookup_insert_ne, !lookup_empty by (intros E; auto). exact I.
Qed.

Lemma truthy_of_str (o : option string) (a : val) :
  (truthy (of_str o) = true → a = of_str o) ↔
  (∀ text, o = Some text → text ≠ EmptyString → a = Str text).
Proof.
  destruct o as [t|]; simpl.
  - destruct (decide (t = EmptyString)) as [-> | N].
    + simpl. split; [intros _ text [= <-] N; congruence | discriminate].
    + rewrite bool_decide_eq_false_2 by exact N. simpl.
      split; [intros H text [= <-] _; auto | intros H _; eauto].
  - split; [discriminate | discriminate].
Qed.

Lemma truthy_of_int (o : option Z) (a : val) :
  (truthy (of_int o) = true → a = of_int o) ↔
  (∀ n, o = Some n → n ≠ 0%Z → a = Int n).
Proof.
  destruct o as [n|]; simpl.
  - destruct (Z.eqb_spec n 0) as [-> | N]; simpl.
    + split; [intros _ m [= <-] N; congruence | discriminate].
    + split; [intros H m [= <-] _; auto | intros H _; eauto].
  - split; [discriminate | discriminate].
Qed.

Lemma truthy_of_bytes (o : option bytes) :
  truthy (of_bytes o) = true ↔ ∃ data, o = Some data ∧ data ≠ [].
Proof.
  destruct o as [d|]; simpl.
  - destruct d as [|b d]; simpl.
    + split; [discriminate | intros (d & [= <-] & N); congruence].
    + split; [intros _; eexists; split; [reflexivity | discriminate] | reflexivity].
  - split; [discriminate | intros (d & H & _); discriminate].
Qed.

(** ** Assertions of [mock] *)

Lemma assert_called_with_ok {R} (e : expected) (m : Mock R) :
  mock.assert_called_with e m = Ok tt ↔
  ∃ c, mock.call_args m = Some c ∧ call_matches e c = true.
Proof.
  unfold mock.assert_called_with. destruct (call_args m) as [c|].
  - destruct (call_matches e c) eqn:E.
    + split; [eauto | reflexivity].
    + split; [discriminate | intros (c' & [= <-] & H); congruence].
  - split; [discriminate | intros (c' & H & _); discriminate].
Qed.

Lemma assert_called_with_cases {R} (e : expected) (m : Mock R) :
  mock.assert_called_with e m = Ok tt ∨
  ∃ msg, mock.assert_called_with e m = Raise (AssertionError msg).
Proof.
  unfold mock.assert_called_with.
  destruct (call_args m) as [c|]; [destruct (call_matches e c) |]; eauto.
Qed.

Lemma last_singleton_length {A} (l : list A) (x : A) :
  length l = 1 → last l = Some x → l = [x].
Proof. destruct l as [|y [|z l]]; simpl; intros; simplify_eq; reflexivity. Qed.

Lemma assert_called_once_with_ok {R} (e : expected) (m : Mock R) :
  mock.assert_called_once_with e m = Ok tt ↔
  ∃ c, mock.call_args_list m = [c] ∧ call_matches e c = true.
Proof.
  unfold mock.assert_called_once_with, mock.call_count.
  destruct (decide (length (call_args_list m) = 1)) as [L | L].
  - rewrite bool_decide_eq_true_2 by exact L. rewrite assert_called_with_ok.
    unfold mock.call_args. split.
    + intros (c & H & Hm). exists c. split; [apply last_singleton_length; auto | exact Hm].
    + intros (c & H & Hm). exists c. rewrite H. auto.
  - rewrite bool_decide_eq_false_2 by exact L.
    split; [discriminate | intros (c & H & _); rewrite H in L; simpl in L; congruence].
Qed.

Lemma assert_called_once_with_cases {R} (e : expected) (m : Mock R) :
  mock.assert_called_once_with e m = Ok tt ∨
  ∃ msg, mock.assert_called_once_with e m = Raise (AssertionError msg).
Proof.
  unfold mock.assert_called_once_with.
  destruct (bool_decide _); [apply assert_called_with_cases | eauto].
Qed.

Lemma eq__ok {A} `{EqDecision A} (a b : A) : eq_ a b = Ok tt ↔ a = b.
Proof.
  unfold eq_. destruct (decide (a = b)) as [E | E].
  - rewrite bool_decide_eq_true_2 by exact E. tauto.
  - rewrite bool_decide_eq_false_2 by exact E. split; [discriminate | contradiction].
Qed.

Lemma eq__cases {A} `{EqDecision A} (a b : A) :
  eq_ a b = Ok tt ∨ ∃ msg, eq_ a b = Raise (AssertionError msg).
Proof. unfold eq_. destruct (bool_decide _); eauto. Qed.

(** ** The checks of one pair *)

Lemma check_pair_eq (r : chan_ref) (c : Command.t) (ch : MockChannel.t) (w : World) :
  channels w !! r = Some ch →
  Session.check_pair (r, c) w =
    (match mock.assert_called_with (Session.exec_expected c) (MockChannel.exec_command ch) with
     | Raise e => Raise e
     | Ok _ =>
         if truthy (of_bytes (Command.in_ c))
         then match eq_ (Bytes (BytesIO.getvalue (MockChannel._stdin ch)))
                        (of_bytes (Command.in_ c)) with
              | Raise e => Raise e
              | Ok _ => Ok call_
              end
         else Ok call_
     end, w).
Proof.
  intros Hr. unfold Session.check_pair.
  unfold bind at 1. rewrite (observes_run (read_channel r) w) by auto with observes.
  unfold read_channel at 1, on_channel at 1. rewrite Hr. cbn [fst].
  unfold bind at 1, lift at 1.
  destruct (assert_called_with _ _) as [[]|e]; [| reflexivity].
  destruct (truthy _); unfold bind, lift, ret_.
  - destruct (eq_ _ _) as [[]|e]; reflexivity.
  - reflexivity.
Qed.

Lemma exec_as_expected_iff (c : Command.t) (ch : MockChannel.t) :
  mock.assert_called_with (Session.exec_expected c) (MockChannel.exec_command ch) = Ok tt ↔
  exec_as_expected c ch.
Proof.
  rewrite assert_called_with_ok. unfold exec_as_expected. split.
  - intros (k & Hk & Hm). apply call_matches_exec_expected in Hm as (a & -> & Ha).
    exists a. split; [exact Hk | apply truthy_of_str, Ha].
  - intros (a & Hk & Ha). eexists. split; [exact Hk |].
    apply call_matches_exec_expected. exists a. split; [reflexivity |].
    apply truthy_of_str, Ha.
Qed.

Lemma stdin_as_expected_iff (c : Command.t) (ch : MockChannel.t) :
  (truthy (of_bytes (Command.in_ c)) = true →
   eq_ (Bytes (BytesIO.getvalue (MockChannel._stdin ch))) (of_bytes (Command.in_ c)) = Ok tt) ↔
  stdin_as_expected c ch.
Proof.
  unfold stdin_as_expected. rewrite truthy_of_bytes, eq__ok. split.
  - intros H data E N. rewrite E in H. simpl in H.
    assert (Bytes (BytesIO.getvalue (MockChannel._stdin ch)) = Bytes data) as [= ->]
      by (apply H; eauto).
    reflexivity.
  - intros H (data & E & N). rewrite E. simpl. f_equal. eauto.
Qed.

(** The checks of a pair pass exactly when the channel was used as its
    command expects, and fail with an [AssertionError] otherwise. *)
Lemma check_pair_spec (r : chan_ref) (c : Command.t) (ch : MockChannel.t) (w : World) :
  channels w !! r = Some ch →
  (exec_as_expected c ch ∧ stdin_as_expected c ch →
     Session.check_pair (r, c) w = (Ok call_, w)) ∧
  (¬ (exec_as_expected c ch ∧ stdin_as_expected c ch) →
     ∃ msg, Session.check_pair (r, c) w = (Raise (AssertionError msg), w)).
Proof.
  intros Hr. rewrite (check_pair_eq r c ch w Hr).
  rewrite <- exec_as_expected_iff, <- stdin_as_expected_iff.
  destruct (assert_called_with_cases (Session.exec_expected c)
              (MockChannel.exec_command ch)) as [-> | [msg ->]].
  - destruct (truthy (of_bytes (Command.in_ c))).
    + destruct (eq__cases (Bytes (BytesIO.getvalue (MockChannel._stdin ch)))
                  (of_bytes (Command.in_ c))) as [-> | [msg ->]].
      * split; [reflexivity | intros N; exfalso; apply N; auto].
      * split; [intros [_ H]; specialize (H eq_refl); discriminate | eauto].
    + split; [reflexivity | intros N; exfalso; apply N; split; [reflexivity | discriminate]].
  - split; [intros [H _]; discriminate | eauto].
Qed.

Lemma check_pair_ok_inv (r : chan_ref) (c : Command.t) (y : call) (w w' : World) :
  Session.check_pair (r, c) w = (Ok y, w') →
  y = call_ ∧ ∃ ch, channels w !! r = Some ch ∧ exec_as_expected c ch ∧ stdin_as_expected c ch.
Proof.
  destruct (channels w !! r) as [ch|] eqn:Hr.
  - rewrite (check_pair_eq r c ch w Hr). intros H.
    assert (y = call_ ∧
            mock.assert_called_with (Session.exec_expected c)
              (MockChannel.exec_command ch) = Ok tt ∧
            (truthy (of_bytes (Command.in_ c)) = true →
             eq_ (Bytes (BytesIO.getvalue (MockChannel._stdin ch)))
                 (of_bytes (Command.in_ c)) = Ok tt)) as (-> & H1 & H2).
    { destruct (assert_called_with _ _) as [[]|e]; [| discriminate].
      destruct (truthy _).
      - destruct (eq_ _ _) as [[]|e]; [| discriminate].
        injection H as <- <-. auto.
      - injection H as <- <-. split; [reflexivity |]. split; [reflexivity | discriminate]. }
    split; [reflexivity |]. exists ch. split; [reflexivity |].
    split; [apply exec_as_expected_iff, H1 | apply stdin_as_expected_iff, H2].
  - unfold Session.check_pair, bind, read_channel, on_channel. rewrite Hr.
    discriminate.
Qed.

Lemma check_pair_cases (r : chan_ref) (c : Command.t) (ch : MockChannel.t) (w : World) :
  channels w !! r = Some ch →
  (Session.check_pair (r, c) w).1 = Ok call_ ∨
  ∃ msg, (Session.check_pair (r, c) w).1 = Raise (AssertionError msg).
Proof.
  intros Hr. rewrite (check_pair_eq r c ch w Hr). cbn [fst].
  destruct (assert_called_with_cases (Session.exec_expected c)
              (MockChannel.exec_command ch)) as [-> | [msg ->]]; [| eauto].
  destruct (truthy _); [| auto].
  destruct (eq__cases (Bytes (BytesIO.getvalue (MockChannel._stdin ch)))
              (of_bytes (Command.in_ c))) as [-> | [msg ->]]; eauto.
Qed.

(** ** Loops over computations that observe the store *)

Section ForEachObserves.

Context {A B : Type} (f : A → M B).
Hypothesis f_observes : ∀ x, observes (f x).

Lemma for_each_ok_inv (l : list A) (ys : list B) (w w' : World) :
  for_each f l w = (Ok ys, w') →
  w' = w ∧ Forall2 (λ x y, f x w = (Ok y, w)) l ys.
Proof using f_observes.
  revert ys. induction l as [|x l IH]; intros ys; simpl.
  - intros [= <- <-]. split; [reflexivity | constructor].
  - unfold bind at 1. rewrite (observes_run (f x) w) by apply f_observes.
    destruct ((f x w).1) as [y|e] eqn:Ey; [| discriminate].
    unfold bind at 1.
    destruct (for_each f l w) as [[ys'|e] w1] eqn:El; [| discriminate].
    intros [= <- <-]. destruct (IH ys' eq_refl) as [-> HF].
    split; [reflexivity |]. constructor; [| exact HF].
    rewrite (observes_run (f x) w) by apply f_observes. rewrite Ey. reflexivity.
Qed.

Lemma for_each_raise_inv (l : list A) (e : exn) (w w' : World) :
  for_each f l w = (Raise e, w') →
  ∃ x, x ∈ l ∧ (f x w).1 = Raise e.
Proof using f_observes.
  induction l as [|x l IH]; simpl.
  - discriminate.
  - unfold bind at 1. rewrite (observes_run (f x) w) by apply f_observes.
    destruct ((f x w).1) as [y|e'] eqn:Ey.
    + unfold bind at 1.
      destruct (for_each f l w) as [[ys'|e'] w1] eqn:El; [discriminate |].
      intros [= <- <-]. destruct (IH eq_refl) as (x' & Hin & Hx).
      exists x'. split; [right; exact Hin | exact Hx].
    + intros [= <- <-]. exists x. split; [left | exact Ey].
Qed.

(** The loop stops at the first element that raises. *)
Lemma for_each_first_raise (pre post : list A) (x : A) (e : exn) (w : World) :
  Forall (λ x, is_ok (f x w).1 = true) pre →
  (f x w).1 = Raise e →
  for_each f (pre ++ x :: post) w = (Raise e, w).
Proof using f_observes.
  intros Hpre Hx. induction Hpre as [|x0 pre H0 _ IH]; simpl.
  - unfold bind. rewrite (observes_run (f x) w), Hx by apply f_observes. reflexivity.
  - unfold bind at 1. rewrite (observes_run (f x0) w) by apply f_observes.
    destruct ((f x0 w).1) as [y|e0]; [| discriminate].
    unfold bind at 1. rewrite IH. reflexivity.
Qed.

Lemma for_each_all_ok (l : list A) (w : World) :
  Forall (λ x, is_ok (f x w).1 = true) l →
  ∃ ys, for_each f l w = (Ok ys, w) ∧ length ys = length l.
Proof using f_observes.
  intros H. induction H as [|x l Hx _ (ys & IH & Hl)]; simpl.
  - exists []. split; reflexivity.
  - unfold bind at 1. rewrite (observes_run (f x) w) by apply f_observes.
    destruct ((f x w).1) as [y|e0]; [| discriminate].
    unfold bind at 1. rewrite IH. exists (y :: ys).
    split; [reflexivity | simpl; congruence].
Qed.

End ForEachObserves.

(** ** Verification of a session *)

(** What a passing [sanity_check] establishes. *)
Lemma sanity_check_ok_inv (s : Session.t) (w w' : World) :
  Session.sanity_check s w = (Ok tt, w') →
  ∃ cl c,
    Session.client s = Some cl ∧ clients w !! cl = Some c ∧
    mock.call_args_list (MockClient.get_transport c) = [call_] ∧
    connected_as_expected s c ∧
    Forall (λ p, ∃ ch, channels w !! p.1 = Some ch ∧
                       exec_as_expected p.2 ch ∧ stdin_as_expected p.2 ch)
           (zip (Session.channels s) (Session.commands s)) ∧
    mock.call_args_list (MockClient.open_session c) =
      replicate (length (zip (Session.channels s) (Session.commands s))) call_ ∧
    w' = logged [ev_sanity_check (Some cl)] w.
Proof.
  intros H.
  destruct (Session.client s) as [cl|] eqn:Ecl.
  2:{ unfold Session.sanity_check, bind, log, Session.get_client, raise in H.
      rewrite Ecl in H. discriminate. }
  destruct (clients w !! cl) as [c|] eqn:Ec.
  2:{ unfold Session.sanity_check, bind, log, Session.get_client, ret_,
        read_client, on_client in H.
      rewrite Ecl in H. cbn [clients] in H. rewrite Ec in H. discriminate. }
  rewrite (sanity_check_with_client s w cl c Ecl Ec) in H.
  destruct (assert_called_once_with (Expected [] ∅) (MockClient.get_transport c))
    as [[]|e] eqn:E1; [| discriminate].
  destruct (assert_called_once_with (Session.connect_expected s) (MockClient.connect c))
    as [[]|e] eqn:E2; [| discriminate].
  destruct (for_each Session.check_pair (zip (Session.channels s) (Session.commands s)) w)
    as [[opens|e] w1] eqn:E3; [| discriminate].
  cbn [fst] in H. injection H as H <-.
  apply eq__ok in H.
  apply assert_called_once_with_ok in E1 as (k1 & Hk1 & Hm1).
  apply call_matches_no_arguments in Hm1 as ->.
  apply assert_called_once_with_ok in E2 as (k2 & Hk2 & Hm2).
  apply (for_each_ok_inv _ observes_check_pair) in E3 as [-> HF].
  exists cl, c. repeat split; try assumption.
  - unfold call_matches, Session.connect_expected in Hm2.
    apply andb_true_iff in Hm2 as [Ha Hkw]. cbn [e_args] in Ha.
    apply args_match_nil in Ha.
    apply (kwargs_match_connect_expected s) in Hkw as (u & h & p & Hkw & Hu & Hh & Hp).
    exists u, h, p. split.
    + rewrite Hk2. destruct k2 as [a k]; simpl in *. subst. reflexivity.
    + rewrite <- !truthy_of_str, <- truthy_of_int. auto.
  - clear H. induction HF as [|[r cmd] y l ys Hy _ IH]; constructor; [| exact IH].
    apply check_pair_ok_inv in Hy as [_ Hy]. exact Hy.
  - rewrite H. clear H. induction HF as [|[r cmd] y l ys Hy _ IH]; [reflexivity |].
    apply check_pair_ok_inv in Hy as [-> _]. simpl. f_equal. exact IH.
Qed.

(** On a session whose client and channels are in the store, the verdict
    is a pass or an [AssertionError]. *)
Lemma sanity_check_cases (s : Session.t) (w : World) (cl : client_ref) (c : MockClient.t) :
  Session.client s = Some cl →
  clients w !! cl = Some c →
  (∀ r, r ∈ Session.channels s → is_Some (channels w !! r)) →
  (Session.sanity_check s w).1 = Ok tt ∨
  ∃ msg, (Session.sanity_check s w).1 = Raise (AssertionError msg).
Proof.
  intros Ecl Ec Hch. rewrite (sanity_check_with_client s w cl c Ecl Ec). cbn [fst].
  destruct (assert_called_once_with_cases (Expected [] ∅) (MockClient.get_transport c))
    as [-> | [msg ->]]; [| eauto].
  destruct (assert_called_once_with_cases (Session.connect_expected s) (MockClient.connect c))
    as [-> | [msg ->]]; [| eauto].
  destruct (for_each Session.check_pair (zip (Session.channels s) (Session.commands s)) w)
    as [[opens|e] w1] eqn:E3; cbn [fst].
  - destruct (eq__cases (call_args_list (MockClient.open_session c)) opens)
      as [-> | [msg ->]]; eauto.
  - apply (for_each_raise_inv _ observes_check_pair) in E3 as ([r cmd] & Hin & Hx).
    destruct (Hch r) as [ch Hr].
    { apply elem_of_zip_l in Hin. exact Hin. }
    destruct (check_pair_cases r cmd ch w Hr) as [Hok | [msg Hbad]].
    + rewrite Hok in Hx. discriminate.
    + rewrite Hbad in Hx. injection Hx as <-. eauto.
Qed.

Lemma connected_as_expected_iff (s : Session.t) (c : MockClient.t) :
  mock.assert_called_once_with (Session.connect_expected s) (MockClient.connect c) = Ok tt ↔
  connected_as_expected s c.
Proof.
  rewrite assert_called_once_with_ok. unfold connected_as_expected, call_matches.
  split.
  - intros (k & Hk & Hm). apply andb_true_iff in Hm as [Ha Hkw].
    apply args_match_nil in Ha.
    apply kwargs_match_connect_expected in Hkw as (u & h & p & Hkw & Hu & Hh & Hp).
    exists u, h, p. split.
    + rewrite Hk. destruct k as [a kw]; simpl in *. subst. reflexivity.
    + rewrite <- !truthy_of_str, <- truthy_of_int. auto.
  - intros (u & h & p & Hk & Hu & Hh & Hp). eexists. split; [exact Hk |].
    apply andb_true_iff. split; [reflexivity |].
    apply kwargs_match_connect_expected. exists u, h, p.
    rewrite !truthy_of_str, truthy_of_int. auto.
Qed.

(** C10. A Command whose expected stdin is the empty byte string has no
    stdin check: whatever its channel recorded as stdin, the checks of
    the pair pass as soon as the [exec_command] call is as expected. *)
Theorem empty_expected_stdin_is_never_compared :
  ∀ (r : chan_ref) (c : Command.t) (ch : MockChannel.t) (w : World),
    Command.in_ c = Some [] →
    channels w !! r = Some ch →
    exec_as_expected c ch →
    Session.check_pair (r, c) w = (Ok call_, w).
Proof.
  intros r c ch w Hin Hr Hexec.
  apply (check_pair_spec r c ch w Hr). split; [exact Hexec |].
  intros data E N. rewrite Hin in E. congruence.
Qed.

(** C6 (as amended). Verification passes only if, for every (channel,
    command) pair of the session in order, the most recent
    [exec_command] call on the channel had the command's text as its
    only argument (any single argument when the text is [None] or
    empty) and, when the command's expected stdin is given and not
    empty, the recorded stdin equals it; on a session whose mocks are
    in the store, a pair that is not so makes verification raise an
    [AssertionError]. *)
Theorem sanity_check_checks_every_pair :
  ∀ (s : Session.t) (w : World),
    (∀ w' i r c,
       Session.sanity_check s w = (Ok tt, w') →
       Session.channels s !! i = Some r →
       Session.commands s !! i = Some c →
       ∃ ch, channels w !! r = Some ch ∧
             exec_as_expected c ch ∧ stdin_as_expected c ch) ∧
    (∀ cl cm i r c ch,
       Session.client s = Some cl →
       clients w !! cl = Some cm →
       (∀ r', r' ∈ Session.channels s → is_Some (channels w !! r')) →
       Session.channels s !! i = Some r →
       Session.commands s !! i = Some c →
       channels w !! r = Some ch →
       ¬ (exec_as_expected c ch ∧ stdin_as_expected c ch) →
       ∃ msg, (Session.sanity_check s w).1 = Raise (AssertionError msg)).
Proof.
  intros s w.
  assert (Hinv : ∀ w' i r c,
    Session.sanity_check s w = (Ok tt, w') →
    Session.channels s !! i = Some r →
    Session.commands s !! i = Some c →
    ∃ ch, channels w !! r = Some ch ∧ exec_as_expected c ch ∧ stdin_as_expected c ch).
  { intros w' i r c H Hr Hc.
    apply sanity_check_ok_inv in H as (cl & cm & _ & _ & _ & _ & HF & _).
    rewrite Forall_lookup in HF.
    apply (HF i (r, c)). rewrite lookup_zip_with, Hr. simpl.
    rewrite Hc. reflexivity. }
  split; [exact Hinv |].
  intros cl cm i r c ch Ecl Ecm Hch Hr Hc Hw Hbad.
  destruct (sanity_check_cases s w cl cm Ecl Ecm Hch) as [Hok | Hraise];
    [| exact Hraise].
  exfalso. apply Hbad.
  destruct (Hinv (Session.sanity_check s w).2 i r c) as (ch' & Hw' & He & Hs);
    [| exact Hr | exact Hc |].
  - rewrite <- Hok. destruct (Session.sanity_check s w); reflexivity.
  - rewrite Hw in Hw'. injection Hw' as <-. auto.
Qed.

(** C5 (as amended). Verification passes only if [connect] was called
    exactly once, with the keywords [username], [hostname] and [port]
    and nothing else, each equal to the session's [user], [host] or
    [port] when that one is given and truthy; the assertion on [connect]
    passes exactly then, so a value the session leaves unset (or gives as
    an empty string or as 0) is matched by anything; and on a session
    whose mocks are in the store, a [connect] that is not so makes
    verification raise an [AssertionError]. *)
Theorem sanity_check_checks_the_connection_target :
  ∀ (s : Session.t) (w : World),
    (∀ w', Session.sanity_check s w = (Ok tt, w') →
           ∃ cl c, Session.client s = Some cl ∧ clients w !! cl = Some c ∧
                   connected_as_expected s c) ∧
    (∀ c, mock.assert_called_once_with (Session.connect_expected s)
            (MockClient.connect c) = Ok tt ↔ connected_as_expected s c) ∧
    (∀ cl c,
       Session.client s = Some cl →
       clients w !! cl = Some c →
       (∀ r, r ∈ Session.channels s → is_Some (channels w !! r)) →
       ¬ connected_as_expected s c →
       ∃ msg, (Session.sanity_check s w).1 = Raise (AssertionError msg)).
Proof.
  intros s w. split; [| split].
  - intros w' H.
    apply sanity_check_ok_inv in H as (cl & c & Ecl & Ec & _ & Hconn & _).
    exists cl, c. auto.
  - intros c. apply connected_as_expected_iff.
  - intros cl c Ecl Ec Hch Hbad.
    destruct (sanity_check_cases s w cl c Ecl Ec Hch) as [Hok | Hraise];
      [| exact Hraise].
    exfalso. apply Hbad.
    assert (H : Session.sanity_check s w = (Ok tt, (Session.sanity_check s w).2)).
    { rewrite <- Hok. destruct (Session.sanity_check s w); reflexivity. }
    apply sanity_check_ok_inv in H as (cl' & c' & Ecl' & Ec' & _ & Hconn & _).
    rewrite Ecl in Ecl'. injection Ecl' as <-.
    rewrite Ec in Ec'. injection Ec' as <-. exact Hconn.
Qed.

Lemma cat_session_passes_its_pair_check :
  ∃ ch, channels cat_session.2 !! 0 = Some ch ∧
        BytesIO.getvalue (MockChannel._stdin ch) = [Byte.x61] ∧
        Session.check_pair
          (0, Command.__init__ (Some "cat") None None (Some []) None None)
          cat_session.2 = (Ok call_, cat_session.2).
Proof.
  eexists. split; [vm_compute; reflexivity |]. split; [reflexivity |].
  eapply empty_expected_stdin_is_never_compared.
  - reflexivity.
  - vm_compute. reflexivity.
  - eexists. split; [vm_compute; reflexivity |].
    intros text [= <-] _. reflexivity.
Defined.

(** C6 (as stated) fails: the command expects [b''] on stdin, its channel
    recorded [b'a'], and verification passes. *)
Lemma sanity_check_passes_with_unexpected_stdin :
  Session.commands cat_session.1 =
    [Command.mk (Some "cat") [] [] (Some []) 0 0] ∧
  Session.channels cat_session.1 = [0] ∧
  (BytesIO.getvalue ∘ MockChannel._stdin <$> channels cat_session.2) = [[Byte.x61]] ∧
  Session.sanity_check cat_session.1 cat_session.2 =
    (Ok tt, logged [ev_sanity_check (Some 0)] cat_session.2).
Proof. vm_compute. repeat split; reflexivity. Qed.

Lemma ls_session_pair_is_as_expected :
  ∃ ch, channels ls_session.2 !! 0 = Some ch ∧
        exec_as_expected (Command.__init__ (Some "ls") None None (Some [Byte.x79]) None None) ch ∧
        stdin_as_expected (Command.__init__ (Some "ls") None None (Some [Byte.x79]) None None) ch.
Proof.
  apply (proj1 (sanity_check_checks_every_pair ls_session.1 ls_session.2)
           (Session.sanity_check ls_session.1 ls_session.2).2 0).
  - vm_compute. reflexivity.
  - vm_compute. reflexivity.
  - vm_compute. reflexivity.
Defined.

(** C5 (as stated) fails: the session declares port 0, the connection
    was made to port 22, and verification passes. *)
Lemma sanity_check_passes_with_another_port :
  Session.port port_zero_session.1 = Some 0%Z ∧
  (mock.call_args_list ∘ MockClient.connect <$> clients port_zero_session.2) =
    [[Call [] (target "u" "h" 22)]] ∧
  Session.sanity_check port_zero_session.1 port_zero_session.2 =
    (Ok tt, logged [ev_sanity_check (Some 0)] port_zero_session.2).
Proof. vm_compute. repeat split; reflexivity. Qed.

Lemma ls_session_connected_as_expected :
  ∃ cl c, Session.client ls_session.1 = Some cl ∧
          clients ls_session.2 !! cl = Some c ∧
          connected_as_expected ls_session.1 c.
Proof.
  apply (proj1 (sanity_check_checks_the_connection_target ls_session.1 ls_session.2)
           (Session.sanity_check ls_session.1 ls_session.2).2).
  vm_compute. reflexivity.
Defined.

(** ** The channels of a session *)

Lemma take_next_of_list_take {A} (k : nat) (l : list A) :
  itertools.take_next k (itertools.of_list l) = (take k l, itertools.of_list (drop k l)).
Proof.
  revert l. induction k as [|k IH]; intros l; [reflexivity |].
  destruct l as [|x l]; simpl; [reflexivity |]. rewrite IH. reflexivity.
Qed.

(** A mock whose iterator runs out lets [StopIteration] escape. *)
Lemma mock_calls_exhausted {R} (c : call) (n : nat) (m : Mock R)
    (it it' : itertools.iter R) (xs : list R) :
  side_effect m = Some it →
  itertools.take_next n it = (xs, it') →
  length xs < n →
  (repeat_call n (mock.__call__ c) m).1 = Raise StopIteration.
Proof.
  revert m it xs. induction n as [|n IH]; intros m it xs Hm Ht Hl; [lia |].
  simpl in Ht |- *. unfold mock.__call__ at 1. rewrite Hm.
  destruct (itertools.next it) as [[x it1]|] eqn:E; [| reflexivity].
  destruct (itertools.take_next n it1) as [xs1 it2] eqn:E1.
  injection Ht as <- <-. simpl in Hl.
  specialize (IH (mkMock (return_value m) (Some it1) (call_args_list m ++ [c]))
                 it1 xs1 eq_refl E1 ltac:(lia)).
  destruct (repeat_call n (__call__ c) _) as [[ys|e] m']; simpl in IH;
    [discriminate | injection IH as ->; reflexivity].
Qed.

Lemma Forall2_seq_lookup_app {A B} (f : A → B) (l0 : list B) (l : list A) :
  Forall2 (λ r x, (l0 ++ (f <$> l)) !! r = Some (f x)) (seq (length l0) (length l)) l.
Proof.
  apply Forall2_same_length_lookup_2.
  - rewrite length_seq. reflexivity.
  - intros i r x Hr Hx. apply lookup_seq in Hr as [-> _].
    rewrite lookup_app_r by lia.
    replace (length l0 + i - length l0) with i by lia.
    rewrite list_lookup_fmap, Hx. reflexivity.
Qed.

Lemma Forall2_channel_of_new_channel (chs : list MockChannel.t) (rs : list chan_ref)
    (cs : list Command.t) :
  Forall (λ c, fits_ssize_t (Command.waits c) = true) cs →
  Forall2 (λ r c, chs !! r = Some (Session.channel_of c)) rs cs →
  Forall2 (λ r c, ∃ ch, Session.new_channel c = Ok ch ∧ chs !! r = Some ch) rs cs.
Proof.
  intros Hfit H. induction H as [|r c rs cs Hr _ IH]; [constructor |].
  apply Forall_cons in Hfit as [Hc Hcs]. constructor; [| exact (IH Hcs)].
  exists (Session.channel_of c). split; [apply new_channel_fits; exact Hc | exact Hr].
Qed.

(** C3. For a session whose commands' [waits] fit a C [ssize_t] (so that
    its mocks can be generated), [generate_mocks] makes one channel per
    command, in the order of the commands; the first [k ≤ n]
    [open_session()] calls on the session's transport return the first
    [k] of these channels in that order, and one call more than [n]
    raises [StopIteration]; and verification passes only if
    [open_session] was called exactly [n] times. *)
Theorem open_session_yields_the_channels_in_order :
  ∀ (s : Session.t) (w : World),
    Session.waits_fit s →
    ∃ s' w' cl,
      Session.generate_mocks s w = (Ok s', w') ∧
      Session.client s' = Some cl ∧
      Session.commands s' = Session.commands s ∧
      NoDup (Session.channels s') ∧
      Forall2 (λ r c, ∃ ch, Session.new_channel c = Ok ch ∧ channels w' !! r = Some ch)
              (Session.channels s') (Session.commands s) ∧
      (∀ k, k ≤ length (Session.commands s) →
            (Remote.times k (Remote.open_session cl call_) w').1 =
              Ok (Value <$> take k (Session.channels s'))) ∧
      (Remote.times (S (length (Session.commands s)))
         (Remote.open_session cl call_) w').1 = Raise StopIteration ∧
      (∀ w2 w3, Session.sanity_check s' w2 = (Ok tt, w3) →
                ∃ c, clients w2 !! cl = Some c ∧
                     mock.call_count (MockClient.open_session c) =
                       length (Session.commands s)).
Proof.
  intros s w Hfit. do 3 eexists. split; [apply generate_mocks_eq; exact Hfit |].
  cbn [Session.client Session.commands Session.channels channels clients].
  set (n := length (Session.commands s)).
  set (refs := seq (length (channels w)) n).
  assert (Hcl : (clients w ++ [Session.new_client refs]) !! length (clients w) =
                Some (Session.new_client refs)) by (apply list_lookup_middle; reflexivity).
  split; [reflexivity |]. split; [reflexivity |]. split; [apply NoDup_seq |].
  split; [| split; [| split]].
  - apply Forall2_channel_of_new_channel; [exact Hfit |].
    apply Forall2_seq_lookup_app.
  - intros k Hk. unfold Remote.open_session.
    erewrite times_on_client by exact Hcl. cbn [fst].
    rewrite repeat_call_open_session.
    erewrite mock_calls_side_effect;
      [reflexivity | reflexivity | apply take_next_of_list_take |].
    rewrite length_take. subst refs. rewrite length_seq. lia.
  - unfold Remote.open_session.
    erewrite times_on_client by exact Hcl. cbn [fst].
    rewrite repeat_call_open_session.
    pose proof (mock_calls_exhausted call_ (S n)
                  (MockClient.open_session (Session.new_client refs))
                  _ _ _ eq_refl (take_next_of_list_take (S n) refs)) as H.
    destruct (repeat_call (S n) _ _) as [r m]. simpl in H |- *. apply H.
    rewrite length_take. subst refs. rewrite length_seq. lia.
  - intros w2 w3 H.
    apply sanity_check_ok_inv in H as (cl & c & Ecl & Ec & _ & _ & _ & Hopens & _).
    cbn [Session.client Session.commands Session.channels] in *.
    injection Ecl as <-. exists c. split; [exact Ec |].
    unfold mock.call_count. rewrite Hopens, length_replicate, length_zip.
    fold n refs. subst refs. rewrite length_seq. lia.
Qed.

Lemma ls_session_opened_one_session :
  ∃ c, clients ls_session.2 !! 0 = Some c ∧
       mock.call_count (MockClient.open_session c) = 1.
Proof.
  destruct (open_session_yields_the_channels_in_order
              (Session.mk (Some "x") (Some "y") None
                 [Command.__init__ (Some "ls") None None (Some [Byte.x79]) None None]
                 None [])
              empty_world ltac:(repeat constructor))
    as (s' & w' & cl & Hgen & Hcl & _ & _ & _ & _ & _ & Hver).
  vm_compute in Hgen. injection Hgen as <- <-. injection Hcl as <-.
  apply (Hver ls_session.2 (Session.sanity_check ls_session.1 ls_session.2).2).
  vm_compute. reflexivity.
Defined.

(** ** [MockRemote.stop] *)

Lemma logged_logged (es1 es2 : list event) (w : World) :
  logged es2 (logged es1 w) = logged (es1 ++ es2) w.
Proof. unfold logged. simpl. rewrite app_assoc. reflexivity. Qed.

Lemma logged_nil (w : World) : logged [] w = w.
Proof. unfold logged. rewrite app_nil_r. destruct w; reflexivity. Qed.

(** Verification of sessions that all pass: each one is verified, in
    order. *)
Lemma for_each_sanity_check_pass (ss : list Session.t) (w w1 : World) :
  channels w1 = channels w →
  clients w1 = clients w →
  Forall (passes w) ss →
  for_each Session.sanity_check ss w1 =
    (Ok (replicate (length ss) tt), logged (verified <$> ss) w1).
Proof.
  intros Hc Hl H. revert w1 Hc Hl.
  induction H as [|s ss Hs _ IH]; intros w1 Hc Hl; simpl.
  - unfold ret_. rewrite logged_nil. reflexivity.
  - unfold bind at 1. rewrite (sanity_check_frame s w1 w Hc Hl), Hs.
    unfold bind at 1. rewrite IH by assumption.
    unfold ret_. rewrite logged_logged. reflexivity.
Qed.

(** Verification stops at the first session that fails. *)
Lemma for_each_sanity_check_fail (pre post : list Session.t) (s : Session.t)
    (e : exn) (w w1 : World) :
  channels w1 = channels w →
  clients w1 = clients w →
  Forall (passes w) pre →
  (Session.sanity_check s w).1 = Raise e →
  for_each Session.sanity_check (pre ++ s :: post) w1 =
    (Raise e, logged (verified <$> pre ++ [s]) w1).
Proof.
  intros Hc Hl H He. revert w1 Hc Hl.
  induction H as [|s0 pre Hs _ IH]; intros w1 Hc Hl; simpl.
  - unfold bind at 1. rewrite (sanity_check_frame s w1 w Hc Hl), He. reflexivity.
  - unfold bind at 1. rewrite (sanity_check_frame s0 w1 w Hc Hl), Hs.
    unfold bind at 1. rewrite IH by assumption.
    rewrite logged_logged. reflexivity.
Qed.

Lemma stop_pass (ss : list Session.t) (original : binding) (w : World) :
  Forall (passes w) ss →
  MockRemote.stop (MockRemote.mk ss (Some (patch.mk (Some original)))) w =
    (Ok (MockRemote.mk ss (Some (patch.mk None))),
     mkWorld original (channels w) (clients w)
       (trace w ++ ev_patcher_stop :: (verified <$> ss))).
Proof.
  intros H. unfold MockRemote.stop. cbn [MockRemote.patcher MockRemote.sessions].
  unfold bind at 1, ret_ at 1. unfold bind at 1.
  unfold patch.stop. cbn [patch.temp_original].
  unfold bind at 1, log at 1. unfold bind at 1, set_SSHClient at 1.
  cbn [channels clients trace SSHClient]. unfold ret_ at 1.
  unfold bind at 1.
  rewrite (for_each_sanity_check_pass ss w) by (reflexivity || assumption).
  unfold ret_, logged. cbn [channels clients trace SSHClient].
  rewrite <- app_assoc. reflexivity.
Qed.

Lemma stop_fail (pre post : list Session.t) (s : Session.t) (e : exn)
    (original : binding) (w : World) :
  Forall (passes w) pre →
  (Session.sanity_check s w).1 = Raise e →
  MockRemote.stop (MockRemote.mk (pre ++ s :: post) (Some (patch.mk (Some original)))) w =
    (Raise e,
     mkWorld original (channels w) (clients w)
       (trace w ++ ev_patcher_stop :: (verified <$> pre ++ [s]))).
Proof.
  intros H He. unfold MockRemote.stop. cbn [MockRemote.patcher MockRemote.sessions].
  unfold bind at 1, ret_ at 1. unfold bind at 1.
  unfold patch.stop. cbn [patch.temp_original].
  unfold bind at 1, log at 1. unfold bind at 1, set_SSHClient at 1.
  cbn [channels clients trace SSHClient]. unfold ret_ at 1.
  unfold bind at 1.
  rewrite (for_each_sanity_check_fail pre post s e w) by (reflexivity || assumption).
  unfold logged. cbn [channels clients trace SSHClient].
  rewrite <- app_assoc. reflexivity.
Qed.

(** C9. On a started harness, [stop()] first puts back the binding the
    patcher replaced and then verifies the sessions in declared order:
    the trace grows by the unpatching followed by one verification per
    session. When a session fails verification and those before it
    pass, [stop()] raises that session's failure, the sessions after it
    are not verified, and the binding is already the original one. *)
Theorem stop_unpatches_then_verifies_fail_fast :
  ∀ (ss : list Session.t) (original : binding) (w : World),
    let remote := MockRemote.mk ss (Some (patch.mk (Some original))) in
    (Forall (passes w) ss →
       ∃ remote' w',
         MockRemote.stop remote w = (Ok remote', w') ∧
         SSHClient w' = original ∧
         trace w' = trace w ++ ev_patcher_stop :: (verified <$> ss)) ∧
    (∀ pre s post e,
       ss = pre ++ s :: post →
       Forall (passes w) pre →
       (Session.sanity_check s w).1 = Raise e →
       ∃ w',
         MockRemote.stop remote w = (Raise e, w') ∧
         SSHClient w' = original ∧
         trace w' = trace w ++ ev_patcher_stop :: (verified <$> pre ++ [s])).
Proof.
  intros ss original w remote. split.
  - intros H. do 2 eexists. split; [apply stop_pass, H |]. split; reflexivity.
  - intros pre s post e -> H He. eexists.
    split; [apply (stop_fail pre post s e original w H He) |]. split; reflexivity.
Qed.

(** ** [chain.from_iterable] *)

Lemma to_list_chain_cons {A} (i : itertools.iter A) (its : list (itertools.iter A)) :
  itertools.to_list (itertools.chain (i :: its)) =
    match itertools.to_list i, itertools.to_list (itertools.chain its) with
    | Some xs, Some ys => Some (xs ++ ys)
    | _, _ => None
    end.
Proof. reflexivity. Qed.

Lemma to_list_chain_from_iterable {A} (ls : list (list A)) :
  itertools.to_list (itertools.chain_from_iterable ls) = Some (concat ls).
Proof.
  unfold itertools.chain_from_iterable.
  induction ls as [|l ls IH]; [reflexivity |].
  rewrite fmap_cons, to_list_chain_cons, IH. reflexivity.
Qed.

(** The next item of a chain of lists is the first item of their
    concatenation, and what is left is again a chain of lists. *)
Lemma next_chain_of_lists {A} (l : list A) (ls : list (list A)) :
  match l ++ concat ls with
  | [] => itertools.next (itertools.chain (itertools.of_list l :: (itertools.of_list <$> ls)))
          = None
  | x :: rest =>
      ∃ l' ls',
        itertools.next (itertools.chain (itertools.of_list l :: (itertools.of_list <$> ls)))
        = Some (x, itertools.chain (itertools.of_list l' :: (itertools.of_list <$> ls'))) ∧
        rest = l' ++ concat ls'
  end.
Proof.
  revert l. induction ls as [|l1 ls IH]; intros l.
  - destruct l as [|x l]; simpl; [reflexivity |].
    exists l, []. split; reflexivity.
  - destruct l as [|x l].
    + specialize (IH l1). simpl in IH |- *.
      destruct (l1 ++ concat ls) as [|x rest]; [exact IH |].
      destruct IH as (l' & ls' & IH & ->). exists l', ls'. split; [exact IH | reflexivity].
    + simpl. exists l, (l1 :: ls). split; reflexivity.
Qed.

Lemma take_next_chain_of_lists {A} (n : nat) (l : list A) (ls : list (list A)) :
  length (l ++ concat ls) = n →
  ∃ it', itertools.take_next n
           (itertools.chain (itertools.of_list l :: (itertools.of_list <$> ls)))
         = (l ++ concat ls, it') ∧
         itertools.next it' = None.
Proof.
  revert l ls. induction n as [|n IH]; intros l ls Hn.
  - pose proof (next_chain_of_lists l ls) as H.
    destruct (l ++ concat ls); [| discriminate].
    eexists. split; [reflexivity | exact H].
  - pose proof (next_chain_of_lists l ls) as H.
    destruct (l ++ concat ls) as [|x rest]; [discriminate |].
    destruct H as (l' & ls' & H & ->). injection Hn as Hn.
    destruct (IH l' ls' Hn) as (it' & E & Hnone).
    exists it'. split; [| exact Hnone].
    cbn [itertools.take_next]. rewrite H, E. reflexivity.
Qed.

Lemma next_chain_skip_empty {A} (its : list (itertools.iter A)) :
  itertools.next (itertools.chain (itertools.of_list [] :: its)) =
  itertools.next (itertools.chain its).
Proof. reflexivity. Qed.

Lemma take_next_S {A} (n : nat) (it : itertools.iter A) :
  itertools.take_next (S n) it =
    match itertools.next it with
    | Some (x, it') =>
        let '(xs, it'') := itertools.take_next n it' in (x :: xs, it'')
    | None => ([], it)
    end.
Proof. reflexivity. Qed.

(** Iterating over what [start] returns gives the concatenation of the
    lists, item by item, and then stops. *)
Lemma take_next_chain_from_iterable {A} (ls : list (list A)) :
  ∃ it', itertools.take_next (length (concat ls)) (itertools.chain_from_iterable ls)
         = (concat ls, it') ∧
         itertools.next it' = None.
Proof.
  destruct (take_next_chain_of_lists (length (concat ls)) [] ls eq_refl)
    as (it' & E & Hnone).
  pose proof (next_chain_of_lists [] ls) as H.
  rewrite next_chain_skip_empty in H.
  fold (itertools.chain_from_iterable ls) in H.
  rewrite app_nil_l in E, H.
  destruct (concat ls) as [|x rest] eqn:El.
  - exists (itertools.chain_from_iterable ls). split; [reflexivity | exact H].
  - exists it'. split; [| exact Hnone].
    destruct H as (l' & ls' & H & ->).
    simpl length in E |- *. rewrite take_next_S in E |- *.
    rewrite next_chain_skip_empty in E.
    fold (itertools.chain_from_iterable ls) in E.
    rewrite H in E |- *. exact E.
Qed.

(** ** [MockRemote.start] *)

Lemma waits_fit_concat (ss : list Session.t) :
  Forall Session.waits_fit ss →
  Forall (λ c, fits_ssize_t (Command.waits c) = true) (concat (Session.commands <$> ss)).
Proof.
  induction 1 as [|s ss Hs _ IH]; [constructor |].
  rewrite fmap_cons, concat_cons. apply Forall_app. split; [exact Hs | exact IH].
Qed.

Lemma for_each_generate_mocks (ss : list Session.t) (w : World) :
  Forall Session.waits_fit ss →
  ∃ ss',
    for_each Session.generate_mocks ss w =
      (Ok ss',
       mkWorld (SSHClient w)
         (channels w ++ (Session.channel_of <$> concat (Session.commands <$> ss)))
         (clients w ++ (Session.new_client ∘ Session.channels <$> ss'))
         (trace w ++ (ev_generate_mocks <$> seq (length (clients w)) (length ss)))) ∧
    Forall2 (λ s s', Session.host s' = Session.host s ∧
                     Session.user s' = Session.user s ∧
                     Session.port s' = Session.port s ∧
                     Session.commands s' = Session.commands s ∧
                     length (Session.channels s') = length (Session.commands s))
            ss ss' ∧
    (Session.client <$> ss') = (Some <$> seq (length (clients w)) (length ss)) ∧
    concat (Session.channels <$> ss') =
      seq (length (channels w)) (length (concat (Session.commands <$> ss))).
Proof.
  revert w. induction ss as [|s ss IH]; intros w Hfit.
  - exists []. simpl. unfold ret_. rewrite !app_nil_r.
    split; [destruct w; reflexivity |]. split; [constructor |]. split; reflexivity.
  - apply Forall_cons in Hfit as [Hs Hss].
    simpl. unfold bind at 1. rewrite generate_mocks_eq by exact Hs.
    set (s1 := Session.mk _ _ _ _ _ _).
    set (w1 := mkWorld _ _ _ _).
    destruct (IH w1 Hss) as (ss' & E & HF & Hcl & Hch).
    exists (s1 :: ss'). unfold bind at 1. rewrite E. unfold ret_.
    subst w1. cbn [SSHClient channels clients trace] in *.
    rewrite length_app in Hcl, Hch |- *. simpl in Hcl. rewrite Nat.add_1_r in Hcl |- *.
    rewrite length_fmap in Hch.
    split; [| split; [| split]].
    + f_equal. f_equal.
      * rewrite fmap_app, app_assoc. reflexivity.
      * rewrite <- app_assoc. reflexivity.
      * rewrite <- app_assoc. reflexivity.
    + constructor; [| exact HF]. subst s1. simpl. rewrite length_seq. auto.
    + rewrite fmap_cons, Hcl. reflexivity.
    + rewrite fmap_cons, concat_cons, Hch, length_app, seq_app. reflexivity.
Qed.

Lemma for_each_get_client (ss : list Session.t) (refs : list client_ref) (w : World) :
  (Session.client <$> ss) = (Some <$> refs) →
  for_each Session.get_client ss w = (Ok refs, w).
Proof.
  revert refs. induction ss as [|s ss IH]; intros [|r refs] H; try discriminate.
  - reflexivity.
  - simpl in H. injection H as Hs H. simpl.
    unfold bind at 1, Session.get_client at 1. rewrite Hs. unfold ret_ at 1.
    unfold bind at 1. rewrite (IH refs H). reflexivity.
Qed.

Lemma start_eq (ss : list Session.t) (p0 : option patch.t) (w : World) :
  Forall Session.waits_fit ss →
  ∃ ss',
    MockRemote.start (MockRemote.mk ss p0) w =
      (Ok (MockRemote.mk ss' (Some (patch.mk (Some (SSHClient w)))),
           itertools.chain_from_iterable (Session.channels <$> ss')),
       mkWorld
         (Patched (mock.set_side_effect
                     (itertools.of_list (seq (length (clients w)) (length ss))) mock.new))
         (channels w ++ (Session.channel_of <$> concat (Session.commands <$> ss)))
         (clients w ++ (Session.new_client ∘ Session.channels <$> ss'))
         (trace w ++ ev_patcher_start ::
            (ev_generate_mocks <$> seq (length (clients w)) (length ss)))) ∧
    Forall2 (λ s s', Session.host s' = Session.host s ∧
                     Session.user s' = Session.user s ∧
                     Session.port s' = Session.port s ∧
                     Session.commands s' = Session.commands s ∧
                     length (Session.channels s') = length (Session.commands s))
            ss ss' ∧
    (Session.client <$> ss') = (Some <$> seq (length (clients w)) (length ss)) ∧
    concat (Session.channels <$> ss') =
      seq (length (channels w)) (length (concat (Session.commands <$> ss))).
Proof.
  intros Hfit.
  set (w0 := mkWorld (Patched mock.new) (channels w) (clients w)
                     (trace w ++ [ev_patcher_start])).
  destruct (for_each_generate_mocks ss w0 Hfit) as (ss' & E & HF & Hcl & Hch).
  exists ss'. split; [| auto].
  unfold MockRemote.start. cbn [MockRemote.sessions].
  unfold bind at 1. unfold patch.start.
  unfold bind at 1, log at 1. unfold bind at 1, get_SSHClient at 1.
  unfold bind at 1, set_SSHClient at 1. cbn [SSHClient channels clients trace].
  unfold ret_ at 1. fold w0.
  unfold bind at 1. rewrite E.
  unfold bind at 1. rewrite (for_each_get_client ss' _ _ Hcl).
  unfold bind at 1, MockRemote.set_SSHClient_side_effect.
  unfold bind at 1, get_SSHClient at 1. cbn [SSHClient channels clients trace].
  unfold set_SSHClient, ret_. subst w0. cbn [SSHClient channels clients trace].
  rewrite <- app_assoc. reflexivity.
Qed.

Lemma times_SSHClient (a : call) (n : nat) (m : Mock client_ref) (w : World) :
  SSHClient w = Patched m →
  Remote.times n (Remote.SSHClient_ a) w =
    ((repeat_call n (mock.__call__ a) m).1,
     mkWorld (Patched (repeat_call n (mock.__call__ a) m).2)
             (channels w) (clients w) (trace w)).
Proof.
  revert m w. induction n as [|n IH]; intros m w Hm; simpl.
  - unfold ret_. rewrite <- Hm. destruct w; reflexivity.
  - unfold bind at 1. unfold Remote.SSHClient_ at 1. rewrite Hm.
    destruct (mock.__call__ a m) as [[x|e] m'] eqn:E; [| reflexivity].
    unfold bind at 1. rewrite (IH m') by reflexivity. simpl.
    destruct (repeat_call n (mock.__call__ a) m') as [[xs|e] m'']; reflexivity.
Qed.

(** C8. When every command's [waits] fits a C [ssize_t] (so that the
    mocks can be generated), [start()] generates the mocks of every
    session and returns an iterator over the channels of all sessions,
    in declared order: one channel per command, in the global order of
    the commands. The patched [SSHClient] then yields, call after call,
    the clients of the sessions in declared order, each being the client
    whose transport opens that session's channels. *)
Theorem start_returns_all_channels_and_queues_the_clients :
  ∀ (remote : MockRemote.t) (w : World),
    Forall Session.waits_fit (MockRemote.sessions remote) →
    ∃ remote' it w' refs,
      MockRemote.start remote w = (Ok (remote', it), w') ∧
      Forall2 (λ s s', Session.commands s' = Session.commands s ∧
                       length (Session.channels s') = length (Session.commands s))
              (MockRemote.sessions remote) (MockRemote.sessions remote') ∧
      itertools.to_list it =
        Some (concat (Session.channels <$> MockRemote.sessions remote')) ∧
      (∃ it',
         itertools.take_next
           (length (concat (Session.channels <$> MockRemote.sessions remote'))) it =
           (concat (Session.channels <$> MockRemote.sessions remote'), it') ∧
         itertools.next it' = None) ∧
      NoDup (concat (Session.channels <$> MockRemote.sessions remote')) ∧
      Forall2 (λ r c, ∃ ch, Session.new_channel c = Ok ch ∧ channels w' !! r = Some ch)
              (concat (Session.channels <$> MockRemote.sessions remote'))
              (concat (Session.commands <$> MockRemote.sessions remote)) ∧
      Forall2 (λ s' cl, Session.client s' = Some cl ∧
                        clients w' !! cl = Some (Session.new_client (Session.channels s')))
              (MockRemote.sessions remote') refs ∧
      (∀ a k, k ≤ length (MockRemote.sessions remote) →
              (Remote.times k (Remote.SSHClient_ a) w').1 = Ok (Value <$> take k refs)).
Proof.
  intros [ss p0] w Hfit. cbn [MockRemote.sessions] in Hfit.
  destruct (start_eq ss p0 w Hfit) as (ss' & E & HF & Hcl & Hch).
  eexists _, _, _, (seq (length (clients w)) (length ss)).
  split; [exact E |]. cbn [MockRemote.sessions channels clients].
  pose proof (Forall2_length _ _ _ HF) as Hlen.
  split; [| split; [| split; [| split; [| split; [| split]]]]].
  - eapply Forall2_impl; [exact HF |]. simpl. intros s s' (_ & _ & _ & H1 & H2). auto.
  - apply to_list_chain_from_iterable.
  - apply take_next_chain_from_iterable.
  - rewrite Hch. apply NoDup_seq.
  - rewrite Hch. apply Forall2_channel_of_new_channel;
      [apply waits_fit_concat; exact Hfit | apply Forall2_seq_lookup_app].
  - apply Forall2_same_length_lookup_2.
    + rewrite length_seq. symmetry. exact Hlen.
    + intros i s' cl Hs Hr. apply lookup_seq in Hr as [-> Hi].
      assert (Hc : (Session.client <$> ss') !! i = Some (Session.client s'))
        by (rewrite list_lookup_fmap, Hs; reflexivity).
      rewrite Hcl, list_lookup_fmap, lookup_seq_lt in Hc by exact Hi.
      injection Hc as <-. split; [reflexivity |].
      rewrite lookup_app_r by lia.
      replace (length (clients w) + i - length (clients w)) with i by lia.
      rewrite list_lookup_fmap, Hs. reflexivity.
  - intros a k Hk.
    erewrite times_SSHClient by reflexivity. cbn [fst].
    erewrite mock_calls_side_effect;
      [reflexivity | reflexivity | apply take_next_of_list_take |].
    rewrite length_take, length_seq. lia.
Qed.

Lemma start_two_default_sessions :
  ∃ remote' it w' refs,
    MockRemote.start (MockRemote.mk [default_session; default_session] None) empty_world =
      (Ok (remote', it), w') ∧
    refs = [0; 1] ∧
    itertools.to_list it = Some [0; 1] ∧
    (Remote.times 2 (Remote.SSHClient_ call_) w').1 = Ok [Value 0; Value 1].
Proof.
  destruct (start_returns_all_channels_and_queues_the_clients
              (MockRemote.mk [default_session; default_session] None) empty_world
              ltac:(repeat constructor))
    as (remote' & it & w' & refs & E & _ & Hl & _ & _ & _ & Hrefs & Hcalls).
  exists remote', it, w', refs. split; [exact E |].
  vm_compute in E. injection E as <- <- <-.
  assert (Hr : refs = [0; 1]).
  { inversion Hrefs as [|s0 r0 l0 l0' [H0 _] Hrest]; subst.
    inversion Hrest as [|s1 r1 l1 l1' [H1 _] Hrest']; subst.
    inversion Hrest'; subst. simpl in H0, H1. congruence. }
  split; [exact Hr |]. split; [exact Hl |].
  rewrite (Hcalls call_ 2) by (simpl; lia). rewrite Hr. reflexivity.
Defined.

(** ** The decorator *)

Lemma MockRemote_init_sessions (sessions : list Session.t) (w : World) :
  MockRemote.__init__ None None None None None None (Some sessions) false w =
    (Ok (MockRemote.mk (match sessions with
                        | [] => [default_session]
                        | _ => sessions
                        end) None), w).
Proof. destruct sessions; reflexivity. Qed.

Lemma wrapper_eq (sessions : list Session.t) (f : test_fn) (args : list arg) (w : World)
    (remote : MockRemote.t) (it : itertools.iter chan_ref) (w0 : World)
    (extra : list chan_ref) :
  (let* remote := MockRemote.__init__ None None None None None None (Some sessions) false in
   MockRemote.start remote) w = (Ok (remote, it), w0) →
  itertools.to_list it = Some extra →
  wrapper sessions f args w =
    try_finally (f (args ++ (Chan <$> extra))) (MockRemote.stop remote ;;; ret_ tt) w0.
Proof.
  intros E Hl. unfold bind in E. rewrite MockRemote_init_sessions in E.
  unfold wrapper. unfold bind at 1. rewrite MockRemote_init_sessions.
  unfold bind at 1. rewrite E. rewrite Hl.
  unfold bind at 1, ret_ at 1. reflexivity.
Qed.

Lemma waits_fit_sessions_or_default (sessions : list Session.t) :
  Forall Session.waits_fit sessions →
  Forall Session.waits_fit
    (match sessions with [] => [default_session] | _ => sessions end).
Proof.
  intros H. destruct sessions; [| exact H].
  repeat constructor.
Qed.

(** C4 (as amended). For sessions whose commands' [waits] fit a C
    [ssize_t], the harness starts and the test body is called; when the
    wrapped test body raises, [stop()] is still invoked: the name
    [SSHClient] is bound again to what it was before the wrapper ran, and
    the sessions are verified in declared order up to and including the
    first one that fails, which is all of them when none fails. The
    failure of a verification is what the wrapper then raises; with no
    failure it raises the exception of the test body. *)
Theorem wrapper_stops_when_the_test_raises :
  ∀ (sessions : list Session.t) (f : test_fn) (args : list arg) (w : World),
    Forall Session.waits_fit sessions →
    ∃ remote it w0 extra,
      (let* remote := MockRemote.__init__ None None None None None None
                        (Some sessions) false in
       MockRemote.start remote) w = (Ok (remote, it), w0) ∧
      itertools.to_list it = Some extra ∧
      ∀ e w1,
        f (args ++ (Chan <$> extra)) w0 = (Raise e, w1) →
        (Forall (passes w1) (MockRemote.sessions remote) →
           ∃ w',
             wrapper sessions f args w = (Raise e, w') ∧
             SSHClient w' = SSHClient w ∧
             trace w' = trace w1 ++ ev_patcher_stop ::
                          (verified <$> MockRemote.sessions remote)) ∧
        (∀ pre s post e',
           MockRemote.sessions remote = pre ++ s :: post →
           Forall (passes w1) pre →
           (Session.sanity_check s w1).1 = Raise e' →
           ∃ w',
             wrapper sessions f args w = (Raise e', w') ∧
             SSHClient w' = SSHClient w ∧
             trace w' = trace w1 ++ ev_patcher_stop :: (verified <$> pre ++ [s])).
Proof.
  intros sessions f args w Hfit.
  set (ss0 := match sessions with [] => [default_session] | _ => sessions end).
  destruct (start_eq ss0 None w (waits_fit_sessions_or_default sessions Hfit))
    as (ss' & E & _).
  assert (E0 : (let* remote := MockRemote.__init__ None None None None None None
                                 (Some sessions) false in
                MockRemote.start remote) w = MockRemote.start (MockRemote.mk ss0 None) w).
  { unfold bind. rewrite MockRemote_init_sessions. reflexivity. }
  rewrite <- E0 in E.
  do 4 eexists. split; [exact E |]. split; [apply to_list_chain_from_iterable |].
  intros e w1 Hf.
  rewrite (wrapper_eq sessions f args w _ _ _ _ E (to_list_chain_from_iterable _)).
  unfold try_finally. rewrite Hf. unfold bind. cbn [MockRemote.sessions].
  split.
  - intros Hpass. rewrite (stop_pass ss' (SSHClient w) w1 Hpass). unfold ret_.
    eexists. split; [reflexivity |]. split; reflexivity.
  - intros pre s post e' -> Hpass He.
    rewrite (stop_fail pre post s e' (SSHClient w) w1 Hpass He).
    eexists. split; [reflexivity |]. split; reflexivity.
Qed.

(** C4 (as stated) fails: with two sessions and a test body that raises
    at once, the first session fails verification and the second one is
    never verified. *)
Lemma wrapper_leaves_the_second_session_unverified :
  (wrapper [default_session; default_session] boom [] empty_world).1 =
    Raise (AssertionError "Expected to be called once") ∧
  trace (wrapper [default_session; default_session] boom [] empty_world).2 =
    [ev_patcher_start; ev_generate_mocks 0; ev_generate_mocks 1;
     ev_patcher_stop; ev_sanity_check (Some 0)] ∧
  ev_sanity_check (Some 1) ∉
    trace (wrapper [default_session; default_session] boom [] empty_world).2.
Proof.
  split; [vm_compute; reflexivity |]. split; [vm_compute; reflexivity |].
  apply (bool_decide_unpack _). vm_compute. exact I.
Qed.

Lemma wrapper_stops_after_boom :
  ∃ w',
    wrapper [default_session; default_session] boom [] empty_world =
      (Raise (AssertionError "Expected to be called once"), w') ∧
    SSHClient w' = Real ∧
    trace w' = [ev_patcher_start; ev_generate_mocks 0; ev_generate_mocks 1;
                ev_patcher_stop; ev_sanity_check (Some 0)].
Proof.
  destruct (wrapper_stops_when_the_test_raises
              [default_session; default_session] boom [] empty_world
              ltac:(repeat constructor))
    as (remote & it & w0 & extra & E & _ & H).
  vm_compute in E. injection E as <- <- <-.
  destruct (H (Exception "boom") _ eq_refl) as [_ H2].
  destruct (H2 [] _ _ (AssertionError "Expected to be called once")
              eq_refl (Forall_nil_2 _) ltac:(vm_compute; reflexivity))
    as (w' & Hw & Hb & Ht).
  exists w'. split; [exact Hw |]. split; [exact Hb |]. rewrite Ht. reflexivity.
Defined.

Lemma stop_two_unused_sessions :
  ∃ w',
    MockRemote.stop
      (MockRemote.mk (MockRemote.sessions (started [default_session; default_session]).1)
                     (Some (patch.mk (Some Real))))
      (started [default_session; default_session]).2 =
      (Raise (AssertionError "Expected to be called once"), w') ∧
    SSHClient w' = Real ∧
    trace w' = [ev_patcher_start; ev_generate_mocks 0; ev_generate_mocks 1;
                ev_patcher_stop; ev_sanity_check (Some 0)].
Proof.
  destruct (proj2 (stop_unpatches_then_verifies_fail_fast
                     (MockRemote.sessions (started [default_session; default_session]).1)
                     Real (started [default_session; default_session]).2)
              [] (Session.mk None None None
                    [Command.__init__ None None None None None None] (Some 0) [0])
              [Session.mk None None None
                 [Command.__init__ None None None None None None] (Some 1) [1]]
              (AssertionError "Expected to be called once")
              ltac:(vm_compute; reflexivity) (Forall_nil_2 _)
              ltac:(vm_compute; reflexivity))
    as (w' & Hw & Hb & Ht).
  exists w'. split; [exact Hw |]. split; [exact Hb |]. rewrite Ht. reflexivity.
Defined.

(** * Further properties of the harness *)

(** ** Writing to a channel *)

(** A write with the cursor at the end appends. *)
Lemma BytesIO_write_at_end (data : bytes) (b : BytesIO.t) :
  BytesIO.pos b = length (BytesIO.buf b) →
  BytesIO.write data b =
    (Z.of_nat (length data),
     BytesIO.mk (BytesIO.buf b ++ data) (length (BytesIO.buf b ++ data))).
Proof.
  intros H. unfold BytesIO.write. rewrite H, Nat.sub_diag. simpl.
  rewrite app_nil_r, firstn_all, drop_ge, app_nil_r, length_app by lia.
  reflexivity.
Qed.

(** X1. Writes to a channel accumulate in order: after [sendall] of
    [d1 .. dn] on a channel whose stdin cursor is at the end (as it is on
    a new channel), every call has returned the length of its data, the
    recorded stdin is what it was followed by [d1 ++ .. ++ dn], the
    cursor is at the end again, and nothing else of the channel has
    changed. *)
Theorem sendall_accumulates_in_order :
  ∀ (ds : list bytes) (r : chan_ref) (ch : MockChannel.t) (w : World),
    channels w !! r = Some ch →
    BytesIO.pos (MockChannel._stdin ch) = length (BytesIO.buf (MockChannel._stdin ch)) →
    ∃ w',
      for_each (Remote.sendall r) ds w = (Ok ((λ d, Z.of_nat (length d)) <$> ds), w') ∧
      channels w' !! r =
        Some (MockChannel.mk (MockChannel.__stdout ch) (MockChannel.__stderr ch)
                (BytesIO.mk (BytesIO.getvalue (MockChannel._stdin ch) ++ concat ds)
                   (length (BytesIO.getvalue (MockChannel._stdin ch) ++ concat ds)))
                (MockChannel.exec_command ch) (MockChannel.exit_status_ready ch)
                (MockChannel.recv_exit_status ch)) ∧
      (∀ r', r' ≠ r → channels w' !! r' = channels w !! r') ∧
      clients w' = clients w ∧ SSHClient w' = SSHClient w ∧ trace w' = trace w.
Proof.
  induction ds as [|d ds IH]; intros r ch w Hr Hend.
  - exists w. simpl. unfold BytesIO.getvalue. rewrite app_nil_r, <- Hend.
    split; [reflexivity |]. split; [| auto].
    rewrite Hr. destruct ch as [? ? []]; reflexivity.
  - simpl. unfold bind at 1. unfold Remote.sendall at 1, on_channel at 1.
    rewrite Hr. unfold MockChannel.sendall.
    rewrite (BytesIO_write_at_end d _ Hend).
    set (ch1 := MockChannel.mk _ _ _ _ _ _).
    set (w1 := mkWorld _ _ _ _).
    assert (Hr1 : channels w1 !! r = Some ch1).
    { apply list_lookup_insert_eq. eapply lookup_lt_Some, Hr. }
    destruct (IH r ch1 w1 Hr1 eq_refl) as (w' & E & Hch & Hother & Hcl & Hb & Ht).
    exists w'. unfold bind at 1. rewrite E. unfold ret_.
    split; [reflexivity |]. split; [| split; [| auto]].
    + rewrite Hch. subst ch1. unfold BytesIO.getvalue. simpl.
      rewrite <- !app_assoc. reflexivity.
    + intros r' Hne. rewrite (Hother r' Hne). subst w1. simpl.
      apply list_lookup_insert_ne. congruence.
Qed.

Lemma sendall_a_then_b :
  ∃ w',
    for_each (Remote.sendall 0) [[Byte.x61]; [Byte.x62]]
      (mkWorld Real [Session.channel_of (Command.__init__ None None None None None None)]
               [] []) =
      (Ok [1%Z; 1%Z], w') ∧
    (BytesIO.getvalue ∘ MockChannel._stdin <$> channels w') = [[Byte.x61; Byte.x62]].
Proof.
  destruct (sendall_accumulates_in_order [[Byte.x61]; [Byte.x62]] 0
              (Session.channel_of (Command.__init__ None None None None None None))
              (mkWorld Real
                 [Session.channel_of (Command.__init__ None None None None None None)]
                 [] [])
              eq_refl eq_refl) as (w' & E & Hch & _).
  exists w'. split; [exact E |].
  vm_compute in E. injection E as <-. reflexivity.
Defined.

(** ** Reading a channel to its end *)

Lemma drop_length_take {A} (n : nat) (l : list A) :
  drop (length (take n l)) l = drop n l.
Proof.
  rewrite length_take. destruct (Nat.le_ge_cases n (length l)) as [H | H].
  - rewrite Nat.min_l by exact H. reflexivity.
  - rewrite Nat.min_r by exact H. rewrite !drop_ge by lia. reflexivity.
Qed.

(** [k] reads of [n] bytes return the first [k * n] unread bytes, in
    chunks of at most [n], and leave the rest unread. *)
Lemma BytesIO_repeat_read (k n : nat) (b : BytesIO.t) :
  (Z.of_nat n ≤ PY_SSIZE_T_MAX)%Z →
  ∃ chunks b',
    repeat_call k (BytesIO.read (Z.of_nat n)) b = (Ok chunks, b') ∧
    length chunks = k ∧
    concat chunks = take (k * n) (BytesIO.unread b) ∧
    Forall (λ d, length d ≤ n) chunks ∧
    BytesIO.unread b' = drop (k * n) (BytesIO.unread b).
Proof.
  intros Hmax. revert b. induction k as [|k IH]; intros b.
  - exists [], b. simpl. repeat split; constructor.
  - pose proof (BytesIO_read_spec (Z.of_nat n) b ltac:(lia)) as E.
    rewrite Nat2Z.id in E.
    set (d := take n (BytesIO.unread b)) in E.
    set (b1 := BytesIO.mk (BytesIO.buf b) (BytesIO.pos b + length d)) in E.
    assert (R4 : BytesIO.unread b1 = drop n (BytesIO.unread b)).
    { subst b1. rewrite BytesIO_unread_advance. subst d. apply drop_length_take. }
    destruct (IH b1) as (chunks & b' & Ek & Hlen & Hcat & Hle & Hun).
    exists (d :: chunks), b'. cbn [repeat_call]. rewrite E, Ek.
    split; [reflexivity |]. split; [simpl; congruence |].
    split; [| split].
    + simpl concat. rewrite Hcat, R4. subst d. rewrite take_take_drop. reflexivity.
    + constructor; [| exact Hle]. subst d. rewrite length_take. lia.
    + rewrite Hun, R4, drop_drop. reflexivity.
Qed.

Lemma repeat_call_recv (k : nat) (n : Z) (ch : MockChannel.t) :
  repeat_call k (MockChannel.recv n) ch =
    let '(r, io) := repeat_call k (BytesIO.read n) (MockChannel.__stdout ch) in
    (r, MockChannel.mk io (MockChannel.__stderr ch) (MockChannel._stdin ch)
          (MockChannel.exec_command ch) (MockChannel.exit_status_ready ch)
          (MockChannel.recv_exit_status ch)).
Proof.
  apply (repeat_call_lens MockChannel.__stdout
           (λ io s, MockChannel.mk io (MockChannel.__stderr s) (MockChannel._stdin s)
                      (MockChannel.exec_command s) (MockChannel.exit_status_ready s)
                      (MockChannel.recv_exit_status s))
           (BytesIO.read n)); try reflexivity.
  intros []; reflexivity.
Qed.

Lemma repeat_call_recv_stderr (k : nat) (n : Z) (ch : MockChannel.t) :
  repeat_call k (MockChannel.recv_stderr n) ch =
    let '(r, io) := repeat_call k (BytesIO.read n) (MockChannel.__stderr ch) in
    (r, MockChannel.mk (MockChannel.__stdout ch) io (MockChannel._stdin ch)
          (MockChannel.exec_command ch) (MockChannel.exit_status_ready ch)
          (MockChannel.recv_exit_status ch)).
Proof.
  apply (repeat_call_lens MockChannel.__stderr
           (λ io s, MockChannel.mk (MockChannel.__stdout s) io (MockChannel._stdin s)
                      (MockChannel.exec_command s) (MockChannel.exit_status_ready s)
                      (MockChannel.recv_exit_status s))
           (BytesIO.read n)); try reflexivity.
  intros []; reflexivity.
Qed.

(** What a read does once nothing is unread: nothing for a size that
    fits a C [ssize_t], [OverflowError] for one that does not. *)
Lemma BytesIO_read_at_end (m : Z) (b : BytesIO.t) :
  BytesIO.unread b = [] →
  (fits_ssize_t m = true → (BytesIO.read m b).1 = Ok []) ∧
  (fits_ssize_t m = false → ∃ msg, (BytesIO.read m b).1 = Raise (OverflowError msg)).
Proof.
  intros Hun. split; intros Hm.
  - exact (proj1 (BytesIO_read_exhausted m b Hm Hun)).
  - destruct (BytesIO_read_overflow m b Hm) as [msg E]. exists msg. rewrite E. reflexivity.
Qed.

(** X2. The configured output is read back exactly: on the channel
    generated for a command, [k] calls of [recv(n)] with
    [0 < n ≤ PY_SSIZE_T_MAX] and [k * n] at least the length of [out]
    return chunks of at most [n] bytes whose concatenation is [out];
    every later [recv] with a size that fits a C [ssize_t] returns
    nothing, and one with a size that does not fit raises
    [OverflowError]; likewise for [recv_stderr] and [err]. *)
Theorem recv_in_chunks_returns_the_configured_output :
  ∀ (c : Command.t) (ch : MockChannel.t) (w : World) (r : chan_ref) (n k : nat),
    0 < n →
    (Z.of_nat n ≤ PY_SSIZE_T_MAX)%Z →
    Session.new_channel c = Ok ch →
    channels w !! r = Some ch →
    (length (Command.out c) ≤ k * n →
       ∃ chunks w',
         Remote.times k (Remote.recv r (Z.of_nat n)) w = (Ok chunks, w') ∧
         concat chunks = Command.out c ∧
         Forall (λ d, length d ≤ n) chunks ∧
         (∀ m, fits_ssize_t m = true → (Remote.recv r m w').1 = Ok []) ∧
         (∀ m, fits_ssize_t m = false →
               ∃ msg, (Remote.recv r m w').1 = Raise (OverflowError msg))) ∧
    (length (Command.err c) ≤ k * n →
       ∃ chunks w',
         Remote.times k (Remote.recv_stderr r (Z.of_nat n)) w = (Ok chunks, w') ∧
         concat chunks = Command.err c ∧
         Forall (λ d, length d ≤ n) chunks ∧
         (∀ m, fits_ssize_t m = true → (Remote.recv_stderr r m w').1 = Ok []) ∧
         (∀ m, fits_ssize_t m = false →
               ∃ msg, (Remote.recv_stderr r m w').1 = Raise (OverflowError msg))).
Proof.
  intros c ch w r n k Hn Hmax Hch Hr.
  apply new_channel_ok_inv in Hch as [_ ->].
  split; intros Hlen.
  - destruct (BytesIO_repeat_read k n (MockChannel.__stdout (Session.channel_of c)) Hmax)
      as (chunks & b' & E & _ & Hcat & Hle & Hun).
    unfold Remote.recv at 1. rewrite (times_on_channel _ k r _ w Hr), repeat_call_recv, E.
    cbn [fst snd]. do 2 eexists. split; [reflexivity |].
    change (BytesIO.unread (MockChannel.__stdout (Session.channel_of c)))
      with (Command.out c) in Hcat, Hun.
    rewrite take_ge in Hcat by exact Hlen. rewrite drop_ge in Hun by exact Hlen.
    split; [exact Hcat |]. split; [exact Hle |].
    assert (Hat : ∀ m,
              (Remote.recv r m
                 (mkWorld (SSHClient w)
                    (<[r := MockChannel.mk b'
                              (MockChannel.__stderr (Session.channel_of c))
                              (MockChannel._stdin (Session.channel_of c))
                              (MockChannel.exec_command (Session.channel_of c))
                              (MockChannel.exit_status_ready (Session.channel_of c))
                              (MockChannel.recv_exit_status (Session.channel_of c))]>
                       (channels w)) (clients w) (trace w))).1 = (BytesIO.read m b').1).
    { intros m. unfold Remote.recv, on_channel. cbn [channels].
      rewrite list_lookup_insert_eq by (eapply lookup_lt_Some, Hr).
      unfold MockChannel.recv. cbn [MockChannel.__stdout].
      destruct (BytesIO.read m b'); reflexivity. }
    split; intros m Hm; rewrite Hat; apply (BytesIO_read_at_end m b' Hun); exact Hm.
  - destruct (BytesIO_repeat_read k n (MockChannel.__stderr (Session.channel_of c)) Hmax)
      as (chunks & b' & E & _ & Hcat & Hle & Hun).
    unfold Remote.recv_stderr at 1.
    rewrite (times_on_channel _ k r _ w Hr), repeat_call_recv_stderr, E.
    cbn [fst snd]. do 2 eexists. split; [reflexivity |].
    change (BytesIO.unread (MockChannel.__stderr (Session.channel_of c)))
      with (Command.err c) in Hcat, Hun.
    rewrite take_ge in Hcat by exact Hlen. rewrite drop_ge in Hun by exact Hlen.
    split; [exact Hcat |]. split; [exact Hle |].
    assert (Hat : ∀ m,
              (Remote.recv_stderr r m
                 (mkWorld (SSHClient w)
                    (<[r := MockChannel.mk
                              (MockChannel.__stdout (Session.channel_of c)) b'
                              (MockChannel._stdin (Session.channel_of c))
                              (MockChannel.exec_command (Session.channel_of c))
                              (MockChannel.exit_status_ready (Session.channel_of c))
                              (MockChannel.recv_exit_status (Session.channel_of c))]>
                       (channels w)) (clients w) (trace w))).1 = (BytesIO.read m b').1).
    { intros m. unfold Remote.recv_stderr, on_channel. cbn [channels].
      rewrite list_lookup_insert_eq by (eapply lookup_lt_Some, Hr).
      unfold MockChannel.recv_stderr. cbn [MockChannel.__stderr].
      destruct (BytesIO.read m b'); reflexivity. }
    split; intros m Hm; rewrite Hat; apply (BytesIO_read_at_end m b' Hun); exact Hm.
Qed.

Lemma recv_abc_in_two_chunks :
  ∃ ch chunks w',
    Session.new_channel
      (Command.__init__ None (Some [Byte.x61; Byte.x62; Byte.x63]) None None None None)
      = Ok ch ∧
    Remote.times 2 (Remote.recv 0 2) (mkWorld Real [ch] [] []) = (Ok chunks, w') ∧
    concat chunks = [Byte.x61; Byte.x62; Byte.x63].
Proof.
  destruct (proj1 (recv_in_chunks_returns_the_configured_output
                     (Command.__init__ None (Some [Byte.x61; Byte.x62; Byte.x63])
                        None None None None)
                     (Session.channel_of
                        (Command.__init__ None (Some [Byte.x61; Byte.x62; Byte.x63])
                           None None None None))
                     (mkWorld Real
                        [Session.channel_of
                           (Command.__init__ None (Some [Byte.x61; Byte.x62; Byte.x63])
                              None None None None)] [] [])
                     0 2 2 ltac:(lia) ltac:(apply Z.leb_le; reflexivity)
                     eq_refl eq_refl) ltac:(simpl; lia))
    as (chunks & w' & E & Hc & _).
  eexists _, chunks, w'. split; [reflexivity |]. split; [exact E | exact Hc].
Defined.

(** ** The transport is always active *)

Lemma take_next_repeat_none {A} (x : A) (n : nat) :
  itertools.take_next n (itertools.repeat x None) =
    (replicate n x, itertools.repeat x None).
Proof. induction n as [|n IH]; simpl; [| rewrite IH]; reflexivity. Qed.

Lemma repeat_call_active (a : call) (n : nat) (c : MockClient.t) :
  repeat_call n (λ c, let '(r, m) := mock.__call__ a (MockClient.active c) in
                      (r, MockClient.mk (MockClient.get_transport c) (MockClient.connect c)
                            m (MockClient.open_session c))) c =
    let '(r, m) := repeat_call n (mock.__call__ a) (MockClient.active c) in
    (r, MockClient.mk (MockClient.get_transport c) (MockClient.connect c)
          m (MockClient.open_session c)).
Proof.
  apply (repeat_call_lens MockClient.active
           (λ m s, MockClient.mk (MockClient.get_transport s) (MockClient.connect s)
                     m (MockClient.open_session s))
           (mock.__call__ a)); try reflexivity.
  intros []; reflexivity.
Qed.

(** X3. The transport of a generated client reports itself active on
    every access: [n] reads of [transport.active] all give [True], and
    leave the property as it was, [repeat(True)] never running out. *)
Theorem transport_active_is_always_true :
  ∀ (cl : client_ref) (c : MockClient.t) (w : World) (n : nat),
    clients w !! cl = Some c →
    mock.side_effect (MockClient.active c) = Some (itertools.repeat true None) →
    ∃ c' w',
      Remote.times n (Remote.active cl) w = (Ok (replicate n (Value true)), w') ∧
      clients w' !! cl = Some c' ∧
      mock.side_effect (MockClient.active c') = Some (itertools.repeat true None) ∧
      MockClient.get_transport c' = MockClient.get_transport c ∧
      MockClient.connect c' = MockClient.connect c ∧
      MockClient.open_session c' = MockClient.open_session c.
Proof.
  intros cl c w n Hc Hse. unfold Remote.active.
  rewrite (times_on_client _ n cl c w Hc), repeat_call_active.
  rewrite (mock_calls_side_effect call_ n _ _ _ _ Hse (take_next_repeat_none true n))
    by apply length_replicate.
  cbn [fst snd]. do 2 eexists. split; [rewrite fmap_replicate; reflexivity |].
  split; [apply list_lookup_insert_eq; eapply lookup_lt_Some, Hc |].
  repeat split.
Qed.

Lemma new_client_transport_is_active :
  ∃ c' w',
    Remote.times 3 (Remote.active 0) (mkWorld Real [] [Session.new_client [4; 5]] []) =
      (Ok [Value true; Value true; Value true], w') ∧
    clients w' !! 0 = Some c'.
Proof.
  destruct (transport_active_is_always_true 0 (Session.new_client [4; 5])
              (mkWorld Real [] [Session.new_client [4; 5]] []) 3 eq_refl eq_refl)
    as (c' & w' & E & Hc & _).
  exists c', w'. split; [exact E | exact Hc].
Defined.

(** ** What [Session.__init__] yields *)

Lemma Session_init_shorthand (host user : option string) (port : option Z)
    (commands : option (list Command.t)) (cmd : option string)
    (out in_ err : option bytes) (exit waits : option Z) (w : World) :
  Session.params_truthy cmd out err exit waits = true →
  default [] commands = [] →
  Session.__init__ host user port commands cmd out in_ err exit waits w =
    (Ok (Session.mk host user port
           [Command.mk cmd (default [] out) (default [] err) in_
              (default 0%Z exit) (default 0%Z waits)] None []), w).
Proof.
  intros Hp Hc. unfold Session.__init__.
  rewrite (params_truthy_eq cmd out err exit waits), Hp, Hc. reflexivity.
Qed.

(** X4. What construction yields when it does not raise. With a truthy
    shorthand field and no (or an empty) [commands], the session has
    exactly one command, made of the shorthand fields with [Command]'s
    defaults for those not given, [in_] included. With no truthy
    shorthand field, the given commands are kept, an empty or missing
    list becomes the single default [Command], and [in_] is ignored
    whatever it is. The store is never touched. *)
Theorem Session_init_yields_its_commands :
  ∀ host user port (commands : option (list Command.t)) cmd out in_ err exit waits
    (w : World),
    (Session.params_truthy cmd out err exit waits = true →
     default [] commands = [] →
     Session.__init__ host user port commands cmd out in_ err exit waits w =
       (Ok (Session.mk host user port
              [Command.mk cmd (default [] out) (default [] err) in_
                 (default 0%Z exit) (default 0%Z waits)] None []), w)) ∧
    (Session.params_truthy cmd out err exit waits = false →
     Session.__init__ host user port commands cmd out in_ err exit waits w =
       (Ok (Session.mk host user port
              (match default [] commands with
               | [] => [Command.mk None [] [] None 0 0]
               | cs => cs
               end) None []), w)).
Proof.
  intros. split.
  - apply Session_init_shorthand.
  - apply Session_init_no_params.
Qed.

Lemma Session_init_in_alone_is_dropped :
  Session.params_truthy None None None None None = false ∧
  Session.__init__ None None None None None None (Some [Byte.x78]) None None None
    empty_world =
    (Ok (Session.mk None None None [Command.mk None [] [] None 0 0] None []), empty_world).
Proof.
  split; [reflexivity |].
  apply (proj2 (Session_init_yields_its_commands None None None None None None
                  (Some [Byte.x78]) None None None empty_world)).
  reflexivity.
Defined.

(** X5. A constructed session always has at least one command: the
    constructor either raises [ValueError] or returns a session with a
    non-empty command list, the host, user and port it was given and no
    mocks yet; either way it leaves the store alone. *)
Theorem Session_init_never_yields_an_empty_session :
  ∀ host user port (commands : option (list Command.t)) cmd out in_ err exit waits
    (w : World),
    (∃ msg, Session.__init__ host user port commands cmd out in_ err exit waits w =
              (Raise (ValueError msg), w)) ∨
    (∃ s, Session.__init__ host user port commands cmd out in_ err exit waits w = (Ok s, w) ∧
          Session.commands s ≠ [] ∧
          Session.host s = host ∧ Session.user s = user ∧ Session.port s = port ∧
          Session.client s = None ∧ Session.channels s = []).
Proof.
  intros.
  destruct (Session.params_truthy cmd out err exit waits) eqn:Hp.
  - destruct (default [] commands) as [|c cs] eqn:Hc.
    + right. eexists. split; [apply Session_init_shorthand; assumption |].
      repeat split. discriminate.
    + left. eexists. unfold Session.__init__.
      rewrite (params_truthy_eq cmd out err exit waits), Hp, Hc. reflexivity.
  - right. eexists. split; [apply Session_init_no_params; assumption |].
    repeat split. destruct (default [] commands); discriminate.
Qed.

(** ** Verification, exactly *)

Lemma for_each_constant {A B} (f : A → M B) (y : B) (l : list A) (w : World) :
  Forall (λ x, f x w = (Ok y, w)) l →
  for_each f l w = (Ok (replicate (length l) y), w).
Proof.
  intros H. induction H as [|x l Hx _ IH]; simpl; [reflexivity |].
  unfold bind at 1. rewrite Hx. unfold bind at 1. rewrite IH. reflexivity.
Qed.

(** X6. Verification is exact. [sanity_check] passes if and only if the
    session's client is in the store, [get_transport] was called exactly
    once and without arguments, [connect] was called as expected, every
    (channel, command) pair is as expected, and [open_session] was
    called once per pair, each time without arguments. *)
Theorem sanity_check_passes_exactly_when_used_as_declared :
  ∀ (s : Session.t) (w : World),
    (Session.sanity_check s w).1 = Ok tt ↔
    ∃ cl c,
      Session.client s = Some cl ∧ clients w !! cl = Some c ∧
      mock.call_args_list (MockClient.get_transport c) = [call_] ∧
      connected_as_expected s c ∧
      Forall (λ p, ∃ ch, channels w !! p.1 = Some ch ∧
                         exec_as_expected p.2 ch ∧ stdin_as_expected p.2 ch)
             (zip (Session.channels s) (Session.commands s)) ∧
      mock.call_args_list (MockClient.open_session c) =
        replicate (length (zip (Session.channels s) (Session.commands s))) call_.
Proof.
  intros s w. split.
  - intros H.
    assert (H' : Session.sanity_check s w = (Ok tt, (Session.sanity_check s w).2))
      by (rewrite <- H; destruct (Session.sanity_check s w); reflexivity).
    apply sanity_check_ok_inv in H' as (cl & c & H1 & H2 & H3 & H4 & H5 & H6 & _).
    exists cl, c. repeat (split; [assumption |]). assumption.
  - intros (cl & c & Ecl & Ec & Ht & Hconn & Hpairs & Hopens).
    rewrite (sanity_check_with_client s w cl c Ecl Ec). cbn [fst].
    assert (E1 : mock.assert_called_once_with (Expected [] ∅)
                   (MockClient.get_transport c) = Ok tt).
    { apply assert_called_once_with_ok. exists call_. split; [exact Ht |].
      apply call_matches_no_arguments. reflexivity. }
    rewrite E1. rewrite (proj2 (connected_as_expected_iff s c) Hconn).
    rewrite (for_each_constant Session.check_pair call_).
    + cbn [fst]. apply eq__ok. exact Hopens.
    + eapply Forall_impl; [exact Hpairs |].
      intros [r cmd] (ch & Hr & He & Hs). simpl in *.
      apply (check_pair_spec r cmd ch w Hr). auto.
Qed.

(** X7. Verification only looks: [sanity_check] leaves every channel,
    every client and the binding of [SSHClient] as they were, and running
    it again gives the same verdict. *)
Theorem sanity_check_changes_nothing_and_is_repeatable :
  ∀ (s : Session.t) (w : World),
    channels (Session.sanity_check s w).2 = channels w ∧
    clients (Session.sanity_check s w).2 = clients w ∧
    SSHClient (Session.sanity_check s w).2 = SSHClient w ∧
    (Session.sanity_check s (Session.sanity_check s w).2).1 = (Session.sanity_check s w).1.
Proof.
  intros s w. rewrite (sanity_check_frame s w w eq_refl eq_refl). cbn [snd fst].
  repeat split.
  rewrite (sanity_check_frame s (logged _ w) w eq_refl eq_refl). reflexivity.
Qed.

(** ** A session nobody used *)

(** X8. [generate_mocks] only adds to the store: the channels and clients
    that were there stay where they are and as they are, and the binding
    of [SSHClient] is not touched. When every command's [waits] fits a C
    [ssize_t] it returns, having added one client and one channel per
    command; these mocks are unused, so a session verified right after
    its mocks were generated fails with an [AssertionError]. When some
    [waits] does not fit, it raises [OverflowError]. *)
Theorem generate_mocks_adds_unused_mocks :
  ∀ (s : Session.t) (w : World),
    (Session.waits_fit s →
     ∃ s' w',
       Session.generate_mocks s w = (Ok s', w') ∧
       channels w `prefix_of` channels w' ∧
       clients w `prefix_of` clients w' ∧
       SSHClient w' = SSHClient w ∧
       length (channels w') = length (channels w) + length (Session.commands s) ∧
       length (clients w') = S (length (clients w)) ∧
       ∃ msg, (Session.sanity_check s' w').1 = Raise (AssertionError msg)) ∧
    (¬ Session.waits_fit s →
     ∃ msg w',
       Session.generate_mocks s w = (Raise (OverflowError msg), w') ∧
       channels w `prefix_of` channels w' ∧
       clients w `prefix_of` clients w' ∧
       SSHClient w' = SSHClient w).
Proof.
  intros s w. split.
  - intros Hfit. do 2 eexists. split; [apply generate_mocks_eq; exact Hfit |].
    cbn [channels clients SSHClient].
    split; [eexists; reflexivity |]. split; [eexists; reflexivity |].
    split; [reflexivity |].
    split; [rewrite length_app, length_fmap; reflexivity |].
    split; [rewrite length_app; simpl; lia |].
    erewrite sanity_check_with_client;
      [| reflexivity | cbn [clients]; apply list_lookup_middle; reflexivity].
    cbn [fst]. eexists. reflexivity.
  - intros Hno.
    destruct (generate_mocks_overflow s w Hno) as (msg & w' & E & Hb & Hch & Hcl).
    exists msg, w'. auto.
Qed.

Lemma generate_mocks_with_and_without_fitting_waits :
  (∃ s' w', Session.generate_mocks default_session empty_world = (Ok s', w') ∧
            length (channels w') = 1 ∧ length (clients w') = 1) ∧
  (∃ msg w',
     Session.generate_mocks
       (Session.mk None None None
          [Command.__init__ None None None None None (Some (2 ^ 63)%Z)] None [])
       empty_world = (Raise (OverflowError msg), w')).
Proof.
  split.
  - destruct (proj1 (generate_mocks_adds_unused_mocks default_session empty_world)
                ltac:(repeat constructor))
      as (s' & w' & E & _ & _ & _ & Hch & Hcl & _).
    exists s', w'. split; [exact E |]. split; [exact Hch | exact Hcl].
  - destruct (proj2 (generate_mocks_adds_unused_mocks
                       (Session.mk None None None
                          [Command.__init__ None None None None None (Some (2 ^ 63)%Z)]
                          None [])
                       empty_world))
      as (msg & w' & E & _).
    + intros H. apply Forall_cons in H as [H _]. vm_compute in H. discriminate H.
    + exists msg, w'. exact E.
Defined.

Lemma ls_session_was_used_as_declared :
  ∃ cl c,
    Session.client ls_session.1 = Some cl ∧ clients ls_session.2 !! cl = Some c ∧
    mock.call_args_list (MockClient.get_transport c) = [call_].
Proof.
  destruct (proj1 (sanity_check_passes_exactly_when_used_as_declared
                     ls_session.1 ls_session.2) ltac:(vm_compute; reflexivity))
    as (cl & c & H1 & H2 & H3 & _).
  exists cl, c. auto.
Defined.

(** ** How a [MockRemote] is built *)

Lemma shorthand_truthy_eq (cmd : option string) (out err : option bytes) (exit : option Z) :
  truthy (or_ (of_str cmd) (or_ (of_bytes out) (or_ (of_bytes err) (of_int exit)))) =
  Session.params_truthy cmd out err exit None.
Proof.
  unfold Session.params_truthy. rewrite !truthy_or_. simpl.
  rewrite orb_false_r, !orb_assoc. reflexivity.
Qed.

(** X9. Building a harness without [autostart] never raises and leaves
    the store alone. It always has at least one session: a non-empty
    [commands] gives one anonymous session with exactly these commands,
    whatever else was passed; otherwise a non-empty [sessions] is taken
    as it is, the shorthand fields being ignored; otherwise there is one
    session with one command, built from [cmd], [out], [err], [in_] and
    [exit] when one of [cmd], [out], [err], [exit] is truthy and the
    default [Command] when none is. *)
Theorem MockRemote_init_builds_its_sessions :
  ∀ cmd out err in_ exit (commands : option (list Command.t))
    (sessions : option (list Session.t)) (w : World),
    ∃ ss,
      MockRemote.__init__ cmd out err in_ exit commands sessions false w =
        (Ok (MockRemote.mk ss None), w) ∧
      ss ≠ [] ∧
      (default [] commands ≠ [] →
         ss = [Session.mk None None None (default [] commands) None []]) ∧
      (default [] commands = [] → default [] sessions ≠ [] →
         ss = default [] sessions) ∧
      (default [] commands = [] → default [] sessions = [] →
         ss = [Session.mk None None None
                 [if Session.params_truthy cmd out err exit None
                  then Command.mk cmd (default [] out) (default [] err) in_
                         (default 0%Z exit) 0
                  else Command.mk None [] [] None 0 0] None []]).
Proof.
  intros. unfold MockRemote.__init__.
  destruct (default [] commands) as [|c cs] eqn:Hc.
  - simpl negb. cbn iota.
    destruct (default [] sessions) as [|s0 ss0] eqn:Hs.
    + simpl bool_decide. cbn iota. rewrite shorthand_truthy_eq.
      destruct (Session.params_truthy cmd out err exit None) eqn:Hp.
      * unfold bind.
        rewrite (Session_init_shorthand None None None None cmd out in_ err exit None w Hp eq_refl).
        eexists. split; [reflexivity |]. split; [discriminate |].
        split; [congruence |]. split; [congruence | reflexivity].
      * unfold bind.
        eexists. split; [reflexivity |]. split; [discriminate |].
        split; [congruence |]. split; [congruence | reflexivity].
    + simpl bool_decide. cbn iota.
      eexists. split; [reflexivity |]. split; [discriminate |].
      split; [congruence |]. split; [reflexivity | congruence].
  - simpl negb. cbn iota. unfold bind.
    rewrite (Session_init_no_params None None None None None None None None None
               commands w eq_refl), Hc.
    eexists. split; [reflexivity |]. split; [discriminate |].
    split; [reflexivity |]. split; [congruence | congruence].
Qed.

(** With [autostart] the harness is also started, which does not raise
    either when the [waits] of its sessions fit. *)
Lemma MockRemote_init_autostart cmd out err in_ exit
    (commands : option (list Command.t)) (sessions : option (list Session.t)) (w : World)
    (ss : list Session.t) :
  MockRemote.__init__ cmd out err in_ exit commands sessions false w =
    (Ok (MockRemote.mk ss None), w) →
  Forall Session.waits_fit ss →
  ∃ ss' w', MockRemote.__init__ cmd out err in_ exit commands sessions true w =
              (Ok (MockRemote.mk ss' (Some (patch.mk (Some (SSHClient w))))), w').
Proof.
  intros E Hfit.
  unfold MockRemote.__init__ in E |- *.
  unfold bind at 1 in E. unfold bind at 1.
  match type of E with
  | context [match ?m w with _ => _ end] => destruct (m w) as [[ss0|e] w0] eqn:E0
  end; [| discriminate].
  unfold ret_ in E. injection E as -> ->.
  destruct (start_eq ss None w Hfit) as (ss' & Es & _).
  unfold bind. rewrite Es. unfold ret_. simpl. eauto.
Qed.

Lemma MockRemote_init_commands_win :
  ∃ ss,
    MockRemote.__init__ (Some "ls") None None None None
      (Some [Command.mk (Some "uname") [] [] None 0 0]) (Some [default_session]) false
      empty_world = (Ok (MockRemote.mk ss None), empty_world) ∧
    ss = [Session.mk None None None [Command.mk (Some "uname") [] [] None 0 0] None []].
Proof.
  destruct (MockRemote_init_builds_its_sessions (Some "ls") None None None None
              (Some [Command.mk (Some "uname") [] [] None 0 0]) (Some [default_session])
              empty_world) as (ss & E & _ & H & _).
  exists ss. split; [exact E |]. apply H. discriminate.
Defined.

(** ** The decorator when the test returns *)

(** X10. For sessions whose commands' [waits] fit a C [ssize_t], the
    harness starts and the wrapped test is called with its own
    positional arguments followed by the channels of all sessions, one
    per command. When it returns, [stop()] runs: the name [SSHClient] is
    bound again to what it was before the wrapper ran and the sessions
    are verified in order. The wrapper returns normally exactly when all
    of them pass, and otherwise raises the failure of the first session
    that does not. *)
Theorem wrapper_verifies_after_the_test_returns :
  ∀ (sessions : list Session.t) (f : test_fn) (args : list arg) (w : World),
    Forall Session.waits_fit sessions →
    ∃ remote it w0,
      (let* remote := MockRemote.__init__ None None None None None None
                        (Some sessions) false in
       MockRemote.start remote) w = (Ok (remote, it), w0) ∧
      length (concat (Session.channels <$> MockRemote.sessions remote)) =
        length (concat (Session.commands <$>
                          match sessions with [] => [default_session] | _ => sessions end)) ∧
      ∀ w1,
        f (args ++ (Chan <$> concat (Session.channels <$> MockRemote.sessions remote))) w0
          = (Ok tt, w1) →
        (Forall (passes w1) (MockRemote.sessions remote) →
           ∃ w',
             wrapper sessions f args w = (Ok tt, w') ∧
             SSHClient w' = SSHClient w ∧
             trace w' = trace w1 ++ ev_patcher_stop ::
                          (verified <$> MockRemote.sessions remote)) ∧
        (∀ pre s post e,
           MockRemote.sessions remote = pre ++ s :: post →
           Forall (passes w1) pre →
           (Session.sanity_check s w1).1 = Raise e →
           ∃ w',
             wrapper sessions f args w = (Raise e, w') ∧
             SSHClient w' = SSHClient w ∧
             trace w' = trace w1 ++ ev_patcher_stop :: (verified <$> pre ++ [s])).
Proof.
  intros sessions f args w Hfit.
  set (ss0 := match sessions with [] => [default_session] | _ => sessions end).
  destruct (start_eq ss0 None w (waits_fit_sessions_or_default sessions Hfit))
    as (ss' & E & _ & _ & Hch).
  assert (E0 : (let* remote := MockRemote.__init__ None None None None None None
                                 (Some sessions) false in
                MockRemote.start remote) w = MockRemote.start (MockRemote.mk ss0 None) w).
  { unfold bind. rewrite MockRemote_init_sessions. reflexivity. }
  rewrite <- E0 in E.
  do 3 eexists. split; [exact E |]. cbn [MockRemote.sessions].
  split; [rewrite Hch; apply length_seq |].
  intros w1 Hf.
  rewrite (wrapper_eq sessions f args w _ _ _ _ E (to_list_chain_from_iterable _)).
  unfold try_finally. rewrite Hf. unfold bind.
  split.
  - intros Hpass. rewrite (stop_pass ss' (SSHClient w) w1 Hpass). unfold ret_.
    eexists. split; [reflexivity |]. split; reflexivity.
  - intros pre s post e -> Hpass He.
    rewrite (stop_fail pre post s e (SSHClient w) w1 Hpass He).
    eexists. split; [reflexivity |]. split; reflexivity.
Qed.

(** X11. Used bare or with no argument, the decorator is the decorator
    of one default session: [Session()] is the session of one default
    command, and the three wrappers do the same to every test, argument
    list and store. *)
Theorem bare_mock_remote_is_one_default_session :
  ∀ (f : test_fn) (args : list arg) (w : World),
    Session.__init__ None None None None None None None None None None w =
      (Ok default_session, w) ∧
    ∃ bare empty one,
      mock_remote (Bare f) = inl bare ∧
      mock_remote (Sessions []) = inr empty ∧
      mock_remote (Sessions [default_session]) = inr one ∧
      bare args w = one f args w ∧
      empty f args w = one f args w.
Proof.
  intros f args w. split; [reflexivity |].
  do 3 eexists. repeat (split; [reflexivity |]).
  assert (H : decorator [] f args w = decorator [default_session] f args w).
  { unfold decorator, wrapper. unfold bind at 1.
    rewrite MockRemote_init_sessions. symmetry. unfold bind at 1.
    rewrite MockRemote_init_sessions. reflexivity. }
  split; exact H.
Qed.

(** X12. One construction per session: after [start()] on [m] sessions
    whose commands' [waits] fit a C [ssize_t], the patched [SSHClient]
    can be constructed [m] times, and one construction more raises
    [StopIteration]. *)
Theorem one_client_construction_per_session :
  ∀ (remote : MockRemote.t) (w : World) (a : call),
    Forall Session.waits_fit (MockRemote.sessions remote) →
    ∃ remote' it w',
      MockRemote.start remote w = (Ok (remote', it), w') ∧
      is_ok (Remote.times (length (MockRemote.sessions remote)) (Remote.SSHClient_ a) w').1
        = true ∧
      (Remote.times (S (length (MockRemote.sessions remote))) (Remote.SSHClient_ a) w').1
        = Raise StopIteration.
Proof.
  intros [ss p0] w a Hfit. cbn [MockRemote.sessions] in Hfit.
  destruct (start_eq ss p0 w Hfit) as (ss' & E & _).
  do 3 eexists. split; [exact E |]. cbn [MockRemote.sessions].
  split.
  - erewrite times_SSHClient by reflexivity. cbn [fst].
    erewrite mock_calls_side_effect;
      [reflexivity | reflexivity | apply take_next_of_list_take |].
    rewrite length_take, length_seq. lia.
  - erewrite times_SSHClient by reflexivity. cbn [fst].
    eapply mock_calls_exhausted;
      [reflexivity | apply take_next_of_list_take |].
    rewrite length_take, length_seq. lia.
Qed.

Lemma two_sessions_give_two_clients :
  ∃ remote' it w',
    MockRemote.start (MockRemote.mk [default_session; default_session] None) empty_world =
      (Ok (remote', it), w') ∧
    is_ok (Remote.times 2 (Remote.SSHClient_ call_) w').1 = true ∧
    (Remote.times 3 (Remote.SSHClient_ call_) w').1 = Raise StopIteration.
Proof.
  exact (one_client_construction_per_session
           (MockRemote.mk [default_session; default_session] None) empty_world call_
           ltac:(repeat constructor)).
Defined.

Lemma wrapper_passes_one_command_test :
  ∃ w',
    wrapper [default_session] one_command_test [] empty_world = (Ok tt, w') ∧
    SSHClient w' = Real.
Proof.
  destruct (wrapper_verifies_after_the_test_returns
              [default_session] one_command_test [] empty_world
              ltac:(repeat constructor))
    as (remote & it & w0 & E & _ & H).
  vm_compute in E. injection E as <- <- <-.
  destruct (H (one_command_test [] (started [default_session]).2).2
              ltac:(vm_compute; reflexivity)) as [H1 _].
  destruct H1 as (w' & Hw & Hb & _).
  - constructor; [vm_compute; reflexivity | constructor].
  - exists w'. split; [exact Hw | exact Hb].
Defined.

(** ** A session used as declared *)

Lemma sanity_check_ok_intro (s : Session.t) (w : World) (cl : client_ref) (c : MockClient.t) :
  Session.client s = Some cl →
  clients w !! cl = Some c →
  mock.call_args_list (MockClient.get_transport c) = [call_] →
  connected_as_expected s c →
  Forall (λ p, ∃ ch, channels w !! p.1 = Some ch ∧
                     exec_as_expected p.2 ch ∧ stdin_as_expected p.2 ch)
         (zip (Session.channels s) (Session.commands s)) →
  mock.call_args_list (MockClient.open_session c) =
    replicate (length (zip (Session.channels s) (Session.commands s))) call_ →
  (Session.sanity_check s w).1 = Ok tt.
Proof.
  intros Ecl Ec Ht Hconn Hpairs Hopens.
  rewrite (sanity_check_with_client s w cl c Ecl Ec). cbn [fst].
  assert (E1 : mock.assert_called_once_with (Expected [] ∅)
                 (MockClient.get_transport c) = Ok tt).
  { apply assert_called_once_with_ok. exists call_. split; [exact Ht |].
    apply call_matches_no_arguments. reflexivity. }
  rewrite E1. rewrite (proj2 (connected_as_expected_iff s c) Hconn).
  rewrite (for_each_constant Session.check_pair call_).
  - cbn [fst]. apply eq__ok. exact Hopens.
  - eapply Forall_impl; [exact Hpairs |].
    intros [r cmd] (ch & Hr & He & Hs). simpl in *.
    apply (check_pair_spec r cmd ch w Hr). auto.
Qed.

(** One round of the loop of [use_client]: the next channel is opened,
    the command executed and its stdin sent. *)
Lemma use_client_step (cl : client_ref) (c : MockClient.t) (r : chan_ref)
    (rs : list chan_ref) (e : val * bytes) (cmd : Command.t) (w : World) :
  clients w !! cl = Some c →
  mock.side_effect (MockClient.open_session c) = Some (itertools.of_list (r :: rs)) →
  channels w !! r = Some (Session.channel_of cmd) →
  (let* ch := Remote.open_session cl call_ in
   match ch with
   | Value ch => Remote.exec_command ch (Call [e.1] ∅) ;;; Remote.sendall ch e.2
   | Child => raise (Exception "not a channel")
   end) w =
    (Ok (Z.of_nat (length e.2)),
     mkWorld (SSHClient w) (<[r := used_channel (Session.channel_of cmd) e]> (channels w))
       (<[cl := MockClient.mk (MockClient.get_transport c) (MockClient.connect c)
                  (MockClient.active c)
                  (mkMock (mock.return_value (MockClient.open_session c))
                     (Some (itertools.of_list rs))
                     (mock.call_args_list (MockClient.open_session c) ++ [call_]))]>
          (clients w))
       (trace w)).
Proof.
  intros Hc Hse Hr.
  unfold bind at 1. unfold Remote.open_session, on_client. rewrite Hc.
  unfold mock.__call__. rewrite Hse. cbn [itertools.next].
  unfold bind at 1. unfold Remote.exec_command, on_channel.
  cbn [channels clients SSHClient trace]. rewrite Hr.
  unfold MockChannel.call_exec_command, mock.__call__. cbn.
  unfold Remote.sendall, on_channel. cbn [channels clients SSHClient trace].
  rewrite list_lookup_insert_eq by (eapply lookup_lt_Some, Hr).
  unfold MockChannel.sendall. cbn.
  rewrite list_insert_insert_eq, drop_nil, app_nil_r.
  reflexivity.
Qed.

(** The loop of [use_client] on channels that are all new: every channel
    is opened and used once, in order, and nothing else changes. *)
Lemma use_client_loop (cl : client_ref) (es : list (val * bytes)) :
  ∀ (rs : list chan_ref) (cmds : list Command.t) (c : MockClient.t) (w : World),
    clients w !! cl = Some c →
    mock.side_effect (MockClient.open_session c) = Some (itertools.of_list rs) →
    NoDup rs →
    Forall2 (λ r cmd, channels w !! r = Some (Session.channel_of cmd)) rs cmds →
    length es = length rs →
    ∃ ys w',
      for_each (λ e : val * bytes,
                  let* ch := Remote.open_session cl call_ in
                  match ch with
                  | Value ch =>
                      Remote.exec_command ch (Call [e.1] ∅) ;;; Remote.sendall ch e.2
                  | Child => raise (Exception "not a channel")
                  end) es w = (Ok ys, w') ∧
      SSHClient w' = SSHClient w ∧ trace w' = trace w ∧
      clients w' !! cl =
        Some (MockClient.mk (MockClient.get_transport c) (MockClient.connect c)
                (MockClient.active c)
                (mkMock (mock.return_value (MockClient.open_session c))
                   (Some (itertools.of_list []))
                   (mock.call_args_list (MockClient.open_session c) ++
                      replicate (length es) call_))) ∧
      (∀ r0, r0 ∉ rs → channels w' !! r0 = channels w !! r0) ∧
      (∀ i r e cmd, rs !! i = Some r → es !! i = Some e → cmds !! i = Some cmd →
                    channels w' !! r = Some (used_channel (Session.channel_of cmd) e)).
Proof.
  induction es as [|e es IH]; intros rs cmds c w Hc Hse Hnd HF Hlen.
  - destruct rs; [| discriminate]. exists [], w. simpl.
    split; [reflexivity |]. split; [reflexivity |]. split; [reflexivity |].
    split; [| split; [auto | intros i r e cmd H; discriminate]].
    rewrite Hc, app_nil_r, <- Hse.
    destruct c as [? ? ? []]; reflexivity.
  - destruct rs as [|r rs]; [discriminate |].
    inversion HF as [|r0 cmd rs0 cmds' Hr HF']; subst.
    apply NoDup_cons in Hnd as [Hnotin Hnd']. injection Hlen as Hlen.
    pose proof (use_client_step cl c r rs e cmd w Hc Hse Hr) as Hstep.
    set (c1 := MockClient.mk _ _ _ _) in Hstep.
    set (w1 := mkWorld _ _ _ _) in Hstep.
    assert (Hc1 : clients w1 !! cl = Some c1).
    { apply list_lookup_insert_eq. eapply lookup_lt_Some, Hc. }
    assert (HF1 : Forall2 (λ r cmd, channels w1 !! r = Some (Session.channel_of cmd))
                          rs cmds').
    { apply Forall2_same_length_lookup_2; [eapply Forall2_length, HF' |].
      intros i r' cmd' Hr' Hcmd'. subst w1. cbn [channels].
      rewrite list_lookup_insert_ne.
      - eapply (Forall2_lookup_lr _ _ _ _ _ _ HF' Hr' Hcmd').
      - intros ->. apply Hnotin. eapply list_elem_of_lookup_2, Hr'. }
    destruct (IH rs cmds' c1 w1 Hc1 eq_refl Hnd' HF1 Hlen)
      as (ys & w' & E & Hb & Ht & Hcl & Hframe & Hused).
    exists (Z.of_nat (length e.2) :: ys), w'.
    cbn [for_each]. unfold bind at 1. rewrite Hstep.
    unfold bind at 1. rewrite E. unfold ret_.
    split; [reflexivity |]. split; [exact Hb |]. split; [exact Ht |].
    split; [| split].
    + rewrite Hcl. subst c1. cbn. rewrite <- app_assoc. reflexivity.
    + intros r0 Hr0. rewrite Hframe by (intros H; apply Hr0; right; exact H).
      subst w1. cbn [channels]. apply list_lookup_insert_ne.
      intros ->. apply Hr0. left.
    + intros [|i] r' e' cmd' Hr' He' Hcmd'; simpl in Hr', He', Hcmd'.
      * injection Hr' as <-. injection He' as <-. injection Hcmd' as <-.
        rewrite (Hframe r Hnotin). subst w1. cbn [channels].
        apply list_lookup_insert_eq. eapply lookup_lt_Some, Hr.
      * eapply Hused; eassumption.
Qed.

(** X13. No false alarm: whatever the session whose commands' [waits]
    fit a C [ssize_t], when the code under test connects once with a target that agrees with the session's truthy
    [user], [host] and [port], gets the transport once, and for each
    command in order opens a channel, executes a text that agrees with
    the command's truthy [cmd] and sends a stdin that agrees with its
    truthy [in_], then all of this succeeds on the generated mocks and
    verification passes. *)
Theorem a_session_used_as_declared_passes :
  ∀ (s : Session.t) (w : World) (u h p : val) (es : list (val * bytes)),
    Session.waits_fit s →
    (∀ user, Session.user s = Some user → user ≠ EmptyString → u = Str user) →
    (∀ host, Session.host s = Some host → host ≠ EmptyString → h = Str host) →
    (∀ port, Session.port s = Some port → port ≠ 0%Z → p = Int port) →
    Forall2 as_declared es (Session.commands s) →
    ∃ s' w1 cl w2,
      Session.generate_mocks s w = (Ok s', w1) ∧
      Session.client s' = Some cl ∧
      use_client cl (<["username" := u]> (<["hostname" := h]> (<["port" := p]> ∅))) es w1
        = (Ok tt, w2) ∧
      (Session.sanity_check s' w2).1 = Ok tt.
Proof.
  intros s w u h p es Hfit Hu Hh Hp Hes.
  pose proof (Forall2_length _ _ _ Hes) as Hlen.
  set (tgt := <["username" := u]> (<["hostname" := h]> (<["port" := p]> ∅))).
  set (n := length (Session.commands s)) in *.
  set (refs := seq (length (channels w)) n).
  set (cl := length (clients w)).
  (* the store after connect and get_transport *)
  set (cb := MockClient.mk (mkMock Child None [call_]) (mkMock Child None [Call [] tgt])
               (mock.set_side_effect (itertools.repeat true None) mock.new)
               (mock.set_side_effect (itertools.of_list refs) mock.new)).
  set (wb := mkWorld (SSHClient w)
               (channels w ++ (Session.channel_of <$> Session.commands s))
               (clients w ++ [cb])
               (trace w ++ [ev_generate_mocks cl])).
  assert (Hcb : clients wb !! cl = Some cb) by (apply list_lookup_middle; reflexivity).
  destruct (use_client_loop cl es refs (Session.commands s) cb wb Hcb eq_refl)
    as (ys & w2 & Eloop & _ & _ & Hcl2 & _ & Hused).
  { apply NoDup_seq. }
  { apply Forall2_seq_lookup_app. }
  { subst refs. rewrite length_seq. exact Hlen. }
  do 2 eexists. exists cl, w2.
  split; [apply generate_mocks_eq; exact Hfit |]. split; [reflexivity |].
  fold n refs cl. split.
  - unfold use_client.
    unfold bind at 1. unfold Remote.connect, on_client. cbn [clients].
    rewrite list_lookup_middle by reflexivity. cbn.
    unfold bind at 1. unfold Remote.get_transport, on_client. cbn [clients].
    rewrite list_lookup_insert_eq by (rewrite length_app; simpl; lia). cbn.
    rewrite list_insert_insert_eq.
    rewrite insert_app_r_alt by lia. rewrite Nat.sub_diag. cbn [insert list_insert].
    fold tgt. fold cb. fold wb.
    unfold bind at 1. rewrite Eloop. reflexivity.
  - eapply sanity_check_ok_intro; [reflexivity | exact Hcl2 | reflexivity | | |].
    + exists u, h, p. cbn. auto.
    + cbn [Session.channels Session.commands]. apply Forall_lookup_2.
      intros i [r cmd] Hi. rewrite lookup_zip_with in Hi.
      destruct (refs !! i) as [r'|] eqn:Hr; [| discriminate]. simpl in Hi.
      destruct (Session.commands s !! i) as [cmd'|] eqn:Hcmd; [| discriminate].
      injection Hi as -> ->.
      destruct (Forall2_lookup_r _ _ _ _ _ Hes Hcmd) as (e & He & [Hd1 Hd2]).
      exists (used_channel (Session.channel_of cmd) e). split; [eapply Hused; eassumption |].
      split.
      * exists e.1. split; [reflexivity | exact Hd1].
      * intros data Hin Hne. cbn. apply Hd2; assumption.
    + cbn [Session.channels Session.commands MockClient.open_session call_args_list].
      rewrite length_zip. subst refs. rewrite length_seq, Hlen. fold n.
      rewrite Nat.min_id. reflexivity.
Qed.

Lemma whoami_then_uname_passes :
  ∃ s' w1 cl w2,
    Session.generate_mocks
      (Session.mk (Some "x") None None
         [Command.mk (Some "whoami") [Byte.x72] [] None 0 0;
          Command.mk (Some "uname") [Byte.x4c] [] None 0 2] None [])
      empty_world = (Ok s', w1) ∧
    Session.client s' = Some cl ∧
    use_client cl (target "u" "x" 22) [(Str "whoami", []); (Str "uname", [])] w1
      = (Ok tt, w2) ∧
    (Session.sanity_check s' w2).1 = Ok tt.
Proof.
  apply (a_session_used_as_declared_passes
           (Session.mk (Some "x") None None
              [Command.mk (Some "whoami") [Byte.x72] [] None 0 0;
               Command.mk (Some "uname") [Byte.x4c] [] None 0 2] None [])
           empty_world (Str "u") (Str "x") (Int 22)
           [(Str "whoami", []); (Str "uname", [])]).
  - repeat constructor.
  - discriminate.
  - intros host [= <-] _. reflexivity.
  - discriminate.
  - repeat constructor; simpl; try discriminate; intros text [= <-] _; reflexivity.
Defined.

(** ** [IntegrationSpec]: the environment and the loaded modules *)

Lemma prefix_iff (s1 s2 : string) :
  String.prefix s1 s2 = true ↔ ∃ rest, s2 = (s1 +:+ rest)%string.
Proof.
  revert s2. induction s1 as [|a s1 IH]; intros s2.
  - split; [intros _; exists s2; reflexivity | intros _; destruct s2; reflexivity].
  - destruct s2 as [|b s2]; simpl.
    + split; [discriminate | intros (rest & H); discriminate].
    + destruct (Ascii.ascii_dec a b) as [-> | N].
      * rewrite IH. split; intros (rest & H); exists rest.
        -- rewrite H. reflexivity.
        -- injection H as H. exact H.
      * split; [discriminate | intros (rest & H); injection H as H _; congruence].
Qed.

(** [sub in text] holds exactly when [text] is some string, then [sub],
    then some string. *)
Lemma contains_iff (sub text : string) :
  IntegrationSpec.contains sub text = true ↔
  ∃ before after, text = (before +:+ sub +:+ after)%string.
Proof.
  induction text as [|a text IH]; cbn [IntegrationSpec.contains].
  - rewrite orb_false_r, prefix_iff. split.
    + intros (rest & H). exists EmptyString, rest. exact H.
    + intros ([|b before] & after & H); [exists after; exact H | discriminate].
  - rewrite orb_true_iff, prefix_iff, IH. split.
    + intros [(rest & H) | (before & after & H)].
      * exists EmptyString, rest. exact H.
      * exists (String a before), after. simpl. rewrite H. reflexivity.
    + intros ([|b before] & after & H).
      * left. exists after. exact H.
      * right. injection H as _ H. exists before, after. exact H.
Qed.

Lemma filter_key_absent (name : string)
    (l : list (string * option IntegrationSpec.module_)) :
  name ∉ l.*1 → filter (λ item, item.1 ≠ name) l = l.
Proof.
  induction l as [|[k v] l IH]; intros H; [reflexivity |].
  rewrite fmap_cons, not_elem_of_cons in H. destruct H as [Hk Hl].
  rewrite filter_cons_True by (simpl in *; intros E; apply Hk; symmetry; exact E).
  rewrite IH by exact Hl. reflexivity.
Qed.

(** Deleting a key of a dict removes its one item. *)
Lemma del_middle (name : string) (module : option IntegrationSpec.module_)
    (done rest : list (string * option IntegrationSpec.module_)) :
  NoDup (done ++ (name, module) :: rest).*1 →
  IntegrationSpec.del name (done ++ (name, module) :: rest) = Ok (done ++ rest).
Proof.
  intros Hnd. unfold IntegrationSpec.del.
  rewrite fmap_app, fmap_cons in Hnd. cbn [fst] in Hnd.
  apply NoDup_app in Hnd as (_ & Hdis & Hnd).
  apply NoDup_cons in Hnd as [Hrest _].
  assert (Hdone : name ∉ done.*1) by (intros H; apply (Hdis name H); left).
  rewrite bool_decide_true.
  2:{ rewrite fmap_app, fmap_cons. apply elem_of_app. right. left. }
  rewrite filter_app, filter_cons_False by (simpl; congruence).
  rewrite !filter_key_absent by assumption. reflexivity.
Qed.

Lemma in_support_readable (support : string) (module : option IntegrationSpec.module_) :
  (∀ m, module = Some m → IntegrationSpec.__file__ m ≠ IntegrationSpec.FileNone) →
  IntegrationSpec.in_support support module =
    Ok (IntegrationSpec.stripped support (EmptyString, module)).
Proof.
  intros H. unfold IntegrationSpec.stripped, IntegrationSpec.in_support. cbn [snd].
  destruct module as [m|]; [| reflexivity].
  specialize (H m eq_refl).
  destruct (IntegrationSpec.__file__ m) as [| | path]; [| congruence |].
  - destruct (IntegrationSpec.contains support EmptyString); reflexivity.
  - destruct (IntegrationSpec.contains support path); reflexivity.
Qed.

Lemma stripped_key (support : string) (k k' : string)
    (module : option IntegrationSpec.module_) :
  IntegrationSpec.stripped support (k, module) =
  IntegrationSpec.stripped support (k', module).
Proof. reflexivity. Qed.

(** The loop on modules whose [__file__] can all be read: it ends, and
    the entries deleted are those of the support modules. *)
Lemma strip_readable (support : string)
    (items done : list (string * option IntegrationSpec.module_)) :
  NoDup (done ++ items).*1 →
  IntegrationSpec.files_readable items →
  IntegrationSpec.strip support items (done ++ items) =
    (Ok tt, done ++ filter (λ item, IntegrationSpec.stripped support item = false) items).
Proof.
  revert done. induction items as [|[name module] items IH]; intros done Hnd Hread.
  - reflexivity.
  - apply Forall_cons in Hread as [Hm Hread]. cbn [snd] in Hm.
    cbn [IntegrationSpec.strip].
    rewrite (in_support_readable support module Hm).
    rewrite (stripped_key support EmptyString name).
    destruct (IntegrationSpec.stripped support (name, module)) eqn:Es.
    + rewrite (del_middle name module done items Hnd).
      rewrite filter_cons_False by (rewrite Es; discriminate).
      apply IH; [| exact Hread].
      rewrite fmap_app, fmap_cons in Hnd. rewrite fmap_app.
      apply NoDup_app in Hnd as (H1 & H2 & H3). apply NoDup_cons in H3 as [_ H3].
      apply NoDup_app. split; [exact H1 |]. split; [| exact H3].
      intros x Hx Hin. apply (H2 x Hx). right. exact Hin.
    + rewrite filter_cons_True by exact Es.
      rewrite (cons_middle (name, module) done items), app_assoc in Hnd |- *.
      rewrite (cons_middle (name, module) done (filter _ items)), app_assoc.
      apply IH; [exact Hnd | exact Hread].
Qed.

(** The loop stops at the first module whose [__file__] is [None]: the
    entries before it were gone through, the others are all kept. *)
Lemma strip_file_none (support : string) (name : string) (m : IntegrationSpec.module_)
    (pre post done : list (string * option IntegrationSpec.module_)) :
  NoDup (done ++ pre ++ (name, Some m) :: post).*1 →
  IntegrationSpec.files_readable pre →
  IntegrationSpec.__file__ m = IntegrationSpec.FileNone →
  ∃ msg,
    IntegrationSpec.strip support (pre ++ (name, Some m) :: post)
      (done ++ pre ++ (name, Some m) :: post) =
      (Raise (TypeError msg),
       done ++ filter (λ item, IntegrationSpec.stripped support item = false) pre ++
         (name, Some m) :: post).
Proof.
  intros Hnd Hread Hm. revert done Hnd.
  induction pre as [|[k module] pre IH]; intros done Hnd.
  - cbn [app IntegrationSpec.strip IntegrationSpec.in_support]. rewrite Hm.
    eexists. reflexivity.
  - apply Forall_cons in Hread as [Hk Hread]. cbn [snd] in Hk.
    specialize (IH Hread).
    rewrite <- !app_comm_cons in Hnd |- *. cbn [IntegrationSpec.strip].
    rewrite (in_support_readable support module Hk).
    rewrite (stripped_key support EmptyString k).
    destruct (IntegrationSpec.stripped support (k, module)) eqn:Es.
    + rewrite (del_middle k module done _ Hnd).
      rewrite filter_cons_False by (rewrite Es; discriminate).
      apply IH.
      rewrite fmap_app, fmap_cons in Hnd. rewrite fmap_app.
      apply NoDup_app in Hnd as (H1 & H2 & H3). apply NoDup_cons in H3 as [_ H3].
      apply NoDup_app. split; [exact H1 |]. split; [| exact H3].
      intros x Hx Hin. apply (H2 x Hx). right. exact Hin.
    + rewrite filter_cons_True by exact Es.
      rewrite <- app_comm_cons.
      assert (Ea : ∀ tl, done ++ (k, module) :: tl = (done ++ [(k, module)]) ++ tl)
        by (intros tl; rewrite <- app_assoc; reflexivity).
      rewrite (Ea (pre ++ (name, Some m) :: post)) in Hnd |- *.
      rewrite (Ea (filter _ pre ++ (name, Some m) :: post)).
      apply IH. exact Hnd.
Qed.

Lemma strip_result (support : string) (items : list (string * option IntegrationSpec.module_)) :
  ∀ mods, (IntegrationSpec.strip support items mods).1 = Ok tt ∨
          ∃ e, (IntegrationSpec.strip support items mods).1 = Raise e.
Proof.
  intros mods. destruct (IntegrationSpec.strip support items mods) as [[[]|e] ?]; eauto.
Qed.

(** Which entries the loop deletes. *)
Lemma stripped_spec (support : string) (item : string * option IntegrationSpec.module_) :
  IntegrationSpec.stripped support item = true ↔
  ∃ m, item.2 = Some m ∧
       ((∃ file before rest,
           IntegrationSpec.__file__ m = IntegrationSpec.File file ∧
           file = (before +:+ support +:+ rest)%string) ∨
        (IntegrationSpec.__file__ m = IntegrationSpec.NoFile ∧ support = EmptyString)).
Proof.
  unfold IntegrationSpec.stripped, IntegrationSpec.in_support.
  destruct item as [k [m|]]; cbn [snd].
  - destruct (IntegrationSpec.__file__ m) as [| | path] eqn:Ef.
    + destruct (IntegrationSpec.contains support EmptyString) eqn:Ec.
      * split; [intros _ | reflexivity]. exists m. split; [reflexivity |]. right.
        split; [exact Ef |].
        apply contains_iff in Ec as (before & after & H).
        destruct before; [destruct support; [reflexivity | discriminate] | discriminate].
      * split; [discriminate |].
        intros (m' & [= <-] & [(file & _ & _ & H & _) | [_ ->]]); [congruence |].
        discriminate Ec.
    + split; [discriminate |].
      intros (m' & [= <-] & [(file & _ & _ & H & _) | [H _]]); congruence.
    + destruct (IntegrationSpec.contains support path) eqn:Ec.
      * split; [intros _ | reflexivity]. exists m. split; [reflexivity |]. left.
        apply contains_iff in Ec as (before & after & H).
        exists path, before, after. split; [exact Ef | exact H].
      * split; [discriminate |].
        intros (m' & [= <-] & [(file & before & rest & Hf & H) | [H _]]);
          [| congruence].
        rewrite Ef in Hf. injection Hf as <-.
        assert (IntegrationSpec.contains support path = true)
          by (apply contains_iff; eauto).
        congruence.
  - split; [discriminate | intros (m & H & _); discriminate].
Qed.

(** X14. [setup] then [teardown] restores the environment: whatever the
    test did to [os.environ] and [sys.modules] in between, and whether or
    not the loop over the modules then raises, after [teardown] the
    environment is exactly the one [setup] saw; [teardown] returns
    normally when no module has a [__file__] that is [None]. [setup]
    itself changes nothing. A [teardown] without [setup] raises
    [AttributeError] and leaves the environment empty, the modules
    untouched. *)
Theorem teardown_restores_the_environment :
  ∀ (support : string) (self : IntegrationSpec.t) (p later : IntegrationSpec.Process),
    (∃ r mods,
       IntegrationSpec.teardown support (IntegrationSpec.setup self p).1 later =
         (r, IntegrationSpec.mkProcess (IntegrationSpec.environ p) mods) ∧
       (NoDup (IntegrationSpec.modules later).*1 →
        IntegrationSpec.files_readable (IntegrationSpec.modules later) →
        r = Ok tt)) ∧
    (IntegrationSpec.setup self p).2 = p ∧
    (IntegrationSpec.old_environ self = None →
     ∃ msg,
       IntegrationSpec.teardown support self later =
         (Raise (AttributeError msg),
          IntegrationSpec.mkProcess ∅ (IntegrationSpec.modules later))).
Proof.
  intros support self p later. split; [| split].
  - unfold IntegrationSpec.teardown, IntegrationSpec.setup, IntegrationSpec.update.
    cbn [fst IntegrationSpec.old_environ IntegrationSpec.modules IntegrationSpec.environ].
    rewrite (right_id_L ∅ (∪)).
    destruct (IntegrationSpec.strip support (IntegrationSpec.modules later)
                (IntegrationSpec.modules later)) as [r mods] eqn:E.
    exists r, mods. split; [reflexivity |].
    intros Hnd Hread.
    pose proof (strip_readable support (IntegrationSpec.modules later) [] Hnd Hread) as H.
    cbn [app] in H. rewrite H in E. injection E as <- _. reflexivity.
  - reflexivity.
  - intros H. unfold IntegrationSpec.teardown. rewrite H. eexists. reflexivity.
Qed.

Lemma teardown_without_setup_raises :
  (∃ mods,
     IntegrationSpec.teardown "_support"
       (IntegrationSpec.setup (IntegrationSpec.mk None)
          (IntegrationSpec.mkProcess {[ "HOME"%string := "/root"%string ]} [])).1
       (IntegrationSpec.mkProcess ∅
          [("os"%string,
            Some (IntegrationSpec.mkModule (IntegrationSpec.File "/usr/lib/os.py")))]) =
       (Ok tt, IntegrationSpec.mkProcess {[ "HOME"%string := "/root"%string ]} mods)) ∧
  (∃ msg,
     IntegrationSpec.teardown "_support" (IntegrationSpec.mk None)
       (IntegrationSpec.mkProcess {[ "HOME"%string := "/root"%string ]} []) =
       (Raise (AttributeError msg), IntegrationSpec.mkProcess ∅ [])).
Proof.
  split.
  - destruct (proj1 (teardown_restores_the_environment "_support"
                       (IntegrationSpec.mk None)
                       (IntegrationSpec.mkProcess {[ "HOME"%string := "/root"%string ]} [])
                       (IntegrationSpec.mkProcess ∅
                          [("os"%string,
                            Some (IntegrationSpec.mkModule
                                    (IntegrationSpec.File "/usr/lib/os.py")))])))
      as (r & mods & E & Hr).
    exists mods. rewrite E, Hr; [reflexivity | |].
    + repeat constructor. intros H. inversion H.
    + repeat constructor. intros m [= <-]. discriminate.
  - apply (proj2 (proj2 (teardown_restores_the_environment "_support"
             (IntegrationSpec.mk None)
             (IntegrationSpec.mkProcess ∅ [])
             (IntegrationSpec.mkProcess {[ "HOME"%string := "/root"%string ]} [])))).
    reflexivity.
Defined.

(** X15. After a [setup], [teardown] goes through [sys.modules] in order
    and deletes the entries of the modules whose [__file__] contains the
    support directory. When no module has a [__file__] that is [None],
    exactly these entries are removed: every other entry, including a
    [None] entry and a module without [__file__], is kept in place.
    Otherwise [teardown] raises [TypeError] at the first module whose
    [__file__] is [None]: the support modules before it are removed, and
    every entry from it on is kept, support modules included. *)
Theorem teardown_removes_exactly_the_support_modules :
  ∀ (support : string) (old : gmap string string) (p : IntegrationSpec.Process),
    NoDup (IntegrationSpec.modules p).*1 →
    let result := IntegrationSpec.teardown support (IntegrationSpec.mk (Some old)) p in
    let kept := filter (λ item, IntegrationSpec.stripped support item = false) in
    (IntegrationSpec.files_readable (IntegrationSpec.modules p) →
       result.1 = Ok tt ∧
       IntegrationSpec.modules result.2 = kept (IntegrationSpec.modules p)) ∧
    (∀ pre name m post,
       IntegrationSpec.modules p = pre ++ (name, Some m) :: post →
       IntegrationSpec.files_readable pre →
       IntegrationSpec.__file__ m = IntegrationSpec.FileNone →
       (∃ msg, result.1 = Raise (TypeError msg)) ∧
       IntegrationSpec.modules result.2 = kept pre ++ (name, Some m) :: post) ∧
    (∀ item,
       IntegrationSpec.stripped support item = true ↔
       ∃ m, item.2 = Some m ∧
            ((∃ file before rest,
                IntegrationSpec.__file__ m = IntegrationSpec.File file ∧
                file = (before +:+ support +:+ rest)%string) ∨
             (IntegrationSpec.__file__ m = IntegrationSpec.NoFile ∧
              support = EmptyString))).
Proof.
  intros support old p Hnd result kept. subst result kept.
  unfold IntegrationSpec.teardown.
  cbn [IntegrationSpec.old_environ IntegrationSpec.modules].
  split; [| split].
  - intros Hread.
    pose proof (strip_readable support (IntegrationSpec.modules p) [] Hnd Hread) as H.
    cbn [app] in H. rewrite H. split; reflexivity.
  - intros pre name m post Hp Hread Hm.
    rewrite Hp in Hnd |- *.
    destruct (strip_file_none support name m pre post [] Hnd Hread Hm) as [msg H].
    cbn [app] in H. rewrite H. cbn [fst snd IntegrationSpec.modules].
    split; [exists msg; reflexivity | reflexivity].
  - intros item. apply stripped_spec.
Qed.

Lemma teardown_strips_tasks_and_keeps_os :
  let tasks := ("tasks"%string,
                Some (IntegrationSpec.mkModule
                        (IntegrationSpec.File "/t/_support/tasks.py"))) in
  let os := ("os"%string,
             Some (IntegrationSpec.mkModule (IntegrationSpec.File "/usr/lib/os.py"))) in
  let moves := ("six.moves"%string, None) in
  let builtins := ("builtins"%string,
                   Some (IntegrationSpec.mkModule IntegrationSpec.NoFile)) in
  let ns := IntegrationSpec.mkModule IntegrationSpec.FileNone in
  let more := ("_support.more"%string,
               Some (IntegrationSpec.mkModule
                       (IntegrationSpec.File "/t/_support/more.py"))) in
  (let result :=
     IntegrationSpec.teardown "/t/_support" (IntegrationSpec.mk (Some ∅))
       (IntegrationSpec.mkProcess ∅ [tasks; os; moves; builtins]) in
   result.1 = Ok tt ∧ IntegrationSpec.modules result.2 = [os; moves; builtins]) ∧
  (let result :=
     IntegrationSpec.teardown "/t/_support" (IntegrationSpec.mk (Some ∅))
       (IntegrationSpec.mkProcess ∅ [tasks; os; ("ns"%string, Some ns); more]) in
   (∃ msg, result.1 = Raise (TypeError msg)) ∧
   IntegrationSpec.modules result.2 = [os; ("ns"%string, Some ns); more]).
Proof.
  intros tasks os moves builtins ns more. split.
  - apply (proj1 (teardown_removes_exactly_the_support_modules "/t/_support" ∅
                    (IntegrationSpec.mkProcess ∅ [tasks; os; moves; builtins])
                    ltac:(apply (bool_decide_unpack _); vm_compute; exact I))).
    repeat constructor; intros m [= <-]; discriminate.
  - apply (proj1 (proj2 (teardown_removes_exactly_the_support_modules "/t/_support" ∅
                           (IntegrationSpec.mkProcess ∅
                              [tasks; os; ("ns"%string, Some ns); more])
                           ltac:(apply (bool_decide_unpack _); vm_compute; exact I)))
             [tasks; os] "ns"%string ns [more]).
    + reflexivity.
    + repeat constructor; intros m [= <-]; discriminate.
    + reflexivity.
Defined.

(** ** [posixpath.basename] *)

Lemma rfind_ge (c : Ascii.ascii) (s : string) : (-1 ≤ posixpath.rfind c s)%Z.
Proof.
  induction s as [|a s IH]; cbn [posixpath.rfind]; [lia |].
  destruct (0 <=? posixpath.rfind c s)%Z eqn:E; [lia |].
  destruct (Ascii.eqb a c); lia.
Qed.

Lemma basename_cons (a : Ascii.ascii) (s : string) :
  posixpath.basename (String a s) =
    if (0 <=? posixpath.rfind posixpath.sep s)%Z then posixpath.basename s
    else if Ascii.eqb a posixpath.sep then s else String a s.
Proof.
  unfold posixpath.basename. cbn [posixpath.rfind].
  pose proof (rfind_ge posixpath.sep s) as Hge.
  destruct (0 <=? posixpath.rfind posixpath.sep s)%Z eqn:E.
  - apply Z.leb_le in E.
    replace (Z.to_nat (posixpath.rfind posixpath.sep s + 1 + 1))
      with (S (Z.to_nat (posixpath.rfind posixpath.sep s + 1))) by lia.
    reflexivity.
  - apply Z.leb_gt in E. destruct (Ascii.eqb a posixpath.sep); reflexivity.
Qed.

Lemma basename_no_sep (p : string) :
  posixpath.rfind posixpath.sep p = (-1)%Z → posixpath.basename p = p.
Proof. intros H. unfold posixpath.basename. rewrite H. reflexivity. Qed.

Lemma rfind_basename (p : string) :
  posixpath.rfind posixpath.sep (posixpath.basename p) = (-1)%Z.
Proof.
  induction p as [|a p IH]; [reflexivity |].
  rewrite basename_cons. pose proof (rfind_ge posixpath.sep p) as Hge.
  destruct (0 <=? posixpath.rfind posixpath.sep p)%Z eqn:E; [exact IH |].
  apply Z.leb_gt in E.
  destruct (Ascii.eqb a posixpath.sep) eqn:Ea; [lia |].
  cbn [posixpath.rfind]. rewrite (proj2 (Z.leb_gt _ _) E), Ea. reflexivity.
Qed.

Lemma rfind_app_sep (d p : string) :
  (0 ≤ posixpath.rfind posixpath.sep (d +:+ String posixpath.sep p))%Z.
Proof.
  induction d as [|a d IH].
  - change (0 ≤ posixpath.rfind posixpath.sep (String posixpath.sep p))%Z.
    cbn [posixpath.rfind]. pose proof (rfind_ge posixpath.sep p).
    destruct (0 <=? posixpath.rfind posixpath.sep p)%Z; [lia |].
    rewrite Ascii.eqb_refl. lia.
  - change (0 ≤ posixpath.rfind posixpath.sep
                  (String a (d +:+ String posixpath.sep p)))%Z.
    cbn [posixpath.rfind]. rewrite (proj2 (Z.leb_le _ _) IH). lia.
Qed.

(** The base name of [d + '/' + p] is the base name of [p]. *)
Lemma basename_app_sep (d p : string) :
  posixpath.basename (d +:+ String posixpath.sep p) = posixpath.basename p.
Proof.
  induction d as [|a d IH];
    [change (("" +:+ String posixpath.sep p)%string) with (String posixpath.sep p)
    |change ((String a d +:+ String posixpath.sep p)%string)
       with (String a (d +:+ String posixpath.sep p))];
    rewrite basename_cons.
  - pose proof (rfind_ge posixpath.sep p).
    destruct (0 <=? posixpath.rfind posixpath.sep p)%Z eqn:E; [reflexivity |].
    apply Z.leb_gt in E. rewrite Ascii.eqb_refl.
    symmetry. apply basename_no_sep. lia.
  - rewrite (proj2 (Z.leb_le _ _) (rfind_app_sep d p)). exact IH.
Qed.

Lemma basename_fake_abspath (path : string) :
  posixpath.basename (MockSFTP.fake_abspath path) = posixpath.basename path.
Proof. exact (basename_app_sep "/local" path). Qed.

(** ** [MockSFTP] *)

Lemma start_eq_stubbed (self : MockSFTP.t) (st : MockSFTP.Store) :
  MockSFTP.stubbed (length (MockSFTP.sftp_mocks st)) (length (MockSFTP.os_mocks st))
    (MockSFTP.start self st).2.
Proof.
  unfold MockSFTP.stubbed, MockSFTP.start.
  cbn [snd MockSFTP.os_mocks MockSFTP.sftp_mocks].
  eexists _, _. split; [apply list_lookup_middle; reflexivity |].
  split; [apply list_lookup_middle; reflexivity |].
  repeat split; reflexivity.
Qed.

Lemma call_abspath_stubbed (sftp mock_os : nat) (st : MockSFTP.Store) (path : string) :
  MockSFTP.stubbed sftp mock_os st →
  ∃ st', MockSFTP.call_abspath mock_os path st =
           (Ok (Value (MockSFTP.fake_abspath path)), st') ∧
         MockSFTP.stubbed sftp mock_os st' ∧
         MockSFTP.transfer_os st' = MockSFTP.transfer_os st ∧
         MockSFTP.connection_SSHClient st' = MockSFTP.connection_SSHClient st.
Proof.
  intros (mo & ms & Ho & Hs & H1 & H2 & H3 & H4 & H5 & H6 & H7 & H8).
  unfold MockSFTP.call_abspath, MockSFTP.on_os, MockSFTP.fn_call.
  rewrite Ho, H1. eexists. split; [reflexivity |].
  split; [| split; reflexivity].
  eexists _, ms. cbn [MockSFTP.os_mocks MockSFTP.sftp_mocks].
  split; [apply list_lookup_insert_eq; eapply lookup_lt_Some; exact Ho |].
  split; [exact Hs |]. cbn. repeat split; assumption.
Qed.

Lemma call_basename_stubbed (sftp mock_os : nat) (st : MockSFTP.Store) (path : string) :
  MockSFTP.stubbed sftp mock_os st →
  ∃ st', MockSFTP.call_basename mock_os path st =
           (Ok (Value (posixpath.basename path)), st') ∧
         MockSFTP.stubbed sftp mock_os st' ∧
         MockSFTP.transfer_os st' = MockSFTP.transfer_os st ∧
         MockSFTP.connection_SSHClient st' = MockSFTP.connection_SSHClient st.
Proof.
  intros (mo & ms & Ho & Hs & H1 & H2 & H3 & H4 & H5 & H6 & H7 & H8).
  unfold MockSFTP.call_basename, MockSFTP.on_os, MockSFTP.fn_call.
  rewrite Ho, H2. eexists. split; [reflexivity |].
  split; [| split; reflexivity].
  eexists _, ms. cbn [MockSFTP.os_mocks MockSFTP.sftp_mocks].
  split; [apply list_lookup_insert_eq; eapply lookup_lt_Some; exact Ho |].
  split; [exact Hs |]. cbn. repeat split; assumption.
Qed.

Lemma call_os_stat_stubbed (sftp mock_os : nat) (st : MockSFTP.Store) (path : string) :
  MockSFTP.stubbed sftp mock_os st →
  ∃ st', MockSFTP.call_os_stat_st_mode mock_os path st =
           (Ok (Value MockSFTP.fake_mode), st') ∧
         MockSFTP.stubbed sftp mock_os st' ∧
         MockSFTP.transfer_os st' = MockSFTP.transfer_os st ∧
         MockSFTP.connection_SSHClient st' = MockSFTP.connection_SSHClient st.
Proof.
  intros (mo & ms & Ho & Hs & H1 & H2 & H3 & H4 & H5 & H6 & H7 & H8).
  unfold MockSFTP.call_os_stat_st_mode, mock.__call__.
  rewrite Ho, H4, H3. eexists. split; [reflexivity |].
  split; [| split; reflexivity].
  eexists _, ms. cbn [MockSFTP.os_mocks MockSFTP.sftp_mocks].
  split; [apply list_lookup_insert_eq; eapply lookup_lt_Some; exact Ho |].
  split; [exact Hs |]. cbn. repeat split; assumption.
Qed.

Lemma call_getcwd_stubbed (sftp mock_os : nat) (st : MockSFTP.Store) :
  MockSFTP.stubbed sftp mock_os st →
  ∃ st', MockSFTP.call_getcwd sftp st = (Ok (Value "/remote"%string), st') ∧
         MockSFTP.stubbed sftp mock_os st' ∧
         MockSFTP.transfer_os st' = MockSFTP.transfer_os st ∧
         MockSFTP.connection_SSHClient st' = MockSFTP.connection_SSHClient st.
Proof.
  intros (mo & ms & Ho & Hs & H1 & H2 & H3 & H4 & H5 & H6 & H7 & H8).
  unfold MockSFTP.call_getcwd, MockSFTP.on_sftp, mock.__call__.
  rewrite Hs, H6, H5. eexists. split; [reflexivity |].
  split; [| split; reflexivity].
  eexists mo, _. cbn [MockSFTP.os_mocks MockSFTP.sftp_mocks].
  split; [exact Ho |].
  split; [apply list_lookup_insert_eq; eapply lookup_lt_Some; exact Hs |].
  cbn. repeat split; assumption.
Qed.

Lemma call_stat_stubbed (sftp mock_os : nat) (st : MockSFTP.Store) (path : string) :
  MockSFTP.stubbed sftp mock_os st →
  ∃ st', MockSFTP.call_stat_st_mode sftp path st =
           (Ok (Value MockSFTP.fake_mode), st') ∧
         MockSFTP.stubbed sftp mock_os st' ∧
         MockSFTP.transfer_os st' = MockSFTP.transfer_os st ∧
         MockSFTP.connection_SSHClient st' = MockSFTP.connection_SSHClient st.
Proof.
  intros (mo & ms & Ho & Hs & H1 & H2 & H3 & H4 & H5 & H6 & H7 & H8).
  unfold MockSFTP.call_stat_st_mode, MockSFTP.on_sftp, mock.__call__.
  rewrite Hs, H8, H7. eexists. split; [reflexivity |].
  split; [| split; reflexivity].
  eexists mo, _. cbn [MockSFTP.os_mocks MockSFTP.sftp_mocks].
  split; [exact Ho |].
  split; [apply list_lookup_insert_eq; eapply lookup_lt_Some; exact Hs |].
  cbn. repeat split; assumption.
Qed.

(** X16. [start] binds both patched names to fresh mocks, configured with
    the stubs, and hands back their handles; a [stop] after it, whatever
    happened to the names and the mocks in between, binds both names to
    what they were before [start] and keeps every mock. *)
Theorem MockSFTP_stop_after_start_restores_both_names :
  ∀ (self : MockSFTP.t) (st : MockSFTP.Store),
    ∃ self' sftp mock_os st1,
      MockSFTP.start self st = (Ok (self', (sftp, mock_os)), st1) ∧
      MockSFTP.transfer_os st1 = MockSFTP.Mocked mock_os ∧
      MockSFTP.connection_SSHClient st1 = MockSFTP.Mocked sftp ∧
      MockSFTP.os_mocks st !! mock_os = None ∧
      MockSFTP.sftp_mocks st !! sftp = None ∧
      MockSFTP.stubbed sftp mock_os st1 ∧
      ∀ later, ∃ self'',
        MockSFTP.stop self' later =
          (Ok self'',
           MockSFTP.mkStore (MockSFTP.transfer_os st) (MockSFTP.connection_SSHClient st)
             (MockSFTP.os_mocks later) (MockSFTP.sftp_mocks later)).
Proof.
  intros self st. eexists _, _, _, _. split; [reflexivity |].
  split; [reflexivity |]. split; [reflexivity |].
  split; [apply lookup_ge_None_2; lia |].
  split; [apply lookup_ge_None_2; lia |].
  split; [exact (start_eq_stubbed self st) |].
  intros later. eexists. reflexivity.
Qed.

(** X17. A [MockSFTP] remembers only its latest [start]: after two
    [start]s, [stop] binds the names to the mocks of the first [start],
    not to what they were originally. A [MockSFTP(autostart=False)] that
    was never started patches nothing, and its [stop] raises
    [AttributeError] and changes nothing. *)
Theorem MockSFTP_stop_undoes_only_the_latest_start :
  ∀ (st : MockSFTP.Store),
    (∃ self0,
       MockSFTP.__init__ false st = (Ok self0, st) ∧
       ∃ msg, MockSFTP.stop self0 st = (Raise (AttributeError msg), st)) ∧
    (∀ self,
       ∃ self1 sftp1 os1 st1 self2 sftp2 os2 st2,
         MockSFTP.start self st = (Ok (self1, (sftp1, os1)), st1) ∧
         MockSFTP.start self1 st1 = (Ok (self2, (sftp2, os2)), st2) ∧
         sftp2 ≠ sftp1 ∧ os2 ≠ os1 ∧
         ∀ later, ∃ self3,
           MockSFTP.stop self2 later =
             (Ok self3,
              MockSFTP.mkStore (MockSFTP.Mocked os1) (MockSFTP.Mocked sftp1)
                (MockSFTP.os_mocks later) (MockSFTP.sftp_mocks later))).
Proof.
  intros st. split.
  - eexists. split; [reflexivity |]. eexists. reflexivity.
  - intros self. eexists _, _, _, _, _, _, _, _.
    split; [reflexivity |]. split; [reflexivity |].
    cbn [MockSFTP.start snd MockSFTP.os_mocks MockSFTP.sftp_mocks].
    rewrite !length_app. cbn [length].
    split; [lia |]. split; [lia |].
    intros later. eexists. reflexivity.
Qed.

(** X18. The stubs answer the same on every call: as long as the mocks
    are configured as [start] leaves them, [abspath(path)] is
    ['/local/' + path], [basename] is the real [basename], [getcwd()] is
    ['/remote'], both [stat(path).st_mode] are [0o644]; each call leaves
    the mocks so configured and the patched names as they are. *)
Theorem the_stubs_answer_the_same_on_every_call :
  ∀ (sftp mock_os : nat) (st : MockSFTP.Store) (path : string),
    MockSFTP.stubbed sftp mock_os st →
    let unchanged st' :=
      MockSFTP.stubbed sftp mock_os st' ∧
      MockSFTP.transfer_os st' = MockSFTP.transfer_os st ∧
      MockSFTP.connection_SSHClient st' = MockSFTP.connection_SSHClient st in
    (∃ st', MockSFTP.call_abspath mock_os path st =
              (Ok (Value ("/local/" +:+ path)%string), st') ∧ unchanged st') ∧
    (∃ st', MockSFTP.call_basename mock_os path st =
              (Ok (Value (posixpath.basename path)), st') ∧ unchanged st') ∧
    (∃ st', MockSFTP.call_getcwd sftp st =
              (Ok (Value "/remote"%string), st') ∧ unchanged st') ∧
    (∃ st', MockSFTP.call_stat_st_mode sftp path st =
              (Ok (Value 420%Z), st') ∧ unchanged st') ∧
    (∃ st', MockSFTP.call_os_stat_st_mode mock_os path st =
              (Ok (Value 420%Z), st') ∧ unchanged st').
Proof.
  intros sftp mock_os st path H unchanged. subst unchanged. cbv beta.
  split; [exact (call_abspath_stubbed sftp mock_os st path H) |].
  split; [exact (call_basename_stubbed sftp mock_os st path H) |].
  split; [exact (call_getcwd_stubbed sftp mock_os st H) |].
  split; [exact (call_stat_stubbed sftp mock_os st path H) |].
  exact (call_os_stat_stubbed sftp mock_os st path H).
Qed.

Lemma the_stubs_after_a_first_start :
  let st := (MockSFTP.start (MockSFTP.mk None None)
               (MockSFTP.mkStore MockSFTP.Unpatched MockSFTP.Unpatched [] [])).2 in
  ∃ st', MockSFTP.call_abspath 0 "notes.txt" st =
           (Ok (Value "/local/notes.txt"%string), st') ∧
         MockSFTP.stubbed 0 0 st' ∧
         MockSFTP.transfer_os st' = MockSFTP.transfer_os st ∧
         MockSFTP.connection_SSHClient st' = MockSFTP.connection_SSHClient st.
Proof.
  intros st.
  apply (proj1 (the_stubs_answer_the_same_on_every_call 0 0 st "notes.txt"
                  (start_eq_stubbed (MockSFTP.mk None None)
                     (MockSFTP.mkStore MockSFTP.Unpatched MockSFTP.Unpatched [] [])))).
Defined.

(** X19. Through the stubs, the base name of an absolute path is the base
    name of the path itself, [basename(abspath(path)) = basename(path)];
    it holds no separator, and the base name of [path + '/' + name] is
    [name] for every [name] without a separator. *)
Theorem basename_of_abspath_is_the_base_name :
  ∀ (sftp mock_os : nat) (st : MockSFTP.Store) (path : string),
    MockSFTP.stubbed sftp mock_os st →
    ∃ absolute st1 st2,
      MockSFTP.call_abspath mock_os path st = (Ok (Value absolute), st1) ∧
      MockSFTP.call_basename mock_os absolute st1 =
        (Ok (Value (posixpath.basename path)), st2) ∧
      posixpath.rfind posixpath.sep (posixpath.basename path) = (-1)%Z ∧
      (∀ name, posixpath.rfind posixpath.sep name = (-1)%Z →
         posixpath.basename (path +:+ String posixpath.sep name) = name).
Proof.
  intros sftp mock_os st path H.
  destruct (call_abspath_stubbed sftp mock_os st path H) as (st1 & E1 & H1 & _).
  destruct (call_basename_stubbed sftp mock_os st1 (MockSFTP.fake_abspath path) H1)
    as (st2 & E2 & _).
  exists (MockSFTP.fake_abspath path), st1, st2.
  split; [exact E1 |]. split; [rewrite E2, basename_fake_abspath; reflexivity |].
  split; [apply rfind_basename |].
  intros name Hn. rewrite basename_app_sep. apply basename_no_sep. exact Hn.
Qed.

Lemma basename_of_abspath_of_a_nested_path :
  let st := (MockSFTP.start (MockSFTP.mk None None)
               (MockSFTP.mkStore MockSFTP.Unpatched MockSFTP.Unpatched [] [])).2 in
  ∃ absolute st1 st2,
    MockSFTP.call_abspath 0 "docs/notes.txt" st = (Ok (Value absolute), st1) ∧
    MockSFTP.call_basename 0 absolute st1 =
      (Ok (Value (posixpath.basename "docs/notes.txt")), st2) ∧
    posixpath.rfind posixpath.sep (posixpath.basename "docs/notes.txt") = (-1)%Z ∧
    (∀ name, posixpath.rfind posixpath.sep name = (-1)%Z →
       posixpath.basename ("docs/notes.txt" +:+ String posixpath.sep name) = name).
Proof.
  intros st.
  apply (basename_of_abspath_is_the_base_name 0 0 st "docs/notes.txt"
           (start_eq_stubbed (MockSFTP.mk None None)
              (MockSFTP.mkStore MockSFTP.Unpatched MockSFTP.Unpatched [] []))).
Defined.

(** X20. A test decorated with [mock_sftp] is called with [self], the
    SFTP mock and the transfer, and with the [os] mock as a fourth
    argument exactly when [expose_os] is set; the mocks are the fresh
    ones of a [start]. The wrapper never stops what it started: when the
    transfer's constructor and the test leave the two names alone, both
    are still bound to the mocks after the test has returned or
    raised. *)
Theorem mock_sftp_passes_the_mocks_and_never_stops :
  ∀ (T R : Type) (make_transfer : MockSFTP.S T) (expose_os : bool)
    (f : list (MockSFTP.sarg T) → MockSFTP.S R) (self : val) (st : MockSFTP.Store),
    let sftp := length (MockSFTP.sftp_mocks st) in
    let mock_os := length (MockSFTP.os_mocks st) in
    let st1 := (MockSFTP.start (MockSFTP.mk None None) st).2 in
    (∀ transfer st2,
       make_transfer st1 = (Ok transfer, st2) →
       MockSFTP.mock_sftp make_transfer expose_os f self st =
         f ([MockSFTP.Self self; MockSFTP.Sftp sftp; MockSFTP.Transfer transfer] ++
            (if expose_os then [MockSFTP.Os mock_os] else [])) st2) ∧
    (MockSFTP.keeps_names make_transfer →
     (∀ args, MockSFTP.keeps_names (f args)) →
     let after := (MockSFTP.mock_sftp make_transfer expose_os f self st).2 in
     MockSFTP.transfer_os after = MockSFTP.Mocked mock_os ∧
     MockSFTP.connection_SSHClient after = MockSFTP.Mocked sftp).
Proof.
  intros T R make_transfer expose_os f self st sftp mock_os st1.
  assert (E : MockSFTP.mock_sftp make_transfer expose_os f self st =
              match make_transfer st1 with
              | (Ok transfer, st2) =>
                  f ([MockSFTP.Self self; MockSFTP.Sftp sftp;
                      MockSFTP.Transfer transfer] ++
                     (if expose_os then [MockSFTP.Os mock_os] else [])) st2
              | (Raise e, st') => (Raise e, st')
              end).
  { unfold MockSFTP.mock_sftp, MockSFTP.wrapper. cbn [MockSFTP.__init__ MockSFTP.start].
    fold st1. subst st1. cbn [MockSFTP.start snd].
    destruct (make_transfer _) as [[transfer | e] st2]; [| reflexivity].
    destruct expose_os; reflexivity. }
  split.
  - intros transfer st2 Ht. rewrite E, Ht. reflexivity.
  - intros Hm Hf after. subst after. rewrite E.
    destruct (Hm st1) as [Ho Hc].
    destruct (make_transfer st1) as [[transfer | e] st2]; cbn [snd] in *.
    + destruct (Hf ([MockSFTP.Self self; MockSFTP.Sftp sftp;
                     MockSFTP.Transfer transfer] ++
                    (if expose_os then [MockSFTP.Os mock_os] else [])) st2)
        as [Ho' Hc'].
      rewrite Ho', Hc', Ho, Hc. split; reflexivity.
    + rewrite Ho, Hc. split; reflexivity.
Qed.

Lemma mock_sftp_hands_four_arguments_with_expose_os :
  let st := MockSFTP.mkStore MockSFTP.Unpatched MockSFTP.Unpatched [] [] in
  let f := λ (args : list (MockSFTP.sarg unit)) (st : MockSFTP.Store),
             (Ok (length args), st) in
  let after := (MockSFTP.mock_sftp (λ st, (Ok tt, st)) true f PNone st).2 in
  (MockSFTP.mock_sftp (λ st, (Ok tt, st)) true f PNone st).1 = Ok 4 ∧
  MockSFTP.transfer_os after = MockSFTP.Mocked 0 ∧
  MockSFTP.connection_SSHClient after = MockSFTP.Mocked 0.
Proof.
  intros st f. split.
  - rewrite (proj1 (mock_sftp_passes_the_mocks_and_never_stops unit nat
                      (λ st, (Ok tt, st)) true f PNone st) tt _ eq_refl).
    reflexivity.
  - apply (proj2 (mock_sftp_passes_the_mocks_and_never_stops unit nat
                    (λ st, (Ok tt, st)) true f PNone st)).
    + intros st'. split; reflexivity.
    + intros args st'. split; reflexivity.
Defined.

(** ** [sites/shared_conf.py] *)

Lemma append_cons (a : Ascii.ascii) (s t : string) :
  (String a s +:+ t)%string = String a (s +:+ t).
Proof. reflexivity. Qed.

Lemma append_assoc_ (s t u : string) : ((s +:+ t) +:+ u)%string = (s +:+ (t +:+ u))%string.
Proof.
  induction s as [|a s IH]; [reflexivity |].
  rewrite !append_cons, IH. reflexivity.
Qed.

Lemma nonempty_app (a b : string) :
  posixpath.nonempty b = true → posixpath.nonempty (a +:+ b) = true.
Proof. intros H. destruct a; [exact H | reflexivity]. Qed.

Lemma endswith_sep_app (a b : string) :
  posixpath.nonempty b = true →
  posixpath.endswith_sep (a +:+ b) = posixpath.endswith_sep b.
Proof.
  intros H. induction a as [|c a IH]; [reflexivity |].
  rewrite append_cons. pose proof (nonempty_app a b H) as Hn.
  cbn [posixpath.endswith_sep]. destruct (a +:+ b)%string; [discriminate | exact IH].
Qed.

(** One more relative component after a path that is not empty and does
    not end with the separator. *)
Lemma join_plain (path b : string) (rest : list string) :
  posixpath.startswith_sep b = false →
  posixpath.nonempty path = true →
  posixpath.endswith_sep path = false →
  posixpath.join path (b :: rest) = posixpath.join (path +:+ String posixpath.sep b) rest.
Proof. intros Hb Hn He. cbn [posixpath.join]. rewrite Hb, Hn, He. reflexivity. Qed.

Lemma endswith_sep_cons (a : Ascii.ascii) (b : string) :
  posixpath.nonempty b = true →
  posixpath.endswith_sep (String a b) = posixpath.endswith_sep b.
Proof. intros H. destruct b; [discriminate | reflexivity]. Qed.

(** Relative components, none empty and none ending with the separator,
    are appended one after the other, each after a separator. *)
Lemma join_plain_list (bs : list string) (path : string) :
  posixpath.nonempty path = true →
  posixpath.endswith_sep path = false →
  Forall (λ b, posixpath.startswith_sep b = false ∧ posixpath.nonempty b = true ∧
               posixpath.endswith_sep b = false) bs →
  posixpath.join path bs = foldl (λ acc b, acc +:+ String posixpath.sep b)%string path bs.
Proof.
  revert path. induction bs as [|b bs IH]; intros path Hn He H; [reflexivity |].
  apply Forall_cons in H as [(Sb & Nb & Eb) H].
  rewrite join_plain by assumption. cbn [foldl]. apply IH; [| | exact H].
  - apply nonempty_app. reflexivity.
  - rewrite endswith_sep_app by reflexivity.
    rewrite endswith_sep_cons by exact Nb. exact Eb.
Qed.

Lemma join_relative (here b : string) (bs : list string) :
  Forall (λ b, posixpath.startswith_sep b = false ∧ posixpath.nonempty b = true ∧
               posixpath.endswith_sep b = false) (b :: bs) →
  posixpath.join here (b :: bs) =
    foldl (λ acc b, acc +:+ String posixpath.sep b)%string
      ((if negb (posixpath.nonempty here) || posixpath.endswith_sep here
        then here else here +:+ String posixpath.sep EmptyString) +:+ b)%string bs.
Proof.
  intros H. apply Forall_cons in H as [(Sb & Nb & Eb) H].
  rewrite <- join_plain_list; [| apply nonempty_app; exact Nb
                               | rewrite endswith_sep_app by exact Nb; exact Eb
                               | exact H].
  cbn [posixpath.join]. rewrite Sb.
  destruct (negb (posixpath.nonempty here) || posixpath.endswith_sep here);
    [reflexivity |].
  rewrite append_assoc_. reflexivity.
Qed.

Lemma on_dev_spec (environ : gmap string string) :
  shared_conf.on_dev environ = true ↔
  environ !! "READTHEDOCS"%string ≠ Some "True"%string ∧
  (environ !! "TRAVIS"%string = None ∨ environ !! "TRAVIS"%string = Some EmptyString).
Proof.
  unfold shared_conf.on_dev, shared_conf.on_rtd, shared_conf.on_travis.
  destruct (bool_decide_reflect (environ !! "READTHEDOCS"%string = Some "True"%string))
    as [E | N].
  - cbn. split; [discriminate | intros [H _]; contradiction].
  - destruct (environ !! "TRAVIS"%string) as [[|a s]|]; cbn.
    + split; [intros _; split; [exact N | right; reflexivity] | reflexivity].
    + split; [discriminate | intros [_ [H | H]]; discriminate].
    + split; [intros _; split; [exact N | left; reflexivity] | reflexivity].
Qed.

(** X21. The documentation is built for a developer's machine exactly
    when [READTHEDOCS] is not the text ['True'] and [TRAVIS] is unset or
    empty: any other text of [TRAVIS], ['false'] and ['0'] included, counts
    as running on Travis, and no other text of [READTHEDOCS], ['true']
    included, counts as running on Read the Docs. *)
Theorem on_dev_exactly_off_rtd_and_travis :
  ∀ (environ : gmap string string),
    (shared_conf.on_dev environ = true ↔
     environ !! "READTHEDOCS"%string ≠ Some "True"%string ∧
     (environ !! "TRAVIS"%string = None ∨
      environ !! "TRAVIS"%string = Some EmptyString)) ∧
    (∀ text, text ≠ EmptyString →
       shared_conf.on_dev (<["TRAVIS"%string := text]> environ) = false) ∧
    (∀ text, text ≠ "True"%string →
       shared_conf.on_dev (<["READTHEDOCS"%string := text]> (delete "TRAVIS"%string environ))
         = true).
Proof.
  intros environ. split; [apply on_dev_spec |]. split.
  - intros text Ht.
    destruct (shared_conf.on_dev (<["TRAVIS"%string := text]> environ)) eqn:E;
      [| reflexivity].
    apply on_dev_spec in E as [_ [E | E]]; rewrite lookup_insert_eq in E; congruence.
  - intros text Ht. apply on_dev_spec. split.
    + rewrite lookup_insert_eq. congruence.
    + left. rewrite lookup_insert_ne by discriminate. apply lookup_delete_eq.
Qed.

Lemma on_dev_with_travis_false :
  shared_conf.on_dev (<["TRAVIS"%string := "false"%string]> ∅) = false ∧
  shared_conf.on_dev (<["READTHEDOCS"%string := "true"%string]>
                        (delete "TRAVIS"%string ∅)) = true.
Proof.
  split.
  - apply (proj1 (proj2 (on_dev_exactly_off_rtd_and_travis ∅)) "false"%string).
    discriminate.
  - apply (proj2 (proj2 (on_dev_exactly_off_rtd_and_travis ∅)) "true"%string).
    discriminate.
Defined.

(** X22. The intersphinx mapping has the four keys [python], [invoke],
    [invoke_www] and [paramiko]; the Python target is always the remote
    one. Off a developer's machine the other three are the remote
    addresses, whatever [__file__] is; on it all three are local
    directories under the directory of [__file__], never a mix. *)
Theorem intersphinx_targets_are_all_remote_or_all_local :
  ∀ (environ : gmap string string) (__file__ : string),
    let mapping := shared_conf.intersphinx_mapping environ __file__ in
    let here := posixpath.dirname __file__ in
    let base :=
      if negb (posixpath.nonempty here) || posixpath.endswith_sep here
      then here else (here +:+ "/")%string in
    (∀ key, is_Some (mapping !! key) ↔
       key = "python"%string ∨ key = "invoke"%string ∨
       key = "invoke_www"%string ∨ key = "paramiko"%string) ∧
    mapping !! "python"%string = Some ("http://docs.python.org/2.6"%string, PNone) ∧
    (shared_conf.on_dev environ = false →
       mapping !! "invoke"%string =
         Some ("http://docs.pyinvoke.org/en/latest/"%string, PNone) ∧
       mapping !! "invoke_www"%string = Some ("http://pyinvoke.org/"%string, PNone) ∧
       mapping !! "paramiko"%string =
         Some ("http://docs.paramiko.org/en/latest/"%string, PNone)) ∧
    (shared_conf.on_dev environ = true →
       mapping !! "invoke"%string =
         Some ((base +:+ "../../invoke/sites/docs/_build")%string, PNone) ∧
       mapping !! "invoke_www"%string =
         Some ((base +:+ "../../invoke/sites/www/_build")%string, PNone) ∧
       mapping !! "paramiko"%string =
         Some ((base +:+ "../../paramiko/sites/docs/_build")%string, PNone)).
Proof.
  intros environ file mapping here base. subst mapping.
  unfold shared_conf.intersphinx_mapping.
  split; [| split; [| split]].
  - intros key. rewrite !lookup_insert_is_Some, lookup_empty, is_Some_alt.
    split.
    + intros [H | [_ [H | [_ [H | [_ [H | [_ []]]]]]]]]; auto.
    + intros [-> | [-> | [-> | ->]]].
      * left. reflexivity.
      * right. split; [discriminate |]. left. reflexivity.
      * right. split; [discriminate |]. right. split; [discriminate |].
        left. reflexivity.
      * right. split; [discriminate |]. right. split; [discriminate |].
        right. split; [discriminate |]. left. reflexivity.
  - apply lookup_insert_eq.
  - intros E.
    rewrite !(lookup_insert_ne _ "python"%string) by discriminate.
    rewrite lookup_insert_eq.
    rewrite !(lookup_insert_ne _ "invoke"%string) by discriminate.
    rewrite lookup_insert_eq.
    rewrite !(lookup_insert_ne _ "invoke_www"%string) by discriminate.
    rewrite lookup_insert_eq.
    unfold shared_conf.inv_target, shared_conf.inv_www_target, shared_conf.para_target.
    rewrite E. repeat split; reflexivity.
  - intros E.
    rewrite !(lookup_insert_ne _ "python"%string) by discriminate.
    rewrite lookup_insert_eq.
    rewrite !(lookup_insert_ne _ "invoke"%string) by discriminate.
    rewrite lookup_insert_eq.
    rewrite !(lookup_insert_ne _ "invoke_www"%string) by discriminate.
    rewrite lookup_insert_eq.
    unfold shared_conf.inv_target, shared_conf.inv_www_target, shared_conf.para_target.
    rewrite E. cbn [negb]. fold here.
    rewrite !join_relative by (repeat constructor).
    cbn [foldl]. fold base. rewrite !append_assoc_.
    repeat split; reflexivity.
Qed.

Lemma intersphinx_targets_on_travis_and_on_a_developer_machine :
  let remote :=
    shared_conf.intersphinx_mapping (<["TRAVIS"%string := "true"%string]> ∅)
      "/repo/sites/shared_conf.py" in
  let local := shared_conf.intersphinx_mapping ∅ "/repo/sites/shared_conf.py" in
  (remote !! "invoke"%string =
     Some ("http://docs.pyinvoke.org/en/latest/"%string, PNone) ∧
   remote !! "invoke_www"%string = Some ("http://pyinvoke.org/"%string, PNone) ∧
   remote !! "paramiko"%string =
     Some ("http://docs.paramiko.org/en/latest/"%string, PNone)) ∧
  (local !! "invoke"%string =
     Some ("/repo/sites/../../invoke/sites/docs/_build"%string, PNone) ∧
   local !! "invoke_www"%string =
     Some ("/repo/sites/../../invoke/sites/www/_build"%string, PNone) ∧
   local !! "paramiko"%string =
     Some ("/repo/sites/../../paramiko/sites/docs/_build"%string, PNone)).
Proof.
  split.
  - apply (proj1 (proj2 (proj2 (intersphinx_targets_are_all_remote_or_all_local
                                  (<["TRAVIS"%string := "true"%string]> ∅)
                                  "/repo/sites/shared_conf.py")))).
    reflexivity.
  - apply (proj2 (proj2 (proj2 (intersphinx_targets_are_all_remote_or_all_local
                                  ∅ "/repo/sites/shared_conf.py")))).
    reflexivity.
Defined.
